(** * Verification and shape inference of the LinalgExt operations

    A shallow embedding of
    [compiler/src/iree/compiler/Dialect/LinalgExt/IR/LinalgExtOps.cpp]:
    the shape helpers, the memory effects, the pack/unpack shape algebra with
    its symbolic counterpart and builders, and the verifiers of the scatter,
    sort, fft, scan, reverse, topk, pack, unpack, winograd.input_transform,
    winograd.filter_transform, winograd.output_transform and attention
    operations.

    Conventions.
    - An [int64_t] is a [Z]; where the source can leave the 64-bit range the
      two's complement wrap-around [wrap64] is written out.
    - A function that may hit undefined behaviour in the source (an access out
      of the bounds of an array, a failed [assert] or [cast], a division by
      zero) returns [option]; [None] is that undefined behaviour.  Two
      assertions inside the libraries are stated apart, as the predicates
      [isReservedKey] (on the keys of a [DenseSet]) and [isValidExtent] (on
      the shape given to a builder of types), and are hypotheses where the
      absence of undefined behaviour is claimed.
    - A verifier returns a [LogicalResult]; a failure carries the pieces that
      the source streams into its diagnostic. *)

From Stdlib Require Import ZArith Lia Bool String.
From Stdlib Require Import Floats.SpecFloat.
From stdpp Require Import base option list gmap numbers.

Local Open Scope Z_scope.
#[local] Set Warnings "-clear-no-such-hyp".

(** ** 64-bit integers *)

Definition int64_min : Z := - 2 ^ 63.
Definition int64_max : Z := 2 ^ 63 - 1.

Definition in_int64 (z : Z) : Prop := int64_min <= z <= int64_max.

(** Two's complement wrap-around of a mathematical integer to 64 bits. *)
Definition wrap64 (z : Z) : Z := (z + 2 ^ 63) mod 2 ^ 64 - 2 ^ 63.

(** Arrays are indexed by [int64_t] values converted to [size_t]; a negative
    index converts to a huge one, so it is out of bounds like a large one. *)
Definition lookupZ {A} (l : list A) (i : Z) : option A :=
  if bool_decide (0 <= i) then l !! Z.to_nat i else None.

(** [vec[i] = x]; out of bounds is undefined behaviour. *)
Definition assignZ {A} (l : list A) (i : Z) (x : A) : option (list A) :=
  if bool_decide (0 <= i < Z.of_nat (length l))
  then Some (<[Z.to_nat i := x]> l) else None.

(** [llvm::enumerate]. *)
Definition enumerate {A} (l : list A) : list (nat * A) := imap pair l.

(** A [for] loop whose body updates an accumulator and may be undefined. *)
Fixpoint foldM {A S} (body : S -> A -> option S) (s : S) (l : list A)
  : option S :=
  match l with
  | [] => Some s
  | x :: l' => s' ← body s x; foldM body s' l'
  end.

(** ** MLIR builtin types *)

Inductive FloatKind := BF16 | F16 | F32 | F64.

Inductive ElemTy :=
| IntegerType (width : N)
| FloatType (k : FloatKind)
| IndexType
| ComplexType (elem : ElemTy).

Inductive Container := RankedTensor | MemRef.

(** A [ShapedType]: ranked tensor or memref, with its shape and element type.
    A dynamic extent is stored as the sentinel [kDynamic]. *)
Record ShapedType := mkShaped {
  container : Container;
  getShape : list Z;
  getElementType : ElemTy }.

Inductive Ty :=
| Scalar (t : ElemTy)
| Shaped (s : ShapedType).

#[global] Instance FloatKind_eq_dec : EqDecision FloatKind.
Proof. solve_decision. Defined.
#[global] Instance ElemTy_eq_dec : EqDecision ElemTy.
Proof. solve_decision. Defined.
#[global] Instance Container_eq_dec : EqDecision Container.
Proof. solve_decision. Defined.
#[global] Instance ShapedType_eq_dec : EqDecision ShapedType.
Proof. solve_decision. Defined.
#[global] Instance Ty_eq_dec : EqDecision Ty.
Proof. solve_decision. Defined.

Definition getRank (t : ShapedType) : Z := Z.of_nat (length (getShape t)).

Module ShapedTy.
(** [ShapedType::kDynamic] is [std::numeric_limits<int64_t>::min()]. *)
Definition kDynamic : Z := int64_min.
Definition isDynamic (d : Z) : bool := bool_decide (d = kDynamic).
End ShapedTy.
Import ShapedTy.

(** [ShapedType::getDimSize] and [ShapedType::isDynamicDim]. *)
Definition getDimSize (t : ShapedType) (idx : Z) : option Z :=
  lookupZ (getShape t) idx.
Definition isDynamicDim (t : ShapedType) (idx : Z) : option bool :=
  isDynamic <$> getDimSize t idx.

(** [Type::isInteger(width)], [Type::isIntOrFloat]. *)
Definition isInteger (t : ElemTy) (w : N) : bool :=
  match t with IntegerType w' => bool_decide (w' = w) | _ => false end.
Definition isIntOrFloat (t : ElemTy) : bool :=
  match t with IntegerType _ | FloatType _ => true | _ => false end.
Definition Ty_isIntOrFloat (t : Ty) : bool :=
  match t with Scalar e => isIntOrFloat e | Shaped _ => false end.
Definition Ty_isInteger (t : Ty) (w : N) : bool :=
  match t with Scalar e => isInteger e w | Shaped _ => false end.
Definition isFloatType (t : Ty) : bool :=
  match t with Scalar (FloatType _) => true | _ => false end.
Definition isShaped (t : Ty) : bool :=
  match t with Shaped _ => true | Scalar _ => false end.

(** [mlir::verifyCompatibleShape] on two shapes. *)
Definition compatibleDim (dim1 dim2 : Z) : bool :=
  isDynamic dim1 || isDynamic dim2 || bool_decide (dim1 = dim2).

Fixpoint compatibleDims (shape1 shape2 : list Z) : bool :=
  match shape1, shape2 with
  | [], [] => true
  | d1 :: s1, d2 :: s2 => compatibleDim d1 d2 && compatibleDims s1 s2
  | _, _ => false
  end.

Definition verifyCompatibleShape (shape1 shape2 : list Z) : bool :=
  bool_decide (length shape1 = length shape2) && compatibleDims shape1 shape2.

(** ** Diagnostics and results *)

Inductive DiagArg :=
| DStr (s : string)
| DInt (z : Z)
| DElem (t : ElemTy)
| DType (t : Ty).

Inductive LogicalResult :=
| success
| failure (diag : list DiagArg).

Definition succeeded (r : LogicalResult) : bool :=
  match r with success => true | failure _ => false end.
Definition failed (r : LogicalResult) : bool := negb (succeeded r).

(** [return op->emitOpError(...) << ...]. *)
Definition emitOpError (diag : list DiagArg) : option LogicalResult :=
  Some (failure diag).

Notation "'reject_if' c 'with' d ';;' k" :=
  (if c then emitOpError d else k)
  (at level 10, c at level 9, d at level 9, k at level 200,
   format "'[v' 'reject_if'  c  'with'  d  ;;  '/' k ']'").

(** A [for] loop whose body may [return] a failure: iteration goes on while
    the body succeeds. *)
Fixpoint verifyEach {A} (body : A -> option LogicalResult) (l : list A)
  : option LogicalResult :=
  match l with
  | [] => Some success
  | x :: l' =>
      r ← body x;
      match r with
      | success => verifyEach body l'
      | failure d => Some (failure d)
      end
  end.

(** ** Utils *)

(** [getComplexElementTypeOrSelf]. *)
Definition getComplexElementTypeOrSelf (ty : Ty) : Ty :=
  match ty with Scalar (ComplexType e) => Scalar e | _ => ty end.

(** [DenseMapInfo<int64_t>]: the keys that a [DenseSet<int64_t>] keeps for
    its empty and its deleted buckets, and that [insert] asserts not to be
    given.  The empty key is [INT64_MAX]; the deleted one is [INT64_MAX - 1]
    where [int64_t] is [long], and [INT64_MIN] where it is [long long]. *)
Definition isReservedKey (key : Z) : bool :=
  bool_decide (key = int64_max) || bool_decide (key = int64_max - 1)
  || bool_decide (key = int64_min).

(** [isInvalid(dimsPos, rank)]: more entries than [rank], a duplicate, or an
    entry outside [0, rank).  This is the value that the function returns:
    [uniqued] is a [DenseSet<int64_t>], and an entry that is one of its
    reserved keys ([isReservedKey]) fails the assertion of [insert] before
    the entries are tested against [rank].  Such an entry is outside
    [0, rank): whenever the function returns on a list which holds one, it
    returns true, as here, and the list is never accepted; the results on the
    absence of undefined behaviour assume that the list holds none. *)
Definition isInvalid (dimsPos : list Z) (rank : Z) : bool :=
  if bool_decide (Z.of_nat (length dimsPos) > rank) then true
  else
    let uniqued : gset Z := foldl (fun s dim => {[dim]} ∪ s) ∅ dimsPos in
    if bool_decide (length dimsPos ≠ size uniqued) then true
    else existsb (fun dimPos => bool_decide (dimPos < 0 ∨ dimPos >= rank))
                 dimsPos.

(** [isSmallerThan(sourceShape, limitShape)]; the source asserts that the two
    ranks agree. *)
Fixpoint allSmaller (sourceShape limitShape : list Z) : bool :=
  match sourceShape, limitShape with
  | sourceExtent :: s, limit :: l =>
      (isDynamic sourceExtent || isDynamic limit
       || bool_decide (sourceExtent <= limit)) && allSmaller s l
  | _, _ => true
  end.

Definition isSmallerThan (sourceShape limitShape : list Z) : option bool :=
  if bool_decide (length sourceShape = length limitShape)
  then Some (allSmaller sourceShape limitShape) else None.

(** ** Index values: [Value] and [OpFoldResult]

    An SSA [Value] of index type is identified with the operation that
    defines it, as far as this file looks through it: an [arith.constant], the
    [affine.apply] of [s0 ceildiv s1] that the shape reification builds, or
    anything else.  An [OpFoldResult] is an integer attribute or a [Value]. *)

Inductive Value :=
| ConstantIndexOp (c : Z)
| AffineCeilDivOp (lhs rhs : OpFoldResult)
| OpaqueValue (id : nat)
with OpFoldResult :=
| Attr (c : Z)
| Val (v : Value).

(** [mlir::getConstantIntValue]: the attribute, or the constant behind a value
    defined by a constant operation. *)
Definition getConstantIntValue (ofr : OpFoldResult) : option Z :=
  match ofr with
  | Attr c => Some c
  | Val (ConstantIndexOp c) => Some c
  | Val _ => None
  end.

(** [mlir::isConstantIntValue]. *)
Definition isConstantIntValue (ofr : OpFoldResult) (value : Z) : bool :=
  bool_decide (getConstantIntValue ofr = Some value).

(** [mlir::getValueOrCreateConstantIndexOp]. *)
Definition getValueOrCreateConstantIndexOp (ofr : OpFoldResult) : Value :=
  match ofr with
  | Val v => v
  | Attr c => ConstantIndexOp c
  end.

(** [mlir::dispatchIndexOpFoldResults], the static half: a [Value] leaves the
    sentinel [kDynamic], whatever defines it. *)
Definition dispatchStatic (ofr : OpFoldResult) : Z :=
  match ofr with
  | Val _ => kDynamic
  | Attr c => c
  end.

(** The static sizes that [mlir::dispatchIndexOpFoldResults] returns. *)
Definition dispatchIndexOpFoldResults (ofrs : list OpFoldResult) : list Z :=
  dispatchStatic <$> ofrs.

(** Modelled from the spec: [asShapeWithAnyValueAsDynamic] of the dialect's
    utilities, which are not among the sources: the shape seen by the
    verifier path, where every symbolic dimension that is a [Value] is
    dynamic and an attribute is its constant. *)
Definition asShapeWithAnyValueAsDynamic (ofrs : list OpFoldResult) : list Z :=
  dispatchStatic <$> ofrs.

(** [mlir::ceilDiv] of MathExtras.h, which asserts [rhs != 0]; the C++
    division truncates, which is [Z.quot]. *)
Definition ceilDiv (lhs rhs : Z) : option Z :=
  if bool_decide (rhs = 0) then None
  else
    let x := if bool_decide (rhs > 0) then -1 else 1 in
    Some (if bool_decide (lhs ≠ 0)
             && Bool.eqb (bool_decide (lhs > 0)) (bool_decide (rhs > 0))
          then wrap64 (wrap64 (lhs + x) ÷ rhs + 1)
          else wrap64 (- wrap64 (wrap64 (- lhs) ÷ rhs))).

(** [affine::makeComposedFoldedAffineApply] of [s0 ceildiv s1]: constant
    operands are folded into an attribute with the same [ceilDiv]; a zero
    divisor does not fold and the [affine.apply] stays. *)
Definition makeComposedFoldedCeilDiv (lhs rhs : OpFoldResult) : OpFoldResult :=
  match getConstantIntValue lhs, getConstantIntValue rhs with
  | Some l, Some r =>
      match ceilDiv l r with
      | Some q => Attr q
      | None => Val (AffineCeilDivOp lhs rhs)
      end
  | _, _ => Val (AffineCeilDivOp lhs rhs)
  end.

(** Modelled from the spec: [interchange] of the dialect's utilities, which
    are not among the sources: entry [idx + offset] of the result is entry
    [interchangeVector[idx] + offset] of [elements]; the other entries stay. *)
Definition interchange {T} (elements : list T) (interchangeVector : list Z)
    (offset : Z) : option (list T) :=
  foldM (fun vec '(idx, val) =>
           x ← lookupZ elements (val + offset);
           assignZ vec (Z.of_nat idx + offset) x)
        elements (enumerate interchangeVector).

(** ** PackOp and UnPackOp utils *)

(** [getPackOpResultTypeShape]: the shape of the packed type. *)
Definition getPackOpResultTypeShape
    (sourceShape innerTileSizes innerDimsPos outerDimsPerm : list Z)
  : option (list Z) :=
  resultShape ←
    foldM (fun resultShape '(idx, tiledDim) =>
             extent ← lookupZ resultShape tiledDim;
             if isDynamic extent then Some resultShape
             else
               tile ← innerTileSizes !! idx;
               if isDynamic tile then assignZ resultShape tiledDim kDynamic
               else
                 count ← ceilDiv extent tile;
                 assignZ resultShape tiledDim count)
          sourceShape (enumerate innerDimsPos);
  (* Swap tile loops if outer_dims_perm is available. *)
  resultShape ← interchange resultShape outerDimsPerm 0;
  (* Append the inner tile dimensions. *)
  Some (resultShape ++ innerTileSizes).

(** [PackOp::getResultShape] on symbolic dimensions. *)
Definition PackOp_getResultShape
    (sourceDims innerTileSizes : list OpFoldResult)
    (innerDimsPos outerDimsPerm : list Z) : option (list OpFoldResult) :=
  resultDims ←
    foldM (fun resultDims '(idx, tiledDim) =>
             dim ← lookupZ resultDims tiledDim;
             tile ← innerTileSizes !! idx;
             assignZ resultDims tiledDim (makeComposedFoldedCeilDiv dim tile))
          sourceDims (enumerate innerDimsPos);
  resultDims ←
    (if bool_decide (outerDimsPerm ≠ [])
     then interchange resultDims outerDimsPerm 0
     else Some resultDims);
  let resultDims := resultDims ++ innerTileSizes in
  resultTypeShape ←
    getPackOpResultTypeShape (asShapeWithAnyValueAsDynamic sourceDims)
                             (asShapeWithAnyValueAsDynamic innerTileSizes)
                             innerDimsPos outerDimsPerm;
  (* Fix-up: a dimension is a Value if the result type says dynamic. *)
  mapM (fun '(i, dim) =>
          extent ← resultTypeShape !! i;
          if negb (isDynamic extent) then Some dim
          else Some (Val (getValueOrCreateConstantIndexOp dim)))
       (enumerate resultDims).

(** The invariant on the shape of a [RankedTensorType] and of a
    [MemRefType], which their [get] asserts: an extent is dynamic or not
    negative. *)
Definition isValidExtent (d : Z) : bool :=
  isDynamic d || bool_decide (0 <= d <= int64_max).

(** [PackOp::getPackedType]: the shaped type of the same kind as the source
    with the packed shape.  The shape is taken as it is computed: that it
    meets [isValidExtent], as [RankedTensorType::get] and [MemRefType::get]
    assert, is a property of the operation (a constant tile that is negative
    breaks it), which the results on the absence of undefined behaviour
    establish from their hypotheses. *)
Definition PackOp_getPackedType (sourceType : ShapedType)
    (innerTileSizes innerDimsPos outerDimsPerm : list Z)
  : option ShapedType :=
  resultTypeShape ←
    getPackOpResultTypeShape (getShape sourceType) innerTileSizes
                             innerDimsPos outerDimsPerm;
  Some (mkShaped (container sourceType) resultTypeShape
                 (getElementType sourceType)).

(** [hasZeros]: at least one tile is the constant zero. *)
Definition hasZeros (tiles : list OpFoldResult) : bool :=
  existsb (fun tile => isConstantIntValue tile 0) tiles.

(** [areNotFullTiles]: some statically known extent is not a multiple of its
    statically known tile.  [dim] counts the extents already passed. *)
Fixpoint areNotFullTilesFrom (dim : Z) (inputShape : list Z)
    (dimAndTileMapping : gmap Z OpFoldResult) : option bool :=
  match inputShape with
  | [] => Some false
  | extent :: rest =>
      if isDynamic extent
      then areNotFullTilesFrom (dim + 1) rest dimAndTileMapping
      else
        match dimAndTileMapping !! dim with
        | Some tile =>
            match getConstantIntValue tile with
            | None => areNotFullTilesFrom (dim + 1) rest dimAndTileMapping
            | Some constantTile =>
                if bool_decide (constantTile = 0) then None
                else if bool_decide (Z.rem extent constantTile ≠ 0)
                     then Some true
                     else areNotFullTilesFrom (dim + 1) rest dimAndTileMapping
            end
        | None => areNotFullTilesFrom (dim + 1) rest dimAndTileMapping
        end
  end.

Definition areNotFullTiles (inputShape : list Z)
    (dimAndTileMapping : gmap Z OpFoldResult) : option bool :=
  areNotFullTilesFrom 0 inputShape dimAndTileMapping.

(** The operations.  The fields are the operands' types and the attributes
    that the verifiers read through the generated accessors. *)
Record PackOp := {
  pack_input : ShapedType;
  pack_output : ShapedType;
  pack_inner_dims_pos : list Z;
  pack_outer_dims_perm : list Z;
  pack_static_inner_tiles : list Z;
  pack_inner_tiles : list Value;
  getPaddingValue : option Ty }.

Record UnPackOp := {
  unpack_input : ShapedType;
  unpack_output : ShapedType;
  unpack_inner_dims_pos : list Z;
  unpack_outer_dims_perm : list Z;
  unpack_static_inner_tiles : list Z;
  unpack_inner_tiles : list Value }.

(** What the templates over [OpTy] use of a pack or unpack operation. *)
Class PackOrUnPack (OpTy : Type) := {
  isPackOp : bool;
  getInputType : OpTy -> ShapedType;
  getOutputType : OpTy -> ShapedType;
  getInnerDimsPos : OpTy -> list Z;
  getOuterDimsPerm : OpTy -> list Z;
  getStaticInnerTiles : OpTy -> list Z;
  getInnerTiles : OpTy -> list Value }.

#[global] Instance PackOp_ops : PackOrUnPack PackOp := {
  isPackOp := true;
  getInputType := pack_input;
  getOutputType := pack_output;
  getInnerDimsPos := pack_inner_dims_pos;
  getOuterDimsPerm := pack_outer_dims_perm;
  getStaticInnerTiles := pack_static_inner_tiles;
  getInnerTiles := pack_inner_tiles }.

#[global] Instance UnPackOp_ops : PackOrUnPack UnPackOp := {
  isPackOp := false;
  getInputType := unpack_input;
  getOutputType := unpack_output;
  getInnerDimsPos := unpack_inner_dims_pos;
  getOuterDimsPerm := unpack_outer_dims_perm;
  getStaticInnerTiles := unpack_static_inner_tiles;
  getInnerTiles := unpack_inner_tiles }.

(** The loop of [getMixedTiles]: a static tile size becomes an attribute, a
    dynamic one takes the next tile operand ([dynamicValIndex++]); running out
    of operands is an access out of bounds. *)
Fixpoint mixTiles (staticInnerTiles : list Z) (innerTiles : list Value)
  : option (list OpFoldResult) :=
  match staticInnerTiles with
  | [] => Some []
  | tileSize :: rest =>
      if negb (isDynamic tileSize)
      then cons (Attr tileSize) <$> mixTiles rest innerTiles
      else
        match innerTiles with
        | [] => None
        | v :: values => cons (Val v) <$> mixTiles rest values
        end
  end.

(** [zip_equal] asserts that the two ranges have the same length. *)
Definition zip_equal {A B} (l : list A) (k : list B) : option (list (A * B)) :=
  if bool_decide (length l = length k) then Some (zip l k) else None.

(** [ArrayRef::take_back]. *)
Definition take_back {A} (n : nat) (l : list A) : list A :=
  drop (length l - n) l.

Section PackAndUnPack.
Context {OpTy : Type} `{PackOrUnPack OpTy}.

Definition getMixedTiles (op : OpTy) : option (list OpFoldResult) :=
  mixTiles (getStaticInnerTiles op) (getInnerTiles op).

(** [getStaticTiles]: [kDynamic] where the tile is a value. *)
Definition getStaticTiles (op : OpTy) : option (list Z) :=
  mixedTiles ← getMixedTiles op;
  Some (dispatchIndexOpFoldResults mixedTiles).

(** [getDimAndTileMapping]: binds each blocked dimension to its tile. *)
Definition getDimAndTileMapping (op : OpTy)
  : option (gmap Z OpFoldResult) :=
  let dimsToBlock := getInnerDimsPos op in
  tiles ← getMixedTiles op;
  if bool_decide (length tiles = length dimsToBlock)
  then Some (foldl (fun m '(dim, tile) => <[dim := tile]> m) ∅
                   (zip dimsToBlock tiles))
  else None.

(** The trailing dimension of the packed type against its tile. *)
Definition tileMatchesShape (it : Z * OpFoldResult) : bool :=
  let '(shape, tile) := it in
  match getConstantIntValue tile with
  | None =>
      (* If specified tile size is dynamic, output shape should be dynamic
         too. *)
      isDynamic shape
  | Some constTileSize =>
      if isDynamic shape then true
      else bool_decide (shape = constTileSize)
  end.

(** Common verifier for [PackOp] and [UnPackOp]. *)
Definition commonVerifierPackAndUnPackOp (packOrUnPack : OpTy)
  : option LogicalResult :=
  let unpackedType :=
    if isPackOp then getInputType packOrUnPack
    else getOutputType packOrUnPack in
  let unpackedRank := getRank unpackedType in
  let innerDimsPos := getInnerDimsPos packOrUnPack in
  let outerDimPerm := getOuterDimsPerm packOrUnPack in
  mixedTiles ← getMixedTiles packOrUnPack;
  reject_if (hasZeros mixedTiles) with [DStr "invalid tile factor"];;
  reject_if (isInvalid innerDimsPos unpackedRank)
    with [DStr "invalid inner_dims_pos vector"];;
  reject_if (isInvalid outerDimPerm unpackedRank)
    with [DStr "invalid outer_dims_perm vector"];;
  reject_if (bool_decide (length mixedTiles ≠ length innerDimsPos))
    with [DStr "blocking factors must equal the number of dimensions to block"];;
  reject_if (bool_decide (Z.of_nat (length mixedTiles) > unpackedRank))
    with [DStr "blocking factors must be less or equal than the input rank"];;
  let packedType :=
    if isPackOp then getOutputType packOrUnPack
    else getInputType packOrUnPack in
  let packedRank := getRank packedType in
  reject_if (bool_decide
               (unpackedRank + Z.of_nat (length mixedTiles) ≠ packedRank))
    with [DStr "packed rank must equal unpacked rank + blocking factors"];;
  staticTiles ← getStaticTiles packOrUnPack;
  expectedPackedType ←
    PackOp_getPackedType unpackedType staticTiles innerDimsPos outerDimPerm;
  smaller ← isSmallerThan (getShape expectedPackedType) (getShape packedType);
  reject_if (negb (smaller : bool))
    with [DStr "the shape of output is not large enough to hold the packed data. Expected at least ";
          DType (Shaped expectedPackedType); DStr ", got ";
          DType (Shaped packedType)];;
  tiled ← zip_equal (take_back (length mixedTiles) (getShape packedType))
                    mixedTiles;
  reject_if (negb (forallb tileMatchesShape tiled))
    with [DStr "mismatch in inner tile sizes specified and shaped of tiled dimension in the packed type"];;
  Some success.

End PackAndUnPack.

(** [PackOp::verify]. *)
Definition PackOp_verify (op : PackOp) : option LogicalResult :=
  common ← commonVerifierPackAndUnPackOp op;
  match common with
  | failure d => Some (failure d)
  | success =>
      dimAndTileMapping ← getDimAndTileMapping op;
      notFull ←
        match getPaddingValue op with
        | None => areNotFullTiles (getShape (getInputType op)) dimAndTileMapping
        | Some _ => Some false
        end;
      reject_if (notFull : bool)
        with [DStr "invalid tile factor provided. Only full tiles are supported when padding_value is not set"];;
      match getPaddingValue op with
      | Some paddingType =>
          reject_if (bool_decide
                       (paddingType ≠ Scalar (getElementType (getInputType op))))
            with [DStr "expected padding_value has ";
                  DElem (getElementType (getInputType op));
                  DStr " but got: "; DType paddingType];;
          Some success
      | None => Some success
      end
  end.

(** [UnPackOp::verify]. *)
Definition UnPackOp_verify (op : UnPackOp) : option LogicalResult :=
  common ← commonVerifierPackAndUnPackOp op;
  match common with
  | failure d => Some (failure d)
  | success => Some success
  end.

(** ** Payload regions *)

Inductive Terminator :=
| YieldOp (operands : list Ty)
| OtherTerminator.

(** The entry block of a region: the types of its arguments and its
    terminator. *)
Record Block := {
  getArguments : list Ty;
  getTerminator : Terminator }.

(** [cast<YieldOp>(block.getTerminator())], operand types. *)
Definition castYieldOp (b : Block) : option (list Ty) :=
  match getTerminator b with
  | YieldOp operands => Some operands
  | OtherTerminator => None
  end.

(** [llvm::seq<unsigned>(Begin, End)]: both ends are converted to [unsigned];
    the range asserts [Begin <= End]. *)
Definition to_unsigned (z : Z) : Z := z mod 2 ^ 32.

(** The conversion of a 64-bit integer to [int]: its low 32 bits, read in
    two's complement. *)
Definition to_int (z : Z) : Z := (z + 2 ^ 31) mod 2 ^ 32 - 2 ^ 31.

Definition llvm_seq (Begin End : Z) : option (list Z) :=
  let b := to_unsigned Begin in
  let e := to_unsigned End in
  if bool_decide (b <= e) then Some (seqZ b (e - b)) else None.

(** ** ScatterOp *)

Record ScatterOp := {
  scatter_getInputs : list Ty;
  scatter_getOutputs : list Ty;
  getIndicesType : ShapedType;
  getUpdateType : ShapedType;
  getOriginalType : ShapedType;
  getDimensionMap : list Z;
  scatter_body : Block }.

(** Modelled from the spec: [getIndexDepth] is generated from the declaration
    of the operation, which is not among the sources: the index depth is the
    last extent of the indices, the number of coordinates in one row of them
    (the verifier tests it with [ShapedType::isDynamic]); [back()] of an empty
    shape is undefined. *)
Definition getIndexDepth (op : ScatterOp) : option Z :=
  list.last (getShape (getIndicesType op)).

(** The body shared by the two loops of [ScatterOp::verify] over pairs of an
    original and an update dimension. *)
Definition scatterDimExceeds (originalType updateType : ShapedType)
    (originalDim updateDim : Z) : option bool :=
  dynamic ← isDynamicDim originalType originalDim;
  if negb dynamic
  then
    u ← getDimSize updateType updateDim;
    o ← getDimSize originalType originalDim;
    Some (bool_decide (u > o))
  else Some false.

Definition ScatterOp_verify (op : ScatterOp) : option LogicalResult :=
  reject_if (bool_decide (length (scatter_getInputs op) ≠ 2%nat))
    with [DStr "expected two input operands"];;
  reject_if (bool_decide (length (scatter_getOutputs op) ≠ 1%nat))
    with [DStr "expected one output operand"];;
  let checkDimensionsMatch (t1 t2 : ShapedType) (dim : Z) : option bool :=
    d1 ← getDimSize t1 dim; d2 ← getDimSize t2 dim;
    Some (bool_decide (d1 = d2)) in
  let indicesType := getIndicesType op in
  reject_if (bool_decide (getRank indicesType ≠ 2)
             || negb (isInteger (getElementType indicesType) 32))
    with [DStr "expected indices to be of rank 2 of i32 element type"];;
  indexDepth ← getIndexDepth op;
  reject_if (isDynamic indexDepth)
    with [DStr "expected index depth is static"];;
  let dimMap := getDimensionMap op in
  reject_if (bool_decide (Z.of_nat (length dimMap) ≠ indexDepth))
    with [DStr "invalid number of dimension map entries "];;
  let originalType := getOriginalType op in
  reject_if (isInvalid dimMap (getRank originalType))
    with [DStr "dimension map is invalid"];;
  (* The first dimension of the indices should match the first dimension of
     the output. They indicate to the number of updates. *)
  let updateType := getUpdateType op in
  reject_if (bool_decide (getRank updateType < 1))
    with [DStr "expected update value to be at least rank 1"];;
  dim0 ← checkDimensionsMatch indicesType updateType 0;
  reject_if (negb (dim0 : bool))
    with [DStr "mismatch in shape of indices and update value at dim#0"];;
  reject_if (bool_decide (getRank updateType - 1 > getRank originalType))
    with [DStr "update value rank exceeds the rank of the original value"];;
  (* indexDepth + update dims should cover the original dims. *)
  reject_if (bool_decide
               (getRank originalType > indexDepth + getRank updateType - 1))
    with [DStr "index depth and update value does not cover rank of original value"];;
  (* Validate the non-indexed update dims cover the full slice size of the
     original tensor. *)
  let fullSliceDims := getRank originalType - indexDepth in
  originalDims ← llvm_seq indexDepth (getRank originalType);
  updateDims ← llvm_seq (getRank updateType - fullSliceDims)
                        (getRank updateType);
  slice ← zip_equal originalDims updateDims;
  sliceOk ←
    verifyEach (fun '(originalDim, updateDim) =>
                  exceeds ← scatterDimExceeds originalType updateType
                                              originalDim updateDim;
                  reject_if (exceeds : bool)
                    with [DStr "shape of update value dim#"; DInt updateDim;
                          DStr " exceeds original value at dim#";
                          DInt originalDim];;
                  Some success)
               slice;
  match sliceOk with
  | failure d => Some (failure d)
  | success =>
  (* Check that the remaining update indices do not exceed the update
     length. *)
  let insertDims := getRank originalType - getRank updateType + 1 in
  originalDims ← llvm_seq insertDims indexDepth;
  updateDims ← llvm_seq 1 (getRank updateType - fullSliceDims);
  indexed ← zip_equal originalDims updateDims;
  indexedOk ←
    verifyEach (fun '(originalDim, updateDim) =>
                  exceeds ← scatterDimExceeds originalType updateType
                                              originalDim updateDim;
                  u ← (if (exceeds : bool)
                       then getDimSize updateType updateDim else Some 0);
                  o ← (if (exceeds : bool)
                       then getDimSize originalType originalDim else Some 0);
                  reject_if (exceeds : bool)
                    with [DStr "indexed shape of update value dim#";
                          DInt updateDim;
                          DStr " exceeds original value at dim#";
                          DInt originalDim; DStr " "; DInt u; DStr " ";
                          DInt o];;
                  Some success)
               indexed;
  match indexedOk with
  | failure d => Some (failure d)
  | success =>
  let body := scatter_body op in
  reject_if (bool_decide (length (getArguments body) ≠ 2%nat))
    with [DStr "expected region to have two arguments"];;
  arg0Type ← getArguments body !! 0%nat;
  arg1Type ← getArguments body !! 1%nat;
  reject_if (negb (Ty_isIntOrFloat (getComplexElementTypeOrSelf arg0Type))
             || negb (Ty_isIntOrFloat (getComplexElementTypeOrSelf arg1Type)))
    with [DStr "expected region to have scalar argument of integer or float types"];;
  reject_if (bool_decide (arg0Type ≠ Scalar (getElementType updateType)))
    with [DStr "mismatch in argument 0 of region "; DType arg0Type;
          DStr " and element type of update value ";
          DElem (getElementType updateType)];;
  reject_if (bool_decide (arg1Type ≠ Scalar (getElementType originalType)))
    with [DStr "mismatch in argument 1 of region "; DType arg1Type;
          DStr " and element type of original value ";
          DElem (getElementType originalType)];;
  reject_if (bool_decide (arg0Type ≠ arg1Type))
    with [DStr "mismatch in region argument types "; DType arg0Type;
          DStr " and "; DType arg1Type];;
  yieldOperands ← castYieldOp body;
  reject_if (bool_decide (length yieldOperands ≠ 1%nat))
    with [DStr "expected region to yield a single value"];;
  yieldedType ← yieldOperands !! 0%nat;
  reject_if (bool_decide (yieldedType ≠ arg0Type))
    with [DStr "mismatch in type of yielded value "; DType yieldedType;
          DStr " and argument of the region "; DType arg0Type];;
  Some success
  end end.

(** ** SortOp *)

(** [sort_getDimension] is the 64-bit [dimension] attribute, which
    [getDimension()] returns as a [uint64_t]. *)
Record SortOp := {
  sort_getNumDpsInputs : nat;
  sort_getOutputs : list ShapedType;
  sort_getDimension : Z;
  sort_block : Block }.

(** Modelled from the spec: the accessors [getOperandType(index)],
    [getOperandRank] and [getOperandShape] of the sort operation are generated
    from its declaration, which is not among the sources: the type of the
    output operand at [index], and the rank and shape that all outputs share,
    read off the first output. *)
Definition sort_getOperandType (op : SortOp) (index : nat)
  : option ShapedType := sort_getOutputs op !! index.
Definition sort_getOperandRank (op : SortOp) : option Z :=
  getRank <$> sort_getOperandType op 0.
Definition sort_getOperandShape (op : SortOp) : option (list Z) :=
  getShape <$> sort_getOperandType op 0.

Definition SortOp_verify (op : SortOp) : option LogicalResult :=
  reject_if (bool_decide (sort_getNumDpsInputs op ≠ 0%nat))
    with [DStr "does not expect to take any inputs"];;
  reject_if (bool_decide (length (sort_getOutputs op) = 0%nat))
    with [DStr "expected at least one `outs` operand"];;
  let block := sort_block op in
  let numOutputs := length (sort_getOutputs op) in
  reject_if (bool_decide (length (getArguments block) ≠ (2 * numOutputs)%nat))
    with [DStr "region block should have "; DInt (Z.of_nat (2 * numOutputs));
          DStr " arguments"];;
  rank ← sort_getOperandRank op;
  (* int sortDim = getDimension(); *)
  let sortDim := to_int (sort_getDimension op) in
  reject_if (bool_decide (sortDim < 0 ∨ sortDim >= rank))
    with [DStr "dimension must be within (0, "; DInt rank; DStr "]"];;
  shape ← sort_getOperandShape op;
  outputsOk ←
    verifyEach (fun '(index, _) =>
       operandType ← sort_getOperandType op index;
       reject_if (bool_decide (getRank operandType ≠ rank))
         with [DStr "expected operand "; DInt (Z.of_nat index);
               DStr " to be rank "; DInt rank;
               DStr ", same as other operands"];;
       reject_if (bool_decide (getShape operandType ≠ shape))
         with [DStr "expected operand "; DInt (Z.of_nat index);
               DStr " to have same shape as other operands"];;
       let elemType := getElementType operandType in
       verifyEach (fun k : nat =>
          (* for (int i : {2 * index, 2 * index + 1}), and
             getArgument(unsigned) *)
          let i := to_int (Z.of_nat k) in
          argType ← getArguments block !! Z.to_nat (to_unsigned i);
          reject_if (bool_decide (argType ≠ Scalar elemType))
            with [DStr "region block argument #"; DInt i;
                  DStr " should be of type "; DElem elemType;
                  DStr " but got "; DType argType];;
          Some success)
         [(2 * index)%nat; (2 * index + 1)%nat])
      (enumerate (sort_getOutputs op));
  match outputsOk with
  | failure d => Some (failure d)
  | success =>
      yieldOperands ← castYieldOp block;
      reject_if (bool_decide (length yieldOperands ≠ 1%nat))
        with [DStr "should yield exactly one operand"];;
      ty ← yieldOperands !! 0%nat;
      reject_if (negb (Ty_isInteger ty 1)) with [DStr "should yield i1 type"];;
      Some success
  end.

(** ** FftOp *)

Record FftOp := {
  getFftLength : Z;
  fft_getDpsInputs : list Ty;
  fft_getDpsInits : list Ty }.

(** Modelled from the spec: [isScalar] is part of the operation interface,
    which is not among the sources: an operand that is neither a tensor nor a
    buffer. *)
Definition isScalar (operand : Ty) : bool := negb (isShaped operand).

Definition FftOp_verify (op : FftOp) : option LogicalResult :=
  let length_ := getFftLength op in
  (* After tiling, it could be dynamic shape. *)
  if isDynamic length_ then Some success
  else
  reject_if (bool_decide (Z.land length_ (wrap64 (length_ - 1)) ≠ 0))
    with [DStr "only powers of 2 are handled currently"];;
  let inputs := fft_getDpsInputs op in
  reject_if (match inputs with
             | [] => true
             | stage :: _ => negb (isScalar stage)
             end)
    with [DStr "expected to carry `stage` input"];;
  reject_if (bool_decide (length inputs ≠ 1%nat)
             && match inputs with
                | [_; re; im] => isScalar re || isScalar im
                | _ => true
                end)
    with [DStr "expected to carry real and imag coeff inputs"];;
  reject_if (bool_decide (length (fft_getDpsInits op) ≠ 2%nat))
    with [DStr "expected outputs to be real and imag tensor/memref"];;
  Some success.

(** ** Single precision arithmetic

    [float] is IEEE 754 binary32: 24 bits of precision, rounding to nearest
    with ties to even, as specified by [SpecFloat]. *)
Module Float32.
Definition prec : Z := 24.
Definition emax : Z := 128.

(** The conversion [(float)z] of an integer. *)
Definition of_int (z : Z) : spec_float := binary_normalize prec emax z 0 false.

Definition div : spec_float -> spec_float -> spec_float := SFdiv prec emax.

(** The least integer not below [±m * 2^e]. *)
Definition ceil_finite (s : bool) (m : positive) (e : Z) : Z :=
  let v := if s then Z.neg m else Z.pos m in
  if bool_decide (0 <= e) then v * 2 ^ e else - ((- v) / 2 ^ (- e)).

(** [std::ceil]; the result is an integer valued float. *)
Definition ceil (x : spec_float) : spec_float :=
  match x with
  | S754_finite s m e => binary_normalize prec emax (ceil_finite s m e) 0 s
  | _ => x
  end.

(** The conversion of a [float] to [int64_t]: truncation; undefined when
    the value is not finite or does not fit. *)
Definition to_int64 (x : spec_float) : option Z :=
  match x with
  | S754_zero _ => Some 0
  | S754_finite s m e =>
      let v := if s then Z.neg m else Z.pos m in
      let z := if bool_decide (0 <= e) then v * 2 ^ e else v ÷ 2 ^ (- e) in
      if bool_decide (int64_min <= z <= int64_max) then Some z else None
  | _ => None
  end.
End Float32.

(** ** WinogradInputTransformOp *)

Record WinogradInputTransformOp := {
  winograd_getDpsInputs : list Ty;
  winograd_getDpsInits : list Ty;
  winograd_getInputType : ShapedType;
  winograd_getOutputType : ShapedType;
  getOutputTileSize : Z;
  getKernelSize : Z;
  imageDimensions : list Z }.

(** Modelled from the spec: the accessors [getInputTileSize], [isNhwc] and
    [isNchw] are generated from the declaration of the operation, which is not
    among the sources: [outputTileSize = inputTileSize - kernelSize + 1], and
    the image axes are [1, 2] in the channel-last layout and [2, 3] in the
    channel-first one. *)
Definition getInputTileSize (op : WinogradInputTransformOp) : Z :=
  wrap64 (wrap64 (getOutputTileSize op + getKernelSize op) - 1).
Definition isNhwc (op : WinogradInputTransformOp) : bool :=
  bool_decide (imageDimensions op = [1; 2]).
Definition isNchw (op : WinogradInputTransformOp) : bool :=
  bool_decide (imageDimensions op = [2; 3]).

(** Modelled from the spec: [permute<Permutation::TTNCHW_TO_TTNHWC>] of the
    dialect's utilities, which are not among the sources: behind the two tile
    axes and the batch axis, the channel axis moves to the last position. *)
Definition permute_TTNCHW_TO_TTNHWC {T} (v : list T) : list T :=
  take 3 v ++ drop 4 v ++ take 1 (drop 3 v).

(** [std::ceil((float)(extent - kernelSize + 1) / outputTileSize)], converted
    back to [int64_t]. *)
Definition winogradTileCount (extent kernelSize outputTileSize : Z)
  : option Z :=
  Float32.to_int64
    (Float32.ceil
       (Float32.div
          (Float32.of_int (wrap64 (wrap64 (extent - kernelSize) + 1)))
          (Float32.of_int outputTileSize))).

Definition WinogradInputTransformOp_verify (op : WinogradInputTransformOp)
  : option LogicalResult :=
  reject_if (bool_decide (length (winograd_getDpsInputs op) ≠ 1%nat))
    with [DStr "expected one input operand"];;
  reject_if (bool_decide (length (winograd_getDpsInits op) ≠ 1%nat))
    with [DStr "expected one output operand"];;
  let inputType := winograd_getInputType op in
  let outputType := winograd_getOutputType op in
  reject_if (bool_decide (getElementType outputType ≠ getElementType inputType))
    with [DStr "expected input/output element types to be identical"];;
  let inputRank := getRank inputType in
  let outputRank := getRank outputType in
  reject_if (bool_decide (inputRank ≠ 2) && bool_decide (inputRank ≠ 4))
    with [DStr "expected input operand to have rank either 2 or 4"];;
  if bool_decide (inputRank = 2) then
    reject_if (bool_decide (outputRank ≠ 2))
      with [DStr "expected output operand to have rank 2 if input is of rank 2"];;
    (* The input has rank 2: both dimensions are there. *)
    dynamic0 ← isDynamicDim inputType 0;
    size0 ← getDimSize inputType 0;
    dynamic1 ← isDynamicDim inputType 1;
    size1 ← getDimSize inputType 1;
    reject_if ((negb (dynamic0 : bool)
                && bool_decide (size0 > getInputTileSize op))
               || ((dynamic1 : bool)
                   && bool_decide (size1 > getInputTileSize op)))
      with [DStr "expected input dims not greater than input tile size if input is of rank 2"];;
    let expectedOutputShape := replicate 2 (getInputTileSize op) in
    reject_if (negb (verifyCompatibleShape expectedOutputShape
                                           (getShape outputType)))
      with [DStr "expected output dims equal to inputTileSize if input is of rank 2"];;
    Some success
  else
  reject_if (bool_decide (outputRank ≠ inputRank + 2))
    with [DStr "expected output rank to be equal to input rank + 2"];;
  let imageDims := imageDimensions op in
  let numImageDims := Z.of_nat (length imageDims) in
  reject_if (bool_decide (length imageDims ≠ 2%nat))
    with [DStr "expected only 2 image dimensions"];;
  reject_if (negb (isNchw op) && negb (isNhwc op))
    with [DStr "expect image dimensions to be either [1, 2] or [2, 3]"];;
  let outputTileSize := getOutputTileSize op in
  let kernelSize := getKernelSize op in
  let inputTileSize := getInputTileSize op in
  let inputShape := getShape inputType in
  expectedOutputShape ←
    foldM (fun expectedOutputShape '(i, extent) =>
             let outputIndex := Z.of_nat i + numImageDims in
             if isDynamic extent
             then assignZ expectedOutputShape outputIndex extent
             else if negb (bool_decide (Z.of_nat i ∈ imageDims))
             then assignZ expectedOutputShape outputIndex extent
             else
               count ← winogradTileCount extent kernelSize outputTileSize;
               assignZ expectedOutputShape outputIndex count)
          (replicate (Z.to_nat outputRank) inputTileSize)
          (enumerate inputShape);
  let expectedOutputShape :=
    if isNchw op then permute_TTNCHW_TO_TTNHWC expectedOutputShape
    else expectedOutputShape in
  reject_if (negb (verifyCompatibleShape expectedOutputShape
                                         (getShape outputType)))
    with [DStr "incompatible output shape"];;
  Some success.

(** ** AttentionOp *)

Record AttentionOp := {
  attention_getDpsInputs : list Ty;
  attention_getDpsInits : list Ty;
  getQueryType : ShapedType;
  getKeyType : ShapedType;
  getValueType : ShapedType;
  attention_getOutputType : ShapedType;
  getScaleType : Ty;
  getMaxType : option ShapedType;
  getSumType : option ShapedType;
  getTransposeV : bool }.

(** [checkShapeRank]. *)
Definition checkShapeRank (operandName : string) (shapedType : ShapedType)
    (rankToCompareWith : Z) : LogicalResult :=
  let opRank := getRank shapedType in
  if bool_decide (opRank ≠ rankToCompareWith)
  then failure [DStr "expected "; DStr operandName; DStr " to have rank ";
                DInt rankToCompareWith; DStr " but found "; DInt opRank]
  else success.

(** [llvm::drop_end]. *)
Definition drop_end {A} (l : list A) : list A := take (length l - 1) l.

(** [std::swap(valueShape[lastIdx - 1], valueShape[lastIdx])]. *)
Definition swapLastTwo {A} (l : list A) : option (list A) :=
  let lastIdx := (length l - 1)%nat in
  a ← l !! (lastIdx - 1)%nat;
  b ← l !! lastIdx;
  if bool_decide (2 <= length l)%nat
  then Some (<[lastIdx := a]> (<[(lastIdx - 1)%nat := b]> l))
  else None.

Notation "'return_if_failed' r ';;' k" :=
  (match r with failure d => Some (failure d) | success => k end)
  (at level 10, r at level 9, k at level 200,
   format "'[v' 'return_if_failed'  r  ;;  '/' k ']'").

Definition AttentionOp_verify (op : AttentionOp) : option LogicalResult :=
  let numInputs := length (attention_getDpsInputs op) in
  let numOutputs := length (attention_getDpsInits op) in
  reject_if (bool_decide (numInputs ≠ 4%nat))
    with [DStr "expected 4 input operands: Query, Key, Value and Scale"];;
  reject_if (bool_decide (numOutputs ≠ 1%nat) && bool_decide (numOutputs ≠ 3%nat))
    with [DStr "expected 1 or 3 output operands: Output, [Max and Sum]"];;
  let isTiled := bool_decide (numOutputs = 3%nat) in
  let rankToCompareWith := if isTiled then 2 else 3 in
  reject_if (negb (forallb isShaped (drop_end (attention_getDpsInputs op))))
    with [DStr "expected Query, Key, Value inputs to be of shaped type"];;
  let queryType := getQueryType op in
  let keyType := getKeyType op in
  let valueType := getValueType op in
  let outputType := attention_getOutputType op in
  let queryElementType := getElementType queryType in
  let keyElementType := getElementType keyType in
  let valueElementType := getElementType valueType in
  let outputElementType := getElementType outputType in
  let scaleElementType := getScaleType op in
  reject_if (negb (isFloatType scaleElementType))
    with [DStr "expected scale to be of floating point type"];;
  return_if_failed (checkShapeRank "query" queryType rankToCompareWith);;
  return_if_failed (checkShapeRank "key" keyType rankToCompareWith);;
  return_if_failed (checkShapeRank "value" valueType rankToCompareWith);;
  return_if_failed (checkShapeRank "output" outputType rankToCompareWith);;
  let queryShape := getShape queryType in
  let keyShape := getShape keyType in
  let outputShape := getShape outputType in
  let transposeV := getTransposeV op in
  valueShape ← (if transposeV then swapLastTwo (getShape valueType)
                else Some (getShape valueType));
  reject_if (negb (verifyCompatibleShape keyShape valueShape))
    with [DStr "incompatible value shape"];;
  reject_if (negb (verifyCompatibleShape queryShape outputShape))
    with [DStr "incompatible output shape"];;
  reject_if (bool_decide (queryElementType ≠ keyElementType)
             || bool_decide (queryElementType ≠ valueElementType)
             || bool_decide (Scalar queryElementType ≠ scaleElementType))
    with [DStr "element types of (Q)uery, (K)ey and (V)alue and scale should be same"];;
  vanilla ←
    (if negb isTiled then
       (* Vanilla attention. *)
       reject_if (bool_decide (queryElementType ≠ outputElementType))
         with [DStr "expected element type for Output ";
               DElem queryElementType; DStr "but found ";
               DElem outputElementType; DStr " instead"];;
       keyHead ← keyShape !! 2%nat;
       queryHead ← queryShape !! 2%nat;
       reject_if (bool_decide ((keyHead : Z) ≠ queryHead))
         with [DStr "query and key head dimension mismatch"];;
       Some success
     else Some success);
  return_if_failed vanilla;;
  if isTiled then
    (* Tiled/Flash attention. *)
    maxType ← getMaxType op;
    sumType ← getSumType op;
    return_if_failed (checkShapeRank "max" maxType 1);;
    return_if_failed (checkShapeRank "sum" sumType 1);;
    let maxElementType := getElementType maxType in
    let sumElementType := getElementType sumType in
    let maxShape := getShape maxType in
    let sumShape := getShape sumType in
    reject_if (bool_decide (outputElementType ≠ maxElementType)
               || bool_decide (maxElementType ≠ sumElementType))
      with [DStr "element types of tiled output, max and sum should be same"];;
    reject_if (negb (verifyCompatibleShape maxShape sumShape))
      with [DStr "incompatible sum shape"];;
    max0 ← maxShape !! 0%nat;
    query0 ← queryShape !! 0%nat;
    reject_if (bool_decide ((max0 : Z) ≠ query0))
      with [DStr "Query and max dimension-0 mismatch"];;
    Some success
  else Some success.

Definition tensor (shape : list Z) (t : ElemTy) : ShapedType :=
  mkShaped RankedTensor shape t.
Definition f32 := FloatType F32.
Definition i32 := IntegerType 32.

(** The mathematical ceiling of [a / b], for [b] of either sign. *)
Definition ceiling (a b : Z) : Z := - ((- a) / b).

(** A symbolic dimension [ofr] agrees with the extent [z] of the type: where
    the type is static, the dimension is the attribute of that constant. *)
Definition agrees (ofr : OpFoldResult) (z : Z) : Prop :=
  isDynamic z = false -> ofr = Attr z.

(** The unpacked and the packed type of a pack or unpack operation, as the
    common verifier selects them. *)
Definition unpackedTypeOf {OpTy} `{PackOrUnPack OpTy} (op : OpTy)
  : ShapedType :=
  if @isPackOp OpTy _ then getInputType op else getOutputType op.
Definition packedTypeOf {OpTy} `{PackOrUnPack OpTy} (op : OpTy)
  : ShapedType :=
  if @isPackOp OpTy _ then getOutputType op else getInputType op.

(** The check of the common verifier on the trailing axes of the packed
    shape: the axis behind the unpacked rank at offset [i] against tile [i].
    A constant tile admits a dynamic axis or the axis equal to the constant;
    a tile that is not a constant admits only a dynamic axis. *)
Definition trailingTileAxesChecked (packedShape : list Z) (unpackedRank : nat)
    (mixedTiles : list OpFoldResult) : Prop :=
  length packedShape = (unpackedRank + length mixedTiles)%nat
  /\ forall i shape tile,
       packedShape !! (unpackedRank + i)%nat = Some shape ->
       mixedTiles !! i = Some tile ->
       match getConstantIntValue tile with
       | Some constTileSize => isDynamic shape = true \/ shape = constTileSize
       | None => isDynamic shape = true
       end.

(** The stricter reading: a static trailing axis equals the constant tile
    size, and a trailing axis is dynamic only when the tile size is not a
    constant. *)
Definition trailingTileAxesStrict (packedShape : list Z) (unpackedRank : nat)
    (mixedTiles : list OpFoldResult) : Prop :=
  forall i shape tile,
    packedShape !! (unpackedRank + i)%nat = Some shape ->
    mixedTiles !! i = Some tile ->
    (isDynamic shape = false -> getConstantIntValue tile = Some shape)
    /\ (isDynamic shape = true -> getConstantIntValue tile = None).

(** An unpack of [tensor<2x?xf32>] into [tensor<8xf32>] with the static tile
    size 4 on dimension 0. *)
Definition unpack_dynamic_tile_axis : UnPackOp := {|
  unpack_input := tensor [2; kDynamic] f32;
  unpack_output := tensor [8] f32;
  unpack_inner_dims_pos := [0];
  unpack_outer_dims_perm := [];
  unpack_static_inner_tiles := [4];
  unpack_inner_tiles := [] |}.

(** The pack of [tensor<10xf32>] with tile size 3 on dimension 0 into
    [output], with or without a padding value. *)
Definition pack_10_by_3 (output : ShapedType) (padding : option Ty)
  : PackOp := {|
  pack_input := tensor [10] f32;
  pack_output := output;
  pack_inner_dims_pos := [0];
  pack_outer_dims_perm := [];
  pack_static_inner_tiles := [3];
  pack_inner_tiles := [];
  getPaddingValue := padding |}.

(** No tile bound in the mapping is the constant zero. *)
Definition nonzeroTiles (m : gmap Z OpFoldResult) : Prop :=
  forall d tile c,
    m !! d = Some tile -> getConstantIntValue tile = Some c -> c ≠ 0.

(** The scatter of updates of shape [updateShape] into the original
    [tensor<8x4>] with the dimension map [0] and the indices
    [tensor<5 x depth x i32>]; [t] is the element type of the updates and of
    the original.  The inputs are the updates and the indices, in this
    order. *)
Definition scatter_example (depth : Z) (updateShape : list Z) (t : ElemTy)
    (body : Block) : ScatterOp := {|
  scatter_getInputs :=
    [Shaped (tensor updateShape t); Shaped (tensor [5; depth] i32)];
  scatter_getOutputs := [Shaped (tensor [8; 4] t)];
  getIndicesType := tensor [5; depth] i32;
  getUpdateType := tensor updateShape t;
  getOriginalType := tensor [8; 4] t;
  getDimensionMap := [0];
  scatter_body := body |}.

(** The payload region that combines two scalars of type [t] into one. *)
Definition combiner (t : ElemTy) : Block := {|
  getArguments := [Scalar t; Scalar t];
  getTerminator := YieldOp [Scalar t] |}.

(** An fft whose length is dynamic, without any input and with one output. *)
Definition fft_dynamic_without_stage : FftOp := {|
  getFftLength := kDynamic;
  fft_getDpsInputs := [];
  fft_getDpsInits := [Shaped (tensor [kDynamic] f32)] |}.

(** The comparator region of a sort with [n] outputs of element type [t]. *)
Definition comparator (n : nat) (t : ElemTy) : Block := {|
  getArguments := replicate (2 * n) (Scalar t);
  getTerminator := YieldOp [Scalar (IntegerType 1)] |}.

(** A sort along dimension 0 of [tensor<?x4xf32>] and [tensor<3x4xf32>]. *)
Definition sort_dynamic_and_static : SortOp := {|
  sort_getNumDpsInputs := 0;
  sort_getOutputs := [tensor [kDynamic; 4] f32; tensor [3; 4] f32];
  sort_getDimension := 0;
  sort_block := comparator 2 f32 |}.

(** A sort along dimension 0 of two [tensor<?x4xf32>]. *)
Definition sort_same_shapes : SortOp := {|
  sort_getNumDpsInputs := 0;
  sort_getOutputs := [tensor [kDynamic; 4] f32; tensor [kDynamic; 4] f32];
  sort_getDimension := 0;
  sort_block := comparator 2 f32 |}.

(** The attention without tiling on [f32] tensors of the given shapes, with
    an [f32] scale and without transposition of the value. *)
Definition attention_example (query key value output : list Z)
  : AttentionOp := {|
  attention_getDpsInputs :=
    [Shaped (tensor query f32); Shaped (tensor key f32);
     Shaped (tensor value f32); Scalar f32];
  attention_getDpsInits := [Shaped (tensor output f32)];
  getQueryType := tensor query f32;
  getKeyType := tensor key f32;
  getValueType := tensor value f32;
  attention_getOutputType := tensor output f32;
  getScaleType := Scalar f32;
  getMaxType := None;
  getSumType := None;
  getTransposeV := false |}.

(** The channel-last winograd input transform on [f32] tensors with kernel
    size 3 and output tile size 4, hence input tile size 6. *)
Definition winograd_nhwc (input output : list Z)
  : WinogradInputTransformOp := {|
  winograd_getDpsInputs := [Shaped (tensor input f32)];
  winograd_getDpsInits := [Shaped (tensor output f32)];
  winograd_getInputType := tensor input f32;
  winograd_getOutputType := tensor output f32;
  getOutputTileSize := 4;
  getKernelSize := 3;
  imageDimensions := [1; 2] |}.

(** The extent that the winograd input transform expects for the image
    extent [extent]: a dynamic extent stays, a static one becomes its tile
    count. *)
Definition imageAxisTiles (op : WinogradInputTransformOp) (extent : Z)
  : option Z :=
  if isDynamic extent then Some extent
  else winogradTileCount extent (getKernelSize op) (getOutputTileSize op).

(** A dimension of the reified shape against the extent of the packed type:
    a [Value] where the type is dynamic, and where the type is static the
    attribute of that extent. *)
Definition reifies (dim : OpFoldResult) (extent : Z) : Prop :=
  match dim with
  | Attr c => extent = c /\ isDynamic extent = false
  | Val _ => isDynamic extent = true
  end.

(** A single precision float with a mantissa of exactly 24 bits whose value
    is the positive integer [p]: [p * 2^23 = m * 2^(e + 23)]. *)
Definition normal_of (p : Z) (m : positive) (e : Z) : Prop :=
  Z.pos (digits2_pos m) = 24 /\ -23 <= e <= 1
  /\ p * 2 ^ 23 = Z.pos m * 2 ^ (e + 23).

(** Whether a location is inexact. *)
Definition inexact (l : location) : bool :=
  match l with loc_Exact => false | loc_Inexact _ => true end.

(** The mantissa, in units of [2^e], that rounding to nearest even leaves of
    a mantissa [q] of 24 or 25 bits with location [l]. *)
Definition roundedUnits (q : Z) (l : location) : Z :=
  if bool_decide (q < 2 ^ 24) then round_nearest_even q l
  else
    2 * round_nearest_even (q / 2)
          (loc_of_shr_record
             {| shr_m := q / 2; shr_r := Z.odd q; shr_s := inexact l |}).

(** The extent that the formula of the transform gives for the image extent
    [extent]: a dynamic extent stays, a static one becomes the ceiling of
    [(extent - kernelSize + 1) / outputTileSize]. *)
Definition expectedImageAxis (op : WinogradInputTransformOp) (extent : Z)
  : Z :=
  if isDynamic extent then extent
  else ceiling (extent - getKernelSize op + 1) (getOutputTileSize op).

(** An image extent whose distance to the kernel size is exact in single
    precision. *)
Definition exactInSinglePrecision (op : WinogradInputTransformOp)
    (extent : Z) : Prop :=
  isDynamic extent = true
  \/ - 2 ^ 24 <= extent - getKernelSize op + 1 <= 2 ^ 24.

(** ** Memory effects *)

Module MemoryEffects.
Inductive Effect := Read | Write.
End MemoryEffects.

(** [SideEffects::DefaultResource], the only resource of this file. *)
Inductive Resource := DefaultResource.

(** An operand: an SSA value, identified by a number, with its type. *)
Record TypedValue := {
  value_id : nat;
  value_getType : Ty }.

Record EffectInstance := {
  effect_kind : MemoryEffects.Effect;
  effect_value : TypedValue;
  effect_resource : Resource }.

(** [llvm::isa<MemRefType>]. *)
Definition isMemRefType (t : Ty) : bool :=
  match t with
  | Shaped s => bool_decide (container s = MemRef)
  | Scalar _ => false
  end.

(** [getEffectsImpl]: the effects are appended to the vector passed in. *)
Definition getEffectsImpl (effects : list EffectInstance)
    (inputOperands outputOperands : list TypedValue) : list EffectInstance :=
  let effects :=
    foldl (fun effects value =>
             if negb (isMemRefType (value_getType value)) then effects
             else effects ++ [{| effect_kind := MemoryEffects.Read;
                                 effect_value := value;
                                 effect_resource := DefaultResource |}])
          effects inputOperands in
  foldl (fun effects value =>
           if negb (isMemRefType (value_getType value)) then effects
           else (effects ++ [{| effect_kind := MemoryEffects.Read;
                                effect_value := value;
                                effect_resource := DefaultResource |}])
                ++ [{| effect_kind := MemoryEffects.Write;
                       effect_value := value;
                       effect_resource := DefaultResource |}])
        effects outputOperands.

(** The memref operands among [operands]. *)
Definition memrefOperands (operands : list TypedValue) : list TypedValue :=
  filter (fun value => isMemRefType (value_getType value) = true) operands.

(** ** Operand types *)

(** [cast<ShapedType>(value.getType())], which asserts that the type is
    shaped. *)
Definition castShapedType (t : Ty) : option ShapedType :=
  match t with
  | Shaped s => Some s
  | Scalar _ => None
  end.

(** The test that the scan and reverse verifiers run over two zipped shapes:
    both extents are static and differ. *)
Definition staticMismatch (s : Z * Z) : bool :=
  negb (isDynamic s.1) && negb (isDynamic s.2) && bool_decide (s.1 ≠ s.2).

(** ** ScanOp *)

(** The fields are what the verifier reads through the generated accessors:
    the operands, the types of [input()], [accumulator()] and [output()], and
    the [dimension] attribute. *)
Record ScanOp := {
  scan_getDpsInputs : list Ty;
  scan_getDpsInits : list Ty;
  scan_input : Ty;
  scan_accumulator : Ty;
  scan_output : Ty;
  scan_getDimension : Z }.

Definition ScanOp_verify (op : ScanOp) : option LogicalResult :=
  reject_if (bool_decide (length (scan_getDpsInputs op) ≠ 1%nat))
    with [DStr "expected one input operands"];;
  reject_if (bool_decide (length (scan_getDpsInits op) ≠ 2%nat))
    with [DStr "expected two output operands"];;
  reject_if (negb (isShaped (scan_input op)))
    with [DStr "expected first input element type to be shaped"];;
  accumulatorType ← castShapedType (scan_accumulator op);
  inputType ← castShapedType (scan_input op);
  outputType ← castShapedType (scan_output op);
  let inputShapes := getShape inputType in
  let outputShapes := getShape outputType in
  reject_if (bool_decide (getElementType accumulatorType
                          ≠ getElementType inputType))
    with [DStr "expected input/accumulator element types to be identical"];;
  let accumulatorShape := getShape accumulatorType in
  let accumulatorRank := getRank accumulatorType in
  reject_if (bool_decide (accumulatorRank ≠ getRank inputType - 1))
    with [DStr "expected accumulator rank to be equal to input rank - 1"];;
  let expectedAccumulatorShape :=
    foldl (fun expected '(i, extent) =>
             if bool_decide (Z.of_nat i ≠ scan_getDimension op)
             then expected ++ [extent] else expected)
          [] (enumerate inputShapes) in
  accumulatorPairs ← zip_equal expectedAccumulatorShape accumulatorShape;
  reject_if (existsb staticMismatch accumulatorPairs)
    with [DStr "incompatible input/accumulator shapes"];;
  reject_if (bool_decide (getElementType inputType ≠ getElementType outputType))
    with [DStr "expected input/output element types to be identical"];;
  reject_if (bool_decide (length inputShapes ≠ length outputShapes))
    with [DStr "expected input/output to have identical ranks"];;
  outputPairs ← zip_equal inputShapes outputShapes;
  reject_if (existsb staticMismatch outputPairs)
    with [DStr "incompatible input/output shapes"];;
  Some success.

(** ** ReverseOp *)

Record ReverseOp := {
  reverse_getDpsInputs : list Ty;
  reverse_getDpsInits : list Ty;
  reverse_input : Ty;
  reverse_output : Ty;
  reverse_dims : list Z }.

(** Modelled from the spec: the accessor [getOperandRank] of the reverse
    operation is generated from its declaration, which is not among the
    sources: the rank of the input operand. *)
Definition reverse_getOperandRank (op : ReverseOp) : option Z :=
  getRank <$> castShapedType (reverse_input op).

(** The loop of [ReverseOp::verify] over [dims()]; [s] is the set vector of
    the dimensions seen so far. *)
Fixpoint reverseDimsLoop (rank : Z) (s : list Z) (dims : list Z)
  : option LogicalResult :=
  match dims with
  | [] => Some success
  | dim :: rest =>
      reject_if (bool_decide (dim < 0 ∨ dim >= rank))
        with [DStr "all the dimensions must be within [0, "; DInt rank;
              DStr ")"];;
      reject_if (bool_decide (dim ∈ s))
        with [DStr "expected dimensions numbers are all unique"];;
      reverseDimsLoop rank (s ++ [dim]) rest
  end.

Definition ReverseOp_verify (op : ReverseOp) : option LogicalResult :=
  reject_if (bool_decide (length (reverse_getDpsInputs op) ≠ 1%nat))
    with [DStr "expected exactly one input"];;
  reject_if (bool_decide (length (reverse_getDpsInits op) ≠ 1%nat))
    with [DStr "expected exactly one output"];;
  inputType ← castShapedType (reverse_input op);
  outputType ← castShapedType (reverse_output op);
  reject_if (bool_decide (getElementType inputType ≠ getElementType outputType))
    with [DStr "expected input/output element types to be identical"];;
  let inputShapes := getShape inputType in
  let outputShapes := getShape outputType in
  reject_if (bool_decide (length inputShapes ≠ length outputShapes))
    with [DStr "expexted input/output to have identical ranks"];;
  pairs ← zip_equal inputShapes outputShapes;
  reject_if (existsb staticMismatch pairs)
    with [DStr "incompatible input/output shapes"];;
  rank ← reverse_getOperandRank op;
  reverseDimsLoop rank [] (reverse_dims op).

(** ** TopkOp *)

(** [topk_indices] is the type of the optional second input; the [dimension]
    attribute is read as a [uint64_t]. *)
Record TopkOp := {
  topk_getDpsInputs : list Ty;
  topk_getDpsInits : list Ty;
  topk_getDimension : Z;
  topk_values : Ty;
  topk_indices : option Ty;
  topk_outputValues : Ty;
  topk_outputIndices : Ty;
  topk_block : Block }.

(** Modelled from the spec: the accessor [getInputRank] of the top-k
    operation is generated from its declaration, which is not among the
    sources: the rank of the input values. *)
Definition topk_getInputRank (op : TopkOp) : option Z :=
  getRank <$> castShapedType (topk_values op).

Definition TopkOp_verify (op : TopkOp) : option LogicalResult :=
  let numInputs := length (topk_getDpsInputs op) in
  reject_if (bool_decide (numInputs ≠ 1%nat) && bool_decide (numInputs ≠ 2%nat))
    with [DStr "expected one or two input operands"];;
  reject_if (bool_decide (length (topk_getDpsInits op) ≠ 2%nat))
    with [DStr "expected two output operands"];;
  inputRank ← topk_getInputRank op;
  reject_if (bool_decide (topk_getDimension op >= inputRank))
    with [DStr "dimension exceeds rank"];;
  (* Ensure input/output element types match *)
  inputValuesType ← castShapedType (topk_values op);
  outputValuesType ← castShapedType (topk_outputValues op);
  reject_if (bool_decide (getElementType inputValuesType
                          ≠ getElementType outputValuesType))
    with [DStr "expected input/output value types to be identical"];;
  (* Indices must be int if provided *)
  outputIndicesType ← castShapedType (topk_outputIndices op);
  indicesInt ←
    match topk_indices op with
    | Some inputIndices =>
        inputIndicesType ← castShapedType inputIndices;
        reject_if (negb (isInteger (getElementType inputIndicesType) 32)
                   || negb (isInteger (getElementType outputIndicesType) 32))
          with [DStr "expected input/output indices types to be int32"];;
        Some success
    | None => Some success
    end;
  return_if_failed indicesInt;;
  (* Ranks must match *)
  reject_if (bool_decide (getRank inputValuesType ≠ getRank outputValuesType))
    with [DStr "expected input/output to have the same rank"];;
  indicesRank ←
    match topk_indices op with
    | Some inputIndices =>
        inputIndicesType ← castShapedType inputIndices;
        reject_if (bool_decide (getRank inputIndicesType
                                ≠ getRank outputIndicesType))
          with [DStr "expected input/output to have the same rank"];;
        Some success
    | None => Some success
    end;
  return_if_failed indicesRank;;
  (* Input indicies and values must have the same shape. *)
  indicesShape ←
    match topk_indices op with
    | Some inputIndices =>
        inputIndicesType ← castShapedType inputIndices;
        reject_if (negb (verifyCompatibleShape (getShape inputValuesType)
                                               (getShape inputIndicesType)))
          with [DStr "input indices/values shape must match"];;
        Some success
    | None => Some success
    end;
  return_if_failed indicesShape;;
  (* Output indicies and values must have the same shape. *)
  reject_if (negb (verifyCompatibleShape (getShape outputValuesType)
                                         (getShape outputIndicesType)))
    with [DStr "output indices/values shape must match"];;
  (* Input shape must match the output shape except for the dimension() *)
  let dim := topk_getDimension op in
  pairs ← zip_equal (getShape inputValuesType) (getShape outputValuesType);
  reject_if (negb (forallb (fun '(index, s) =>
                              if bool_decide (Z.of_nat index = dim) then true
                              else verifyCompatibleShape [s.1] [s.2])
                           (enumerate pairs)))
    with [DStr "incompatible input/output shapes"];;
  (* Check region compatibility *)
  let block := topk_block op in
  reject_if (bool_decide (length (getArguments block) ≠ 2%nat))
    with [DStr "region block should have 2 arguments"];;
  arg0Type ← getArguments block !! 0%nat;
  arg1Type ← getArguments block !! 1%nat;
  reject_if (bool_decide (arg0Type ≠ Scalar (getElementType inputValuesType))
             || bool_decide (arg1Type
                             ≠ Scalar (getElementType inputValuesType)))
    with [DStr "region block types must match input"];;
  match getTerminator block with
  | OtherTerminator =>
      emitOpError [DStr "region block must end with a linalg_ext.yield i1!"]
  | YieldOp operands =>
      yielded ← operands !! 0%nat;
      reject_if (negb (Ty_isInteger yielded 1))
        with [DStr "region block must end with a linalg_ext.yield i1!"];;
      Some success
  end.
(** What the top-k verifier asks of the optional input indices: 32-bit
    integers on both sides, and a shape compatible with the input values. *)
Definition topkIndicesChecked (indices : option Ty)
    (inputValuesType outputIndicesType : ShapedType) : Prop :=
  match indices with
  | None => True
  | Some inputIndices =>
      exists inputIndicesType,
        inputIndices = Shaped inputIndicesType
        /\ getElementType inputIndicesType = IntegerType 32
        /\ getElementType outputIndicesType = IntegerType 32
        /\ verifyCompatibleShape (getShape inputValuesType)
                                 (getShape inputIndicesType) = true
  end.

(** Two shapes are compatible at every axis but [dim]. *)
Definition compatibleExceptAt (dim : Z) (shape1 shape2 : list Z) : Prop :=
  length shape1 = length shape2
  /\ forall (i : nat) d1 d2,
       Z.of_nat i ≠ dim -> shape1 !! i = Some d1 -> shape2 !! i = Some d2 ->
       compatibleDim d1 d2 = true.

(** What the top-k verifier asks for: one or two inputs and two outputs; a
    selection dimension below the rank of the input values; values of one
    element type on both sides; the checks on the optional input indices;
    output values and indices of compatible shapes; input and output values
    compatible at every axis but the selection dimension; and a region that
    compares two values of the element type and yields an [i1] first. *)
Definition topkAccepted (op : TopkOp) : Prop :=
  (length (topk_getDpsInputs op) = 1%nat
   \/ length (topk_getDpsInputs op) = 2%nat)
  /\ length (topk_getDpsInits op) = 2%nat
  /\ exists inputValuesType outputValuesType outputIndicesType yielded,
       topk_values op = Shaped inputValuesType
       /\ topk_outputValues op = Shaped outputValuesType
       /\ topk_outputIndices op = Shaped outputIndicesType
       /\ topk_getDimension op < getRank inputValuesType
       /\ getElementType inputValuesType = getElementType outputValuesType
       /\ topkIndicesChecked (topk_indices op) inputValuesType
                             outputIndicesType
       /\ verifyCompatibleShape (getShape outputValuesType)
                                (getShape outputIndicesType) = true
       /\ compatibleExceptAt (topk_getDimension op)
            (getShape inputValuesType) (getShape outputValuesType)
       /\ getArguments (topk_block op)
          = [Scalar (getElementType inputValuesType);
             Scalar (getElementType inputValuesType)]
       /\ getTerminator (topk_block op)
          = YieldOp (Scalar (IntegerType 1) :: yielded).

(** The shaped type [t] with extent [k] at [axis]. *)
Definition withExtent (t : ShapedType) (axis : nat) (k : Z) : ShapedType :=
  mkShaped (container t) (<[axis := k]> (getShape t)) (getElementType t).

(** The top-k operation [op] with other output operands. *)
Definition topk_withOutputs (op : TopkOp) (outputValues outputIndices : Ty)
  : TopkOp := {|
  topk_getDpsInputs := topk_getDpsInputs op;
  topk_getDpsInits := topk_getDpsInits op;
  topk_getDimension := topk_getDimension op;
  topk_values := topk_values op;
  topk_indices := topk_indices op;
  topk_outputValues := outputValues;
  topk_outputIndices := outputIndices;
  topk_block := topk_block op |}.

(** The top 5 along dimension 1 of a [tensor<4x100xf32>], without input
    indices, into values and indices of the given types. *)
Definition topk_example (outputValues outputIndices : ShapedType) : TopkOp := {|
  topk_getDpsInputs := [Shaped (tensor [4; 100] f32)];
  topk_getDpsInits := [Shaped outputValues; Shaped outputIndices];
  topk_getDimension := 1;
  topk_values := Shaped (tensor [4; 100] f32);
  topk_indices := None;
  topk_outputValues := Shaped outputValues;
  topk_outputIndices := Shaped outputIndices;
  topk_block := comparator 1 f32 |}.

(** ** Builders of the pack and unpack operations *)

(** [mlir::dispatchIndexOpFoldResults], the dynamic half: the values among
    the tile sizes, in their order. *)
Definition dispatchDynamic (ofrs : list OpFoldResult) : list Value :=
  omap (fun ofr => match ofr with Val v => Some v | Attr _ => None end) ofrs.

(** The result types that the builders pass on: the type of the output when
    it is a ranked tensor. *)
Definition builtResultType (outputType : ShapedType) : list ShapedType :=
  if bool_decide (container outputType = RankedTensor) then [outputType]
  else [].

(** [PackOp::build]: the operation and its result types; the builder asserts
    one tile size per inner position. *)
Definition PackOp_build (source output : ShapedType) (innerDimsPos : list Z)
    (innerTiles : list OpFoldResult) (paddingValue : option Ty)
    (outerDimsPerm : list Z) : option (PackOp * list ShapedType) :=
  if bool_decide (length innerDimsPos = length innerTiles)
  then
    let staticTileSizes := dispatchIndexOpFoldResults innerTiles in
    let dynamicTileSizes := dispatchDynamic innerTiles in
    Some ({| pack_input := source;
             pack_output := output;
             pack_inner_dims_pos := innerDimsPos;
             pack_outer_dims_perm := outerDimsPerm;
             pack_static_inner_tiles := staticTileSizes;
             pack_inner_tiles := dynamicTileSizes;
             getPaddingValue := paddingValue |},
          builtResultType output)
  else None.

(** [UnPackOp::build]. *)
Definition UnPackOp_build (source output : ShapedType) (innerDimsPos : list Z)
    (innerTiles : list OpFoldResult) (outerDimsPerm : list Z)
  : UnPackOp * list ShapedType :=
  let staticTileSizes := dispatchIndexOpFoldResults innerTiles in
  let dynamicTileSizes := dispatchDynamic innerTiles in
  ({| unpack_input := source;
      unpack_output := output;
      unpack_inner_dims_pos := innerDimsPos;
      unpack_outer_dims_perm := outerDimsPerm;
      unpack_static_inner_tiles := staticTileSizes;
      unpack_inner_tiles := dynamicTileSizes |},
   builtResultType output).

(** The extent that the pack shape algebra leaves at a tiled axis of extent
    [extent] with tile size [tile]. *)
Definition tileCountOf (extent tile : Z) : Z :=
  if isDynamic extent then kDynamic
  else if isDynamic tile then kDynamic
  else ceiling extent tile.


(** The operands that the fft verifier asks for: a scalar stage, alone or
    followed by two coefficient operands that are not scalars, and two
    outputs. *)
Definition fftOperands (op : FftOp) : Prop :=
  ((exists stage, fft_getDpsInputs op = [stage] /\ isScalar stage = true)
   \/ (exists stage re im,
         fft_getDpsInputs op = [stage; re; im]
         /\ isScalar stage = true
         /\ isScalar re = false /\ isScalar im = false))
  /\ length (fft_getDpsInits op) = 2%nat.

(** An fft of length [n] on a stage and two outputs. *)
Definition fft_of_length (n : Z) : FftOp := {|
  getFftLength := n;
  fft_getDpsInputs := [Scalar (IntegerType 64)];
  fft_getDpsInits := [Shaped (tensor [n] f32); Shaped (tensor [n] f32)] |}.

(** The tiled attention on [f32] tensors of the given shapes, with an [f32]
    scale, a value that is transposed or not, and the running maximum and sum
    of the given shapes. *)
Definition attention_tiled_example (query key value output max sum : list Z)
    (transposeV : bool) : AttentionOp := {|
  attention_getDpsInputs :=
    [Shaped (tensor query f32); Shaped (tensor key f32);
     Shaped (tensor value f32); Scalar f32];
  attention_getDpsInits :=
    [Shaped (tensor output f32); Shaped (tensor max f32);
     Shaped (tensor sum f32)];
  getQueryType := tensor query f32;
  getKeyType := tensor key f32;
  getValueType := tensor value f32;
  attention_getOutputType := tensor output f32;
  getScaleType := Scalar f32;
  getMaxType := Some (tensor max f32);
  getSumType := Some (tensor sum f32);
  getTransposeV := transposeV |}.

(** ** WinogradFilterTransformOp *)

Record WinogradFilterTransformOp := {
  filter_getDpsInputs : list Ty;
  filter_getDpsInits : list Ty;
  filter_getInputType : ShapedType;
  filter_getOutputType : ShapedType;
  filter_getOutputTileSize : Z;
  filter_getKernelSize : Z;
  getKernelDimensions : list Z }.

(** Modelled from the spec: the accessors [getInputTileSize], [isHwcf] and
    [isFchw] are generated from the declaration of the operation, which is not
    among the sources: [outputTileSize = inputTileSize - kernelSize + 1], and
    the kernel axes are [0, 1] in the layout HWCF and [2, 3] in FCHW. *)
Definition filter_getInputTileSize (op : WinogradFilterTransformOp) : Z :=
  wrap64 (wrap64 (filter_getOutputTileSize op + filter_getKernelSize op) - 1).
Definition isHwcf (op : WinogradFilterTransformOp) : bool :=
  bool_decide (getKernelDimensions op = [0; 1]).
Definition isFchw (op : WinogradFilterTransformOp) : bool :=
  bool_decide (getKernelDimensions op = [2; 3]).

(** Modelled from the spec: [permute<Permutation::TTFC_TO_TTCF>] of the
    dialect's utilities, which are not among the sources: behind the two tile
    axes, the two remaining axes are exchanged. *)
Definition permute_TTFC_TO_TTCF {T} (v : list T) : list T :=
  take 2 v ++ drop 3 v ++ take 1 (drop 2 v).

Definition WinogradFilterTransformOp_verify (op : WinogradFilterTransformOp)
  : option LogicalResult :=
  reject_if (bool_decide (length (filter_getDpsInputs op) ≠ 1%nat))
    with [DStr "expected one input operand"];;
  reject_if (bool_decide (length (filter_getDpsInits op) ≠ 1%nat))
    with [DStr "expected one output operand"];;
  let inputType := filter_getInputType op in
  let outputType := filter_getOutputType op in
  reject_if (bool_decide (getElementType outputType ≠ getElementType inputType))
    with [DStr "expected input/output element types to be identical"];;
  let inputRank := getRank inputType in
  let outputRank := getRank outputType in
  reject_if (bool_decide (inputRank ≠ 2) && bool_decide (inputRank ≠ 4))
    with [DStr "expected input operand to have rank either 2 or 4"];;
  if bool_decide (inputRank = 2) then
    reject_if (bool_decide (outputRank ≠ 2))
      with [DStr "expected output operand to have rank 2 if input is of rank 2"];;
    let expectedInputShape := replicate 2 (filter_getKernelSize op) in
    reject_if (negb (verifyCompatibleShape expectedInputShape
                                           (getShape inputType)))
      with [DStr "expected input dims to be equal to kernel size if input is of rank 2"];;
    let expectedOutputShape := replicate 2 (filter_getInputTileSize op) in
    reject_if (negb (verifyCompatibleShape expectedOutputShape
                                           (getShape outputType)))
      with [DStr "expected output dims equal to input tile size if input is of rank 2"];;
    Some success
  else
  reject_if (bool_decide (outputRank ≠ inputRank))
    with [DStr "expected output rank to be equal to input rank"];;
  let kernelDims := getKernelDimensions op in
  reject_if (bool_decide (length kernelDims ≠ 2%nat))
    with [DStr "expected only 2 kernel dimensions"];;
  reject_if (negb (isHwcf op) && negb (isFchw op))
    with [DStr "expect kernel dimensions to be either [0, 1] or [2, 3]"];;
  let kernelSize := filter_getKernelSize op in
  kernelOk ←
    verifyEach (fun kernelDim =>
                  size ← getDimSize inputType kernelDim;
                  reject_if (bool_decide (size ≠ kernelSize))
                    with [DStr "expect all kernel dimensions to have the kernel size"];;
                  Some success)
               kernelDims;
  return_if_failed kernelOk;;
  let inputTileSize := filter_getInputTileSize op in
  expectedOutputShape ←
    foldM (fun expectedOutputShape '(i, _) =>
             if negb (bool_decide (Z.of_nat i ∈ kernelDims))
             then
               size ← getDimSize inputType (Z.of_nat i);
               Some (expectedOutputShape ++ [size])
             else Some expectedOutputShape)
          (replicate (length kernelDims) inputTileSize)
          (enumerate (getShape inputType));
  let expectedOutputShape :=
    if isFchw op then permute_TTFC_TO_TTCF expectedOutputShape
    else expectedOutputShape in
  reject_if (negb (verifyCompatibleShape expectedOutputShape
                                         (getShape outputType)))
    with [DStr "incompatible output shape"];;
  Some success.

(** ** WinogradOutputTransformOp *)






(** The filter transform in the layout HWCF on [f32] tensors, with kernel
    size 3 and output tile size 4, hence input tile size 6. *)
Definition winograd_filter_hwcf (input output : list Z)
  : WinogradFilterTransformOp := {|
  filter_getDpsInputs := [Shaped (tensor input f32)];
  filter_getDpsInits := [Shaped (tensor output f32)];
  filter_getInputType := tensor input f32;
  filter_getOutputType := tensor output f32;
  filter_getOutputTileSize := 4;
  filter_getKernelSize := 3;
  getKernelDimensions := [0; 1] |}.


(** * Properties *)

(** ** Arithmetic *)

Lemma ceiling_pos a b : 0 < b -> b * (ceiling a b - 1) < a <= b * ceiling a b.
Proof.
  intros Hb. unfold ceiling.
  pose proof (Z.div_mod (- a) b ltac:(lia)) as Hdm.
  pose proof (Z.mod_pos_bound (- a) b Hb). nia.
Qed.

Lemma ceiling_neg a b : b < 0 -> b * ceiling a b <= a < b * (ceiling a b - 1).
Proof.
  intros Hb. unfold ceiling.
  pose proof (Z.div_mod (- a) b ltac:(lia)) as Hdm.
  pose proof (Z.mod_neg_bound (- a) b Hb). nia.
Qed.

Lemma ceiling_unique_pos a b q :
  0 < b -> b * (q - 1) < a <= b * q -> q = ceiling a b.
Proof. intros Hb Hq. pose proof (ceiling_pos a b Hb). nia. Qed.

Lemma ceiling_unique_neg a b q :
  b < 0 -> b * q <= a < b * (q - 1) -> q = ceiling a b.
Proof. intros Hb Hq. pose proof (ceiling_neg a b Hb). nia. Qed.

Lemma wrap64_id z : in_int64 z -> wrap64 z = z.
Proof.
  unfold in_int64, int64_min, int64_max, wrap64. intros Hz.
  rewrite Z.mod_small; lia.
Qed.

Lemma wrap64_range z : in_int64 (wrap64 z).
Proof.
  unfold in_int64, int64_min, int64_max, wrap64.
  pose proof (Z.mod_pos_bound (z + 2 ^ 63) (2 ^ 64) ltac:(lia)). lia.
Qed.

Lemma isDynamic_true d : isDynamic d = true <-> d = kDynamic.
Proof. unfold isDynamic. apply bool_decide_eq_true. Qed.

Lemma isDynamic_false d : isDynamic d = false <-> d ≠ kDynamic.
Proof. unfold isDynamic. apply bool_decide_eq_false. Qed.

Lemma quot_bounds_pos a b :
  0 <= a -> 0 < b -> b * (a ÷ b) <= a < b * (a ÷ b + 1) /\ 0 <= a ÷ b <= a.
Proof.
  intros Ha Hb. rewrite Z.quot_div_nonneg by lia.
  pose proof (Z.div_mod a b ltac:(lia)). pose proof (Z.mod_pos_bound a b Hb).
  pose proof (Z.div_pos a b Ha Hb). nia.
Qed.

(** [mlir::ceilDiv] is the ceiling of the quotient on every pair of 64-bit
    integers it is defined on, the least one excepted (which overflows). *)
Lemma ceilDiv_ceiling lhs rhs :
  in_int64 lhs -> in_int64 rhs -> lhs ≠ int64_min -> rhs ≠ 0 ->
  ceilDiv lhs rhs = Some (ceiling lhs rhs).
Proof.
  intros Hl Hr Hmin Hnz. unfold ceilDiv.
  rewrite bool_decide_eq_false_2 by done. f_equal.
  unfold in_int64, int64_min, int64_max in *.
  destruct (Z.lt_trichotomy lhs 0) as [Hl0 | [-> | Hl0]];
    destruct (Z.lt_trichotomy rhs 0) as [Hr0 | [? | Hr0]]; try lia.
  - (* lhs < 0, rhs < 0: (lhs + 1) / rhs + 1 *)
    rewrite (bool_decide_eq_true_2 (lhs ≠ 0)) by lia.
    rewrite (bool_decide_eq_false_2 (lhs > 0)) by lia.
    rewrite (bool_decide_eq_false_2 (rhs > 0)) by lia. simpl.
    rewrite (wrap64_id (lhs + 1)) by (unfold in_int64, int64_min, int64_max; lia).
    replace ((lhs + 1) ÷ rhs) with ((- (lhs + 1)) ÷ (- rhs))
      by (rewrite Z.quot_opp_opp; lia).
    destruct (quot_bounds_pos (- (lhs + 1)) (- rhs)) as [Hq Hq']; [lia | lia |].
    rewrite wrap64_id by (unfold in_int64, int64_min, int64_max; lia).
    apply ceiling_unique_neg; [done | nia].
  - (* lhs < 0, rhs > 0: -(-lhs / rhs) *)
    rewrite (bool_decide_eq_true_2 (lhs ≠ 0)) by lia.
    rewrite (bool_decide_eq_false_2 (lhs > 0)) by lia.
    rewrite (bool_decide_eq_true_2 (rhs > 0)) by lia. simpl.
    rewrite (wrap64_id (- lhs)) by (unfold in_int64, int64_min, int64_max; lia).
    destruct (quot_bounds_pos (- lhs) rhs) as [Hq Hq']; [lia | lia |].
    rewrite (wrap64_id (- lhs ÷ rhs))
      by (unfold in_int64, int64_min, int64_max; lia).
    rewrite wrap64_id by (unfold in_int64, int64_min, int64_max; lia).
    apply ceiling_unique_pos; [done | nia].
  - (* lhs = 0, rhs < 0 *)
    rewrite (bool_decide_eq_false_2 (0 ≠ 0)) by lia. simpl andb. cbv iota.
    replace (wrap64 (- wrap64 (wrap64 (- 0) ÷ rhs))) with 0
      by (change (wrap64 (- 0)) with 0; rewrite Z.quot_0_l by lia; reflexivity).
    apply ceiling_unique_neg; [done | lia].
  - rewrite (bool_decide_eq_false_2 (0 ≠ 0)) by lia. simpl andb. cbv iota.
    replace (wrap64 (- wrap64 (wrap64 (- 0) ÷ rhs))) with 0
      by (change (wrap64 (- 0)) with 0; rewrite Z.quot_0_l by lia; reflexivity).
    apply ceiling_unique_pos; [done | lia].
  - (* lhs > 0, rhs < 0: -(-lhs / rhs) *)
    rewrite (bool_decide_eq_true_2 (lhs ≠ 0)) by lia.
    rewrite (bool_decide_eq_true_2 (lhs > 0)) by lia.
    rewrite (bool_decide_eq_false_2 (rhs > 0)) by lia. simpl.
    rewrite (wrap64_id (- lhs)) by (unfold in_int64, int64_min, int64_max; lia).
    replace (- lhs ÷ rhs) with (lhs ÷ (- rhs))
      by (rewrite <- Z.quot_opp_opp by lia; f_equal; lia).
    destruct (quot_bounds_pos lhs (- rhs)) as [Hq Hq']; [lia | lia |].
    rewrite (wrap64_id (lhs ÷ - rhs))
      by (unfold in_int64, int64_min, int64_max; lia).
    rewrite wrap64_id by (unfold in_int64, int64_min, int64_max; lia).
    apply ceiling_unique_neg; [done | nia].
  - (* lhs > 0, rhs > 0: (lhs - 1) / rhs + 1 *)
    rewrite (bool_decide_eq_true_2 (lhs ≠ 0)) by lia.
    rewrite (bool_decide_eq_true_2 (lhs > 0)) by lia.
    rewrite (bool_decide_eq_true_2 (rhs > 0)) by lia. simpl.
    rewrite (wrap64_id (lhs + -1))
      by (unfold in_int64, int64_min, int64_max; lia).
    destruct (quot_bounds_pos (lhs + -1) rhs) as [Hq Hq']; [lia | lia |].
    rewrite wrap64_id by (unfold in_int64, int64_min, int64_max; lia).
    apply ceiling_unique_pos; [done | nia].
Qed.

(** ** Arrays indexed by integers *)

Lemma lookupZ_of_nat {A} (l : list A) (i : nat) :
  lookupZ l (Z.of_nat i) = l !! i.
Proof.
  unfold lookupZ. rewrite bool_decide_eq_true_2 by lia. by rewrite Nat2Z.id.
Qed.

Lemma lookupZ_Some {A} (l : list A) (i : Z) (x : A) :
  lookupZ l i = Some x <-> 0 <= i /\ l !! Z.to_nat i = Some x.
Proof.
  unfold lookupZ. destruct (decide (0 <= i)).
  - rewrite bool_decide_eq_true_2 by done.
    split; [by intros ? | by intros [_ ?]].
  - rewrite bool_decide_eq_false_2 by done.
    split; [done | by intros [? _]].
Qed.

Lemma lookupZ_lt {A} (l : list A) (i : Z) (x : A) :
  lookupZ l i = Some x -> 0 <= i < Z.of_nat (length l).
Proof.
  intros [Hi Hx]%lookupZ_Some. apply lookup_lt_Some in Hx. lia.
Qed.

Lemma assignZ_of_nat {A} (l : list A) (i : nat) (x : A) :
  (i < length l)%nat -> assignZ l (Z.of_nat i) x = Some (<[i := x]> l).
Proof.
  intros Hi. unfold assignZ. rewrite bool_decide_eq_true_2 by lia.
  by rewrite Nat2Z.id.
Qed.

Lemma assignZ_Some {A} (l l' : list A) (i : Z) (x : A) :
  assignZ l i x = Some l' <->
  0 <= i < Z.of_nat (length l) /\ l' = <[Z.to_nat i := x]> l.
Proof.
  unfold assignZ. destruct (decide (0 <= i < Z.of_nat (length l))).
  - rewrite bool_decide_eq_true_2 by done.
    split; [by intros [= <-] | by intros [_ ->]].
  - rewrite bool_decide_eq_false_2 by done.
    split; [done | by intros [? _]].
Qed.

Lemma assignZ_length {A} (l l' : list A) (i : Z) (x : A) :
  assignZ l i x = Some l' -> length l' = length l.
Proof. intros [_ ->]%assignZ_Some. apply length_insert. Qed.

Lemma interchange_nil {T} (elements : list T) (offset : Z) :
  interchange elements [] offset = Some elements.
Proof. reflexivity. Qed.

(** ** The tile count of the pack shape algebra *)

(** C2: with one tiled axis, the packed shape has at that axis the dynamic
    marker if the extent or the tile size is dynamic, and otherwise the
    ceiling of the extent divided by the tile size; 10 by 3 gives 4 and 9 by
    3 gives 3. *)
Theorem pack_tile_count (sourceShape : list Z) (pos : nat) (extent tile : Z) :
  sourceShape !! pos = Some extent ->
  (isDynamic extent = true \/ isDynamic tile = true ->
   getPackOpResultTypeShape sourceShape [tile] [Z.of_nat pos] []
   = Some (<[pos := kDynamic]> sourceShape ++ [tile]))
  /\ (isDynamic extent = false -> isDynamic tile = false ->
      in_int64 extent -> in_int64 tile -> tile ≠ 0 ->
      getPackOpResultTypeShape sourceShape [tile] [Z.of_nat pos] []
      = Some (<[pos := ceiling extent tile]> sourceShape ++ [tile]))
  /\ getPackOpResultTypeShape [10] [3] [0] [] = Some [4; 3]
  /\ getPackOpResultTypeShape [9] [3] [0] [] = Some [3; 3].
Proof.
  intros Hpos. pose proof (lookup_lt_Some _ _ _ Hpos) as Hlt.
  split; [| split; [| split; reflexivity]].
  - intros Hdyn. unfold getPackOpResultTypeShape. cbn [enumerate imap foldM].
    rewrite lookupZ_of_nat, Hpos. cbn [mbind option_bind].
    destruct (isDynamic extent) eqn:He.
    + apply isDynamic_true in He. subst extent.
      cbn. by rewrite list_insert_id.
    + destruct Hdyn as [? | Ht]; [done |]. change ([tile] !! 0%nat) with (Some tile). cbn [mbind option_bind].
      rewrite Ht. cbn. by rewrite assignZ_of_nat.
  - intros He Ht Hie Hit Hnz. unfold getPackOpResultTypeShape.
    cbn [enumerate imap foldM].
    rewrite lookupZ_of_nat, Hpos. cbn [mbind option_bind].
    rewrite He. change ([tile] !! 0%nat) with (Some tile). cbn [mbind option_bind]. rewrite Ht.
    rewrite ceilDiv_ceiling; [| done | done | by apply isDynamic_false | done].
    cbn. by rewrite assignZ_of_nat.
Qed.

Lemma pack_tile_count_witness :
  getPackOpResultTypeShape [7; 10; 5] [3] [1] [] = Some [7; 4; 5; 3].
Proof.
  apply (proj1 (proj2 (pack_tile_count [7; 10; 5] 1 10 3 eq_refl)));
    first [reflexivity | unfold in_int64, int64_min, int64_max; lia].
Defined.

(** ** The verifier path and the symbolic path of the packed shape *)

Lemma agrees_dynamic ofr : agrees ofr kDynamic.
Proof. intros Hd. by apply isDynamic_false in Hd. Qed.

Lemma agrees_attr c : agrees (Attr c) c.
Proof. by intros _. Qed.

Lemma agrees_dispatchStatic ofr : agrees ofr (dispatchStatic ofr).
Proof. destruct ofr; [apply agrees_attr | apply agrees_dynamic]. Qed.

Lemma agrees_asShape ofrs :
  Forall2 agrees ofrs (asShapeWithAnyValueAsDynamic ofrs).
Proof.
  unfold asShapeWithAnyValueAsDynamic. apply Forall2_fmap_r.
  apply Forall_Forall2_diag, Forall_forall. intros. apply agrees_dispatchStatic.
Qed.

Lemma dispatchStatic_static ofr :
  isDynamic (dispatchStatic ofr) = false -> ofr = Attr (dispatchStatic ofr).
Proof. apply agrees_dispatchStatic. Qed.

Lemma Forall2_assign_l {A B} (R : A -> B -> Prop) l k i x y :
  Forall2 R l k -> k !! i = Some y -> R x y -> Forall2 R (<[i := x]> l) k.
Proof.
  intros HR Hk Hxy. rewrite <- (list_insert_id k i y Hk).
  by apply Forall2_insert.
Qed.

Lemma Forall2_lookupZ {A B} (R : A -> B -> Prop) l k i y :
  Forall2 R l k -> lookupZ k i = Some y ->
  exists x, lookupZ l i = Some x /\ R x y.
Proof.
  intros HR [Hi Hy]%lookupZ_Some.
  destruct (Forall2_lookup_r _ _ _ _ _ HR Hy) as (x & Hx & Hxy).
  exists x. split; [| done]. by apply lookupZ_Some.
Qed.

Section PackPaths.
Variable innerTileSizes : list OpFoldResult.

Local Abbreviation typeStep :=
  (fun (resultShape : list Z) '(idx, tiledDim) =>
     extent ← lookupZ resultShape tiledDim;
     if isDynamic extent then Some resultShape
     else
       tile ← asShapeWithAnyValueAsDynamic innerTileSizes !! idx;
       if isDynamic tile then assignZ resultShape tiledDim kDynamic
       else
         count ← ceilDiv extent tile;
         assignZ resultShape tiledDim count).

Local Abbreviation dimStep :=
  (fun (resultDims : list OpFoldResult) '(idx, tiledDim) =>
     dim ← lookupZ resultDims tiledDim;
     tile ← innerTileSizes !! idx;
     assignZ resultDims tiledDim (makeComposedFoldedCeilDiv dim tile)).

(** One iteration of the two tiling loops, side by side. *)
Lemma tiling_step resultDims resultShape (idx : nat) tiledDim resultShape' :
  Forall2 agrees resultDims resultShape ->
  (idx < length innerTileSizes)%nat ->
  typeStep resultShape (idx, tiledDim) = Some resultShape' ->
  exists resultDims',
    dimStep resultDims (idx, tiledDim) = Some resultDims'
    /\ Forall2 agrees resultDims' resultShape'.
Proof.
  intros Hagree Hidx Hstep. cbn beta iota in *.
  destruct (lookupZ resultShape tiledDim) as [extent |] eqn:Hext; [| done].
  destruct (Forall2_lookupZ _ _ _ _ _ Hagree Hext) as (dim & Hdim & Hde).
  destruct (lookup_lt_is_Some_2 innerTileSizes idx Hidx) as [tile Htile].
  pose proof (lookupZ_lt _ _ _ Hdim) as Hin.
  apply lookupZ_Some in Hext as [_ Hext].
  rewrite Hdim, Htile. cbn [mbind option_bind] in *.
  eexists. split.
  { apply assignZ_Some. split; [done | reflexivity]. }
  destruct (isDynamic extent) eqn:Hdyn.
  - injection Hstep as <-. eapply Forall2_assign_l; [done.. |].
    apply isDynamic_true in Hdyn. subst. apply agrees_dynamic.
  - unfold asShapeWithAnyValueAsDynamic in Hstep.
    rewrite list_lookup_fmap, Htile in Hstep. cbn in Hstep.
    destruct (isDynamic (dispatchStatic tile)) eqn:Htd.
    + apply assignZ_Some in Hstep as [_ ->].
      apply Forall2_insert; [done | apply agrees_dynamic].
    + destruct (ceilDiv extent (dispatchStatic tile)) as [count |] eqn:Hc;
        [| done].
      cbn in Hstep. apply assignZ_Some in Hstep as [_ ->].
      apply Forall2_insert; [done |].
      rewrite (Hde Hdyn), (dispatchStatic_static _ Htd).
      unfold makeComposedFoldedCeilDiv. cbn. rewrite Hc. apply agrees_attr.
Qed.

Lemma tiling_loop items : forall resultDims resultShape resultShape',
  Forall2 agrees resultDims resultShape ->
  Forall (fun it : nat * Z => (it.1 < length innerTileSizes)%nat) items ->
  foldM typeStep resultShape items = Some resultShape' ->
  exists resultDims',
    foldM dimStep resultDims items = Some resultDims'
    /\ Forall2 agrees resultDims' resultShape'.
Proof.
  induction items as [| [idx tiledDim] items IH];
    intros resultDims resultShape resultShape' Hagree Hidx Hloop.
  - injection Hloop as <-. by exists resultDims.
  - cbn [foldM] in *. apply Forall_cons_1 in Hidx as [Hidx Hrest].
    apply bind_Some in Hloop as (shape1 & Hs & Hloop).
    destruct (tiling_step resultDims resultShape idx tiledDim shape1
                Hagree Hidx Hs) as (dims1 & Hd & Hag1).
    destruct (IH dims1 shape1 resultShape' Hag1 Hrest Hloop)
      as (dims' & Hloop' & Hag').
    exists dims'. split; [| done].
    apply bind_Some. by exists dims1.
Qed.
End PackPaths.

(** [interchange] moves related entries to related entries. *)
Lemma interchange_Forall2 {A B} (R : A -> B -> Prop)
    (elementsA : list A) (elementsB : list B) perm offset vecB :
  Forall2 R elementsA elementsB ->
  interchange elementsB perm offset = Some vecB ->
  exists vecA,
    interchange elementsA perm offset = Some vecA /\ Forall2 R vecA vecB.
Proof.
  intros Helem. unfold interchange.
  generalize (enumerate perm) as items.
  generalize Helem. generalize elementsB at 1 3 as accB.
  generalize elementsA at 1 3 as accA.
  intros accA accB Hacc items. revert accA accB Hacc vecB.
  induction items as [| [idx val] items IH]; intros accA accB Hacc vecB Hloop.
  - injection Hloop as <-. by exists accA.
  - cbn [foldM] in *.
    apply bind_Some in Hloop as (accB1 & Hstep & Hloop).
    apply bind_Some in Hstep as (y & Hy & Hassign).
    destruct (Forall2_lookupZ _ _ _ _ _ Helem Hy) as (x & Hx & Hxy).
    apply assignZ_Some in Hassign as [Hin ->].
    destruct (IH (<[Z.to_nat (Z.of_nat idx + offset) := x]> accA)
                 (<[Z.to_nat (Z.of_nat idx + offset) := y]> accB)
                 ltac:(by apply Forall2_insert) vecB Hloop)
      as (vecA & HloopA & HvecA).
    exists vecA. split; [| done].
    apply bind_Some. eexists. split; [| exact HloopA].
    apply bind_Some. exists x. split; [done |].
    apply assignZ_Some. split; [| done].
    pose proof Hacc as Hl. apply Forall2_length in Hl. by rewrite Hl.
Qed.

Lemma reifies_shape dim extent :
  reifies dim extent -> dispatchStatic dim = extent.
Proof.
  destruct dim as [c | v]; cbn.
  - by intros [-> _].
  - intros Hdyn. symmetry. by apply isDynamic_true.
Qed.

(** The fix-up loop of [PackOp::getResultShape]. *)
Lemma fixup_reifies resultDims : forall (pre resultTypeShape : list Z),
  Forall2 agrees resultDims resultTypeShape ->
  exists fixed,
    mapM (fun '(i, dim) =>
            extent ← (pre ++ resultTypeShape) !! i;
            if negb (isDynamic extent) then Some dim
            else Some (Val (getValueOrCreateConstantIndexOp dim)))
         (imap (fun i => pair (length pre + i)%nat) resultDims) = Some fixed
    /\ Forall2 reifies fixed resultTypeShape.
Proof.
  induction resultDims as [| dim resultDims IH]; intros pre ts Hagree.
  - apply Forall2_nil_inv_l in Hagree as ->. by exists [].
  - apply Forall2_cons_inv_l in Hagree as (extent & ts' & Hde & Hrest & ->).
    destruct (IH (pre ++ [extent]) ts' Hrest) as (fixed & Hfixed & Hshape).
    rewrite <- app_assoc in Hfixed. cbn [app] in Hfixed.
    exists ((if negb (isDynamic extent) then dim
             else Val (getValueOrCreateConstantIndexOp dim)) :: fixed).
    split.
    + rewrite imap_cons. cbn [mapM].
      rewrite Nat.add_0_r, list_lookup_middle by done.
      cbn [mbind option_bind].
      erewrite imap_ext; [rewrite Hfixed |].
      * by destruct (isDynamic extent).
      * intros i x _. cbn. rewrite length_app. cbn. f_equal. lia.
    + apply Forall2_cons; [| done].
      destruct (isDynamic extent) eqn:Hdyn; cbn; [done |].
      by rewrite (Hde Hdyn).
Qed.

Lemma enumerate_index_lt {A} (l : list A) (n : nat) :
  (length l <= n)%nat -> Forall (fun it : nat * A => (it.1 < n)%nat) (enumerate l).
Proof.
  intros Hn. apply List.Forall_forall. intros [i x] Hin.
  unfold enumerate in Hin.
  apply list_elem_of_In, list_elem_of_lookup in Hin as [j Hj].
  rewrite list_lookup_imap in Hj.
  destruct (l !! j) eqn:Hlj; [| done]. injection Hj as <- <-.
  apply lookup_lt_Some in Hlj. cbn. lia.
Qed.

(** C1: on symbolic source dimensions and tile sizes, one tile size per inner
    position, the shape reification [PackOp::getResultShape] and the verifier
    path [getPackOpResultTypeShape] never disagree: they are defined on the
    same inputs, and at every axis of the packed shape the reified dimension
    is a [Value] exactly where the verifier's extent is dynamic and is
    otherwise the attribute of the verifier's static extent. *)
Theorem pack_reification_agrees_with_verifier
    (sourceDims innerTileSizes : list OpFoldResult)
    (innerDimsPos outerDimsPerm : list Z) :
  length innerTileSizes = length innerDimsPos ->
  match
    getPackOpResultTypeShape (asShapeWithAnyValueAsDynamic sourceDims)
      (asShapeWithAnyValueAsDynamic innerTileSizes) innerDimsPos outerDimsPerm
  with
  | Some resultTypeShape =>
      exists resultDims,
        PackOp_getResultShape sourceDims innerTileSizes innerDimsPos
                              outerDimsPerm = Some resultDims
        /\ Forall2 reifies resultDims resultTypeShape
  | None =>
      PackOp_getResultShape sourceDims innerTileSizes innerDimsPos
                            outerDimsPerm = None
  end.
Proof.
  intros Hlen. unfold PackOp_getResultShape.
  destruct (getPackOpResultTypeShape _ _ _ _) as [resultTypeShape |] eqn:Htype.
  2:{ destruct (foldM _ sourceDims _) as [dims1 |]; [| done].
      cbn [mbind option_bind]. by destruct (if bool_decide _ then _ else _). }
  unfold getPackOpResultTypeShape in Htype.
  apply bind_Some in Htype as (shape1 & Hloop & Htype).
  apply bind_Some in Htype as (shape2 & Hperm & [= <-]).
  destruct (tiling_loop innerTileSizes (enumerate innerDimsPos) sourceDims
              _ shape1 (agrees_asShape sourceDims)
              ltac:(apply enumerate_index_lt; lia) Hloop)
    as (dims1 & Hdims1 & Hag1).
  rewrite Hdims1. cbn [mbind option_bind].
  destruct (interchange_Forall2 agrees dims1 shape1 outerDimsPerm 0 shape2
              Hag1 Hperm) as (dims2 & Hdims2 & Hag2).
  assert ((if bool_decide (outerDimsPerm ≠ [])
           then interchange dims1 outerDimsPerm 0 else Some dims1)
          = Some dims2) as ->.
  { destruct (decide (outerDimsPerm = [])) as [-> | Hne].
    - rewrite bool_decide_eq_false_2 by (by intros ?).
      by rewrite interchange_nil in Hdims2.
    - by rewrite bool_decide_eq_true_2. }
  cbn [mbind option_bind].
  destruct (fixup_reifies (dims2 ++ innerTileSizes) []
              (shape2 ++ asShapeWithAnyValueAsDynamic innerTileSizes)
              ltac:(apply Forall2_app; [done | apply agrees_asShape]))
    as (fixed & Hfixed & Hshape).
  cbn [app length] in Hfixed. unfold enumerate.
  exists fixed. split; [| done].
  erewrite imap_ext; [exact Hfixed | done].
Qed.

Lemma pack_reification_agrees_with_verifier_witness :
  exists resultDims,
    PackOp_getResultShape
      [Attr 10; Val (OpaqueValue 0); Attr 20]
      [Attr 3; Val (ConstantIndexOp 4)] [0; 2] [1; 0; 2] = Some resultDims
    /\ Forall2 reifies resultDims [kDynamic; 4; kDynamic; 3; kDynamic].
Proof.
  apply (pack_reification_agrees_with_verifier
           [Attr 10; Val (OpaqueValue 0); Attr 20]
           [Attr 3; Val (ConstantIndexOp 4)] [0; 2] [1; 0; 2] eq_refl).
Defined.

(** In particular the static view of a reified shape is the shape of the
    verifier path. *)
Lemma reifies_static_view resultDims resultTypeShape :
  Forall2 reifies resultDims resultTypeShape ->
  asShapeWithAnyValueAsDynamic resultDims = resultTypeShape.
Proof.
  intros Hreifies. unfold asShapeWithAnyValueAsDynamic.
  induction Hreifies as [| dim extent dims shape Hde _ IH]; [done |].
  rewrite fmap_cons, IH. f_equal. by apply reifies_shape.
Qed.


(** ** Valid dimension index sets *)

Lemma uniqued_list_to_set (dimsPos : list Z) (acc : gset Z) :
  foldl (fun s dim => {[dim]} ∪ s) acc dimsPos = list_to_set dimsPos ∪ acc.
Proof.
  revert acc. induction dimsPos as [| d l IH]; intros acc; cbn.
  - set_solver.
  - rewrite IH. set_solver.
Qed.

Lemma size_list_to_set_le (l : list Z) :
  (size (list_to_set l : gset Z) <= length l)%nat.
Proof.
  induction l as [| d l IH]; cbn.
  - by rewrite size_empty.
  - destruct (decide (d ∈ l)) as [Hin | Hnin].
    + replace ({[d]} ∪ list_to_set l : gset Z) with (list_to_set l : gset Z)
        by set_solver. lia.
    + rewrite size_union by set_solver. rewrite size_singleton. lia.
Qed.

Lemma size_list_to_set_NoDup (l : list Z) :
  size (list_to_set l : gset Z) = length l -> NoDup l.
Proof.
  induction l as [| d l IH]; cbn; intros Hsize.
  - constructor.
  - pose proof (size_list_to_set_le l) as Hle.
    destruct (decide (d ∈ l)) as [Hin | Hnin].
    + replace ({[d]} ∪ list_to_set l : gset Z) with (list_to_set l : gset Z)
        in Hsize by set_solver. lia.
    + rewrite size_union in Hsize by set_solver.
      rewrite size_singleton in Hsize.
      constructor; [done | apply IH; lia].
Qed.

(** What [isInvalid] leaves: a dimension index set over [rank]. *)
Lemma isInvalid_false dimsPos rank :
  isInvalid dimsPos rank = false ->
  Z.of_nat (length dimsPos) <= rank
  /\ NoDup dimsPos
  /\ Forall (fun dimPos => 0 <= dimPos < rank) dimsPos.
Proof.
  unfold isInvalid. intros Hvalid.
  destruct (decide (Z.of_nat (length dimsPos) > rank)) as [Hgt | Hle].
  { by rewrite bool_decide_eq_true_2 in Hvalid. }
  rewrite bool_decide_eq_false_2 in Hvalid by done.
  rewrite uniqued_list_to_set in Hvalid.
  destruct (decide (length dimsPos ≠ size (list_to_set dimsPos ∪ ∅ : gset Z)))
    as [Hne | Heq].
  { by rewrite bool_decide_eq_true_2 in Hvalid. }
  rewrite bool_decide_eq_false_2 in Hvalid by done.
  apply dec_stable in Heq. rewrite (right_id_L ∅ (∪)) in Heq.
  split; [lia |]. split; [by apply size_list_to_set_NoDup |].
  apply List.Forall_forall. intros d Hd.
  destruct (decide (d < 0 ∨ d >= rank)) as [Hout | Hin]; [| lia].
  exfalso. apply not_true_iff_false in Hvalid. apply Hvalid.
  apply existsb_exists. exists d. split; [done |].
  by apply bool_decide_eq_true.
Qed.

(** ** The packed shape is defined on verified attributes *)

Lemma enumerate_Forall {A} (P : nat -> A -> Prop) (l : list A) :
  (forall i x, l !! i = Some x -> P i x) ->
  Forall (fun it => P it.1 it.2) (enumerate l).
Proof.
  intros HP. apply List.Forall_forall. intros [i x] Hin.
  unfold enumerate in Hin.
  apply list_elem_of_In, list_elem_of_lookup in Hin as [j Hj].
  rewrite list_lookup_imap in Hj.
  destruct (l !! j) eqn:Hlj; [| done]. injection Hj as <- <-.
  by apply HP.
Qed.

Lemma tiling_loop_defined (innerTileSizes : list Z) items :
  forall resultShape : list Z,
  Forall (fun it : nat * Z =>
            (it.1 < length innerTileSizes)%nat
            /\ 0 <= it.2 < Z.of_nat (length resultShape)) items ->
  Forall (fun tile => tile ≠ 0) innerTileSizes ->
  exists resultShape',
    foldM (fun (resultShape : list Z) '(idx, tiledDim) =>
             extent ← lookupZ resultShape tiledDim;
             if isDynamic extent then Some resultShape
             else
               tile ← innerTileSizes !! idx;
               if isDynamic tile then assignZ resultShape tiledDim kDynamic
               else
                 count ← ceilDiv extent tile;
                 assignZ resultShape tiledDim count)
          resultShape items = Some resultShape'
    /\ length resultShape' = length resultShape.
Proof.
  induction items as [| [idx tiledDim] items IH]; intros resultShape Hit Hnz.
  - by exists resultShape.
  - apply Forall_cons_1 in Hit as [[Hidx Hdim] Hit]. cbn in Hidx, Hdim.
    cbn [foldM].
    destruct (lookup_lt_is_Some_2 resultShape (Z.to_nat tiledDim)
                ltac:(lia)) as [extent Hext].
    assert (lookupZ resultShape tiledDim = Some extent) as ->
      by (apply lookupZ_Some; split; [lia | done]).
    destruct (lookup_lt_is_Some_2 innerTileSizes idx Hidx) as [tile Htile].
    cbn [mbind option_bind]. rewrite Htile. cbn [mbind option_bind].
    assert (forall x, exists s', assignZ resultShape tiledDim x = Some s'
                                 /\ length s' = length resultShape) as Hassign.
    { intros x. exists (<[Z.to_nat tiledDim := x]> resultShape).
      split; [| apply length_insert].
      apply assignZ_Some. split; [lia | done]. }
    assert (exists s1,
      (if isDynamic extent then Some resultShape
       else if isDynamic tile then assignZ resultShape tiledDim kDynamic
            else count ← ceilDiv extent tile;
                 assignZ resultShape tiledDim count) = Some s1
      /\ length s1 = length resultShape) as (s1 & -> & Hlen1).
    { destruct (isDynamic extent); [by eexists |].
      destruct (isDynamic tile); [apply Hassign |].
      unfold ceilDiv. rewrite bool_decide_eq_false_2.
      - cbn [mbind option_bind]. apply Hassign.
      - eapply (proj1 (List.Forall_forall _ _) Hnz).
        apply list_elem_of_In. by eapply list_elem_of_lookup_2. }
    cbn [mbind option_bind].
    destruct (IH s1) as (s' & Hs' & Hlen'); [| done |].
    + by rewrite Hlen1.
    + exists s'. split; [done | lia].
Qed.

Lemma interchange_loop_defined {T} (elements : list T) items :
  forall acc : list T,
  length acc = length elements ->
  Forall (fun it : nat * Z =>
            (it.1 < length elements)%nat
            /\ 0 <= it.2 < Z.of_nat (length elements)) items ->
  exists vec,
    foldM (fun vec '(idx, val) =>
             x ← lookupZ elements (val + 0);
             assignZ vec (Z.of_nat idx + 0) x) acc items = Some vec
    /\ length vec = length elements.
Proof.
  induction items as [| [idx val] items IH]; intros acc Hacc Hitems.
  - by exists acc.
  - apply Forall_cons_1 in Hitems as [[Hidx Hval] Hitems]. cbn in Hidx, Hval.
    cbn [foldM].
    destruct (lookup_lt_is_Some_2 elements (Z.to_nat val) ltac:(lia))
      as [x Hx].
    assert (lookupZ elements (val + 0) = Some x) as ->.
    { apply lookupZ_Some. rewrite Z.add_0_r. split; [lia | done]. }
    cbn [mbind option_bind].
    assert (assignZ acc (Z.of_nat idx + 0) x
            = Some (<[Z.to_nat (Z.of_nat idx + 0) := x]> acc)) as ->.
    { apply assignZ_Some. split; [lia | done]. }
    cbn [mbind option_bind]. apply IH; [| done].
    by rewrite length_insert.
Qed.

Lemma interchange_defined {T} (elements : list T) perm :
  Forall (fun val => 0 <= val < Z.of_nat (length elements)) perm ->
  (length perm <= length elements)%nat ->
  exists vec, interchange elements perm 0 = Some vec
              /\ length vec = length elements.
Proof.
  intros Hrange Hlen. unfold interchange.
  apply interchange_loop_defined; [done |].
  apply (enumerate_Forall (fun i x => (i < length elements)%nat
                           /\ 0 <= x < Z.of_nat (length elements))).
  intros i x Hx. split.
  - apply lookup_lt_Some in Hx. lia.
  - eapply (proj1 (List.Forall_forall _ _) Hrange).
    apply list_elem_of_In. by eapply list_elem_of_lookup_2.
Qed.

Lemma getPackOpResultTypeShape_defined
    (sourceShape innerTileSizes innerDimsPos outerDimsPerm : list Z) :
  Forall (fun d => 0 <= d < Z.of_nat (length sourceShape)) innerDimsPos ->
  length innerTileSizes = length innerDimsPos ->
  Forall (fun tile => tile ≠ 0) innerTileSizes ->
  Forall (fun d => 0 <= d < Z.of_nat (length sourceShape)) outerDimsPerm ->
  (length outerDimsPerm <= length sourceShape)%nat ->
  exists resultShape,
    getPackOpResultTypeShape sourceShape innerTileSizes innerDimsPos
                             outerDimsPerm = Some resultShape
    /\ length resultShape
       = (length sourceShape + length innerTileSizes)%nat.
Proof.
  intros Hpos Hlen Hnz Hperm Hpermlen. unfold getPackOpResultTypeShape.
  destruct (tiling_loop_defined innerTileSizes (enumerate innerDimsPos)
              sourceShape) as (shape1 & -> & Hlen1); [| done |].
  { apply (enumerate_Forall (fun i x => (i < length innerTileSizes)%nat
                             /\ 0 <= x < Z.of_nat (length sourceShape))).
    intros i x Hx. split.
    - apply lookup_lt_Some in Hx. lia.
    - eapply (proj1 (List.Forall_forall _ _) Hpos).
      apply list_elem_of_In. by eapply list_elem_of_lookup_2. }
  cbn [mbind option_bind].
  destruct (interchange_defined shape1 outerDimsPerm) as (shape2 & -> & Hlen2).
  { by rewrite Hlen1. }
  { by rewrite Hlen1. }
  cbn [mbind option_bind]. eexists. split; [done |].
  rewrite length_app. lia.
Qed.

(** ** The common verifier of pack and unpack *)

(** One step back through a verifier that succeeded: a [reject_if] whose
    condition must have been false, or a bind whose left side is defined. *)
Ltac verify_inv H :=
  lazymatch type of H with
  | (if ?c then emitOpError _ else _) = Some success =>
      let Hc := fresh "Hcheck" in
      destruct c eqn:Hc; [discriminate H |]
  | (?m ≫= _) = Some _ =>
      let x := fresh "x" in
      let Hx := fresh "Hdef" in
      apply bind_Some in H as (x & Hx & H)
  end.

Lemma mixTiles_dispatch staticInnerTiles : forall innerTiles mixedTiles,
  mixTiles staticInnerTiles innerTiles = Some mixedTiles ->
  dispatchIndexOpFoldResults mixedTiles = staticInnerTiles.
Proof.
  induction staticInnerTiles as [| tileSize rest IH];
    intros innerTiles mixedTiles Hmix; cbn in Hmix.
  - by injection Hmix as <-.
  - destruct (isDynamic tileSize) eqn:Hdyn; cbn in Hmix.
    + destruct innerTiles as [| v values]; [done |].
      apply fmap_Some in Hmix as (tiles & Htiles & ->).
      unfold dispatchIndexOpFoldResults in *. cbn.
      rewrite (IH _ _ Htiles). f_equal. symmetry. by apply isDynamic_true.
    + apply fmap_Some in Hmix as (tiles & Htiles & ->).
      unfold dispatchIndexOpFoldResults in *. cbn. by rewrite (IH _ _ Htiles).
Qed.

Lemma hasZeros_static mixedTiles :
  hasZeros mixedTiles = false ->
  Forall (fun tile => tile ≠ 0) (dispatchIndexOpFoldResults mixedTiles).
Proof.
  intros Hz. unfold dispatchIndexOpFoldResults.
  apply Forall_fmap, List.Forall_forall. intros tile Hin Htile. cbn in Htile.
  apply not_true_iff_false in Hz. apply Hz.
  apply existsb_exists. exists tile. split; [done |].
  apply bool_decide_eq_true. destruct tile as [c | v]; cbn in *.
  - by subst.
  - discriminate Htile.
Qed.

Lemma hasZeros_constant mixedTiles i tile c :
  hasZeros mixedTiles = false -> mixedTiles !! i = Some tile ->
  getConstantIntValue tile = Some c -> c ≠ 0.
Proof.
  intros Hz Hi Hc ->. apply not_true_iff_false in Hz. apply Hz.
  apply existsb_exists. exists tile. split.
  - apply list_elem_of_In. by eapply list_elem_of_lookup_2.
  - by apply bool_decide_eq_true.
Qed.

Section CommonVerifier.
Context {OpTy : Type} `{PackOrUnPack OpTy}.

(** What holds of an operation that the common verifier accepts. *)
Lemma commonVerifier_success (op : OpTy) :
  commonVerifierPackAndUnPackOp op = Some success ->
  exists mixedTiles,
    getMixedTiles op = Some mixedTiles
    /\ hasZeros mixedTiles = false
    /\ isInvalid (getInnerDimsPos op) (getRank (unpackedTypeOf op)) = false
    /\ isInvalid (getOuterDimsPerm op) (getRank (unpackedTypeOf op)) = false
    /\ length mixedTiles = length (getInnerDimsPos op)
    /\ getRank (unpackedTypeOf op) + Z.of_nat (length mixedTiles)
       = getRank (packedTypeOf op)
    /\ forallb tileMatchesShape
         (zip (take_back (length mixedTiles) (getShape (packedTypeOf op)))
              mixedTiles) = true.
Proof.
  unfold commonVerifierPackAndUnPackOp.
  fold (unpackedTypeOf op). fold (packedTypeOf op). intros Hv.
  verify_inv Hv. exists x. do 6 verify_inv Hv.
  do 3 verify_inv Hv. verify_inv Hv. verify_inv Hv. verify_inv Hv.
  apply bool_decide_eq_false in Hcheck2, Hcheck4. apply dec_stable in Hcheck2.
  apply dec_stable in Hcheck4.
  unfold zip_equal in Hdef3.
  destruct (bool_decide _) in Hdef3; [| done]. injection Hdef3 as <-.
  apply negb_false_iff in Hcheck6. done.
Qed.

(** The common verifier has no undefined behaviour once the mixed tiles are
    there: it accepts or rejects. *)
Lemma commonVerifier_defined (op : OpTy) mixedTiles :
  getMixedTiles op = Some mixedTiles ->
  exists result, commonVerifierPackAndUnPackOp op = Some result.
Proof.
  intros Hmixed. unfold commonVerifierPackAndUnPackOp.
  fold (unpackedTypeOf op). fold (packedTypeOf op).
  rewrite Hmixed. cbn [mbind option_bind]. unfold emitOpError.
  destruct (hasZeros mixedTiles) eqn:Hz; [by eexists |].
  destruct (isInvalid (getInnerDimsPos op) _) eqn:Hpos; [by eexists |].
  destruct (isInvalid (getOuterDimsPerm op) _) eqn:Hperm; [by eexists |].
  destruct (decide (length mixedTiles ≠ length (getInnerDimsPos op)))
    as [Hne | Hlen].
  { rewrite bool_decide_eq_true_2 by done. by eexists. }
  rewrite bool_decide_eq_false_2 by done. apply dec_stable in Hlen.
  destruct (bool_decide (Z.of_nat (length mixedTiles) > _)); [by eexists |].
  destruct (decide (getRank (unpackedTypeOf op)
                    + Z.of_nat (length mixedTiles)
                    ≠ getRank (packedTypeOf op))) as [Hne | Hrank].
  { rewrite bool_decide_eq_true_2 by done. by eexists. }
  rewrite bool_decide_eq_false_2 by done. apply dec_stable in Hrank.
  unfold getStaticTiles. rewrite Hmixed. cbn [mbind option_bind].
  apply isInvalid_false in Hpos as (_ & _ & Hpos).
  apply isInvalid_false in Hperm as (Hpermlen & _ & Hperm).
  unfold getRank in *.
  destruct (getPackOpResultTypeShape_defined
              (getShape (unpackedTypeOf op))
              (dispatchIndexOpFoldResults mixedTiles)
              (getInnerDimsPos op) (getOuterDimsPerm op))
    as (expected & Hexpected & Hexplen); [done | | | done | lia |].
  { unfold dispatchIndexOpFoldResults. by rewrite length_fmap. }
  { by apply hasZeros_static. }
  unfold PackOp_getPackedType. rewrite Hexpected. cbn [mbind option_bind].
  cbn [getShape]. unfold isSmallerThan.
  unfold dispatchIndexOpFoldResults in Hexplen. rewrite length_fmap in Hexplen.
  rewrite bool_decide_eq_true_2 by lia. cbn [mbind option_bind].
  destruct (negb _); [by eexists |].
  unfold zip_equal, take_back. rewrite bool_decide_eq_true_2.
  - cbn [mbind option_bind]. destruct (negb _); by eexists.
  - rewrite length_drop. lia.
Qed.

End CommonVerifier.

(** ** Trailing tile axes of the packed type *)

Lemma commonVerifier_trailing {OpTy : Type} `{PackOrUnPack OpTy} (op : OpTy) :
  commonVerifierPackAndUnPackOp op = Some success ->
  exists mixedTiles,
    getMixedTiles op = Some mixedTiles
    /\ trailingTileAxesChecked (getShape (packedTypeOf op))
         (length (getShape (unpackedTypeOf op))) mixedTiles.
Proof.
  intros (mixedTiles & Hmixed & _ & _ & _ & _ & Hrank & Hall)
    %commonVerifier_success.
  exists mixedTiles. split; [done |]. unfold getRank in Hrank.
  split; [lia |]. intros i shape tile Hshape Htile.
  assert (tileMatchesShape (shape, tile) = true) as Hmatch.
  { eapply (proj1 (forallb_forall _ _) Hall).
    apply list_elem_of_In, list_elem_of_lookup. exists i.
    apply lookup_zip_with_Some. exists shape, tile.
    split; [done |]. split; [| done].
    unfold take_back. rewrite lookup_drop. rewrite <- Hshape. f_equal. lia. }
  unfold tileMatchesShape in Hmatch.
  destruct (getConstantIntValue tile) as [c |]; [| done].
  destruct (isDynamic shape); [by left |].
  right. by apply bool_decide_eq_true in Hmatch.
Qed.

Lemma PackOp_verify_common (op : PackOp) :
  PackOp_verify op = Some success ->
  commonVerifierPackAndUnPackOp op = Some success.
Proof.
  unfold PackOp_verify. intros Hv.
  apply bind_Some in Hv as (common & Hcommon & Hv).
  by destruct common.
Qed.

Lemma UnPackOp_verify_common (op : UnPackOp) :
  UnPackOp_verify op = Some success ->
  commonVerifierPackAndUnPackOp op = Some success.
Proof.
  unfold UnPackOp_verify. intros Hv.
  apply bind_Some in Hv as (common & Hcommon & Hv).
  by destruct common.
Qed.

(** C4, as the code has it: in a pack or unpack operation that passes
    verification the packed type has one trailing axis per tile; an axis
    whose tile size is a constant is dynamic or equal to the constant, and an
    axis whose tile size is not a constant is dynamic.  So a static trailing
    axis equals the constant tile size. *)
Theorem verified_trailing_tile_axes :
  (forall op : PackOp,
     PackOp_verify op = Some success ->
     exists mixedTiles,
       getMixedTiles op = Some mixedTiles
       /\ trailingTileAxesChecked (getShape (pack_output op))
            (length (getShape (pack_input op))) mixedTiles)
  /\ (forall op : UnPackOp,
        UnPackOp_verify op = Some success ->
        exists mixedTiles,
          getMixedTiles op = Some mixedTiles
          /\ trailingTileAxesChecked (getShape (unpack_input op))
               (length (getShape (unpack_output op))) mixedTiles).
Proof.
  split; intros op Hv.
  - apply PackOp_verify_common in Hv.
    apply (commonVerifier_trailing op Hv).
  - apply UnPackOp_verify_common in Hv.
    apply (commonVerifier_trailing op Hv).
Qed.

Lemma verified_trailing_tile_axes_witness :
  exists mixedTiles,
    getMixedTiles unpack_dynamic_tile_axis = Some mixedTiles
    /\ trailingTileAxesChecked [2; kDynamic] 1 mixedTiles.
Proof.
  apply (proj2 verified_trailing_tile_axes unpack_dynamic_tile_axis).
  vm_compute. reflexivity.
Defined.

(** C4, as stated, fails: the unpack of [tensor<2x?xf32>] with the static
    tile size 4 passes verification although its trailing axis is dynamic
    while the tile size is a constant. *)
Lemma dynamic_trailing_axis_with_static_tile :
  UnPackOp_verify unpack_dynamic_tile_axis = Some success
  /\ getMixedTiles unpack_dynamic_tile_axis = Some [Attr 4]
  /\ ~ trailingTileAxesStrict
         (getShape (unpack_input unpack_dynamic_tile_axis))
         (length (getShape (unpack_output unpack_dynamic_tile_axis)))
         [Attr 4].
Proof.
  split; [by vm_compute |]. split; [reflexivity |].
  intros Hstrict.
  destruct (Hstrict 0%nat kDynamic (Attr 4) eq_refl eq_refl) as [_ Hdyn].
  discriminate (Hdyn eq_refl).
Qed.

(** ** The full-tile guard of pack *)

Local Abbreviation bindTile :=
  (fun (m : gmap Z OpFoldResult) '(dim, tile) => <[dim := tile]> m).

Lemma bindTile_other dimsToBlock : forall tiles (m : gmap Z OpFoldResult) d,
  d ∉ dimsToBlock ->
  foldl bindTile m (zip dimsToBlock tiles) !! d = m !! d.
Proof.
  induction dimsToBlock as [| d0 dims IH]; intros tiles m d Hd; [done |].
  destruct tiles as [| t0 tiles]; [done |]. cbn.
  apply not_elem_of_cons in Hd as [Hne Hd].
  rewrite IH by done. by rewrite lookup_insert_ne.
Qed.

Lemma bindTile_lookup dimsToBlock :
  forall tiles (m : gmap Z OpFoldResult) i d tile,
  NoDup dimsToBlock ->
  dimsToBlock !! i = Some d -> tiles !! i = Some tile ->
  foldl bindTile m (zip dimsToBlock tiles) !! d = Some tile.
Proof.
  induction dimsToBlock as [| d0 dims IH]; intros tiles m i d tile Hnd Hd Ht;
    [done |].
  destruct tiles as [| t0 tiles]; [by destruct i |].
  apply list.NoDup_cons in Hnd as [Hd0 Hnd]. cbn.
  destruct i as [| i]; cbn in Hd, Ht.
  - injection Hd as ->. injection Ht as ->.
    rewrite bindTile_other by done. apply lookup_insert_eq.
  - by eapply IH.
Qed.

Lemma bindTile_from dimsToBlock :
  forall tiles (m : gmap Z OpFoldResult) d tile,
  foldl bindTile m (zip dimsToBlock tiles) !! d = Some tile ->
  m !! d = Some tile \/ tile ∈ tiles.
Proof.
  induction dimsToBlock as [| d0 dims IH]; intros tiles m d tile Hm;
    [by left |].
  destruct tiles as [| t0 tiles]; [by left |]. cbn in Hm.
  apply IH in Hm as [Hm | Hin].
  - destruct (decide (d0 = d)) as [-> | Hne].
    + rewrite lookup_insert_eq in Hm. injection Hm as ->.
      right. apply list_elem_of_here.
    + rewrite lookup_insert_ne in Hm by done. by left.
  - right. by apply list_elem_of_further.
Qed.

Lemma areNotFullTilesFrom_true (m : gmap Z OpFoldResult) inputShape :
  forall dim (j : nat) extent tile c,
  nonzeroTiles m ->
  inputShape !! j = Some extent -> isDynamic extent = false ->
  m !! (dim + Z.of_nat j) = Some tile ->
  getConstantIntValue tile = Some c ->
  Z.rem extent c ≠ 0 ->
  areNotFullTilesFrom dim inputShape m = Some true.
Proof.
  induction inputShape as [| e0 rest IH];
    intros dim j extent tile c Hnz Hj Hstatic Htile Hc Hrem; [done |].
  assert (areNotFullTilesFrom (dim + 1) rest m = Some true
          \/ j = 0%nat) as Hrest.
  { destruct j as [| j]; [by right |]. left.
    eapply (IH (dim + 1) j); try done.
    rewrite <- Htile. f_equal. lia. }
  cbn [areNotFullTilesFrom].
  destruct Hrest as [Hrest | ->].
  - destruct (isDynamic e0); [done |].
    destruct (m !! dim) as [tile0 |] eqn:Htile0; [| done].
    destruct (getConstantIntValue tile0) as [c0 |] eqn:Hc0; [| done].
    rewrite bool_decide_eq_false_2 by (by eapply Hnz).
    by destruct (bool_decide (Z.rem e0 c0 ≠ 0)).
  - cbn in Hj. injection Hj as ->. rewrite Z.add_0_r in Htile.
    rewrite Hstatic, Htile, Hc.
    rewrite bool_decide_eq_false_2 by (by eapply Hnz).
    by rewrite bool_decide_eq_true_2.
Qed.

(** C3: a pack without padding value is rejected whenever some tiled
    dimension has a static extent that its constant tile size does not
    divide; with a padding value divisibility plays no part: the pack is
    accepted exactly when the common verifier accepts it and the padding
    value has the element type of the unpacked operand.  The pack of
    [tensor<10xf32>] by 3 is rejected without padding, whatever the declared
    output, and accepted into [tensor<4x3xf32>] with an [f32] padding
    value. *)
Theorem pack_full_tile_guard :
  (forall (op : PackOp) mixedTiles (i : nat) d extent tile constantTile,
     getPaddingValue op = None ->
     getMixedTiles op = Some mixedTiles ->
     pack_inner_dims_pos op !! i = Some d ->
     mixedTiles !! i = Some tile ->
     getConstantIntValue tile = Some constantTile ->
     lookupZ (getShape (pack_input op)) d = Some extent ->
     isDynamic extent = false ->
     ~ (constantTile | extent) ->
     exists diag, PackOp_verify op = Some (failure diag))
  /\ (forall (op : PackOp) paddingType,
        getPaddingValue op = Some paddingType ->
        PackOp_verify op = Some success
        <-> commonVerifierPackAndUnPackOp op = Some success
            /\ paddingType = Scalar (getElementType (pack_input op)))
  /\ (forall output,
        exists diag, PackOp_verify (pack_10_by_3 output None)
                     = Some (failure diag))
  /\ PackOp_verify (pack_10_by_3 (tensor [4; 3] f32) (Some (Scalar f32)))
     = Some success.
Proof.
  assert (forall (op : PackOp) mixedTiles (i : nat) d extent tile constantTile,
     getPaddingValue op = None ->
     getMixedTiles op = Some mixedTiles ->
     pack_inner_dims_pos op !! i = Some d ->
     mixedTiles !! i = Some tile ->
     getConstantIntValue tile = Some constantTile ->
     lookupZ (getShape (pack_input op)) d = Some extent ->
     isDynamic extent = false ->
     ~ (constantTile | extent) ->
     exists diag, PackOp_verify op = Some (failure diag)) as Hguard.
  { intros op mixedTiles i d extent tile c Hpad Hmixed Hd Htile Hc Hext
           Hstatic Hdiv.
    unfold PackOp_verify.
    destruct (commonVerifier_defined op mixedTiles Hmixed) as [common Hcommon].
    rewrite Hcommon. cbn [mbind option_bind].
    destruct common as [| diag]; [| by exists diag].
    destruct (commonVerifier_success op Hcommon)
      as (tiles & Htiles & Hz & Hpos & _ & Hlen & _).
    rewrite Hmixed in Htiles. injection Htiles as <-.
    apply isInvalid_false in Hpos as (_ & Hnd & _).
    unfold getDimAndTileMapping. rewrite Hmixed. cbn [mbind option_bind].
    rewrite bool_decide_eq_true_2 by done. cbn [mbind option_bind].
    rewrite Hpad. unfold areNotFullTiles.
    apply lookupZ_Some in Hext as [Hd0 Hext].
    erewrite (areNotFullTilesFrom_true _ _ 0 (Z.to_nat d) extent tile c).
    - cbn. by eexists.
    - intros d' tile' c' Hm Hc'.
      apply bindTile_from in Hm as [Hm | Hin]; [done |].
      apply list_elem_of_lookup in Hin as [k Hk].
      by eapply hasZeros_constant.
    - done.
    - done.
    - rewrite Z.add_0_l, Z2Nat.id by done.
      by eapply (bindTile_lookup (getInnerDimsPos op)).
    - done.
    - intros Hrem. apply Hdiv. apply Z.rem_divide; [| done].
      by eapply hasZeros_constant. }
  split; [exact Hguard |]. split; [| split].
  - intros op paddingType Hpad. unfold PackOp_verify.
    destruct (commonVerifierPackAndUnPackOp op) as [[| diag] |] eqn:Hcommon;
      cbn [mbind option_bind]; [| by split; [| intros [? _]]..].
    destruct (commonVerifier_success op Hcommon)
      as (tiles & Htiles & _ & _ & _ & Hlen & _).
    unfold getDimAndTileMapping. rewrite Htiles. cbn [mbind option_bind].
    rewrite bool_decide_eq_true_2 by done. cbn [mbind option_bind].
    rewrite Hpad. cbn [mbind option_bind].
    destruct (decide (paddingType = Scalar (getElementType (getInputType op))))
      as [-> | Hne].
    + by rewrite bool_decide_eq_false_2 by (by intros ?).
    + rewrite bool_decide_eq_true_2 by done. split; [done |].
      by intros [_ ?].
  - intros output.
    apply (Hguard (pack_10_by_3 output None) [Attr 3] 0%nat 0 10 (Attr 3) 3);
      try reflexivity.
    intros [k Hk]. lia.
  - by vm_compute.
Qed.

Lemma pack_full_tile_guard_witness :
  exists diag,
    PackOp_verify (pack_10_by_3 (tensor [4; 3] f32) None)
    = Some (failure diag).
Proof.
  apply (proj1 pack_full_tile_guard
           (pack_10_by_3 (tensor [4; 3] f32) None) [Attr 3] 0%nat 0 10
           (Attr 3) 3); try reflexivity.
  intros [k Hk]. lia.
Defined.

(** ** The shape contract of scatter *)

(** C5, as the code has it: the index depth is the last extent of the
    indices.  With indices [tensor<5x1xi32>], original [tensor<8x4>] and
    dimension map [0], the scatter of updates of shape [5, 4] is accepted (for
    every integer, float or complex element type, with the payload region over
    it), and the scatter of updates of shape [5, 6] is rejected, whatever the
    element type and the region, because update dimension 1 exceeds original
    dimension 1.  With indices of any other last extent, [tensor<5x2xi32>]
    among them, the dimension map [0] does not have as many entries as the
    index depth, and the scatter is rejected before its updates are looked
    at. *)
Theorem scatter_shape_contract :
  (forall t,
     Ty_isIntOrFloat (getComplexElementTypeOrSelf (Scalar t)) = true ->
     ScatterOp_verify (scatter_example 1 [5; 4] t (combiner t)) = Some success)
  /\ (forall t body,
        ScatterOp_verify (scatter_example 1 [5; 6] t body)
        = Some (failure [DStr "shape of update value dim#"; DInt 1;
                         DStr " exceeds original value at dim#"; DInt 1]))
  /\ (forall depth updateShape t body,
        depth ≠ 1 ->
        ScatterOp_verify (scatter_example depth updateShape t body)
        = Some (failure
                  (if isDynamic depth
                   then [DStr "expected index depth is static"]
                   else [DStr "invalid number of dimension map entries "]))).
Proof.
  split; [| split].
  - intros t Ht.
    lazy -[isInvalid Ty_eq_dec Ty_isIntOrFloat getComplexElementTypeOrSelf].
    replace (isInvalid [0] 2) with false by (by vm_compute).
    rewrite Ht. cbn [negb orb].
    by destruct (Ty_eq_dec (Scalar t) (Scalar t)).
  - intros t body. lazy -[isInvalid].
    by replace (isInvalid [0] 2) with false by (by vm_compute).
  - intros depth updateShape t body Hdepth. unfold ScatterOp_verify.
    cbn [scatter_example scatter_getInputs scatter_getOutputs getIndicesType
         getDimensionMap length].
    rewrite (bool_decide_eq_false_2 (2%nat ≠ 2%nat)) by (by intros ?).
    rewrite (bool_decide_eq_false_2 (1%nat ≠ 1%nat)) by (by intros ?).
    replace (getIndexDepth (scatter_example depth updateShape t body))
      with (Some depth) by reflexivity.
    cbn -[isDynamic]. unfold emitOpError.
    destruct (isDynamic depth); [done |].
    rewrite (bool_decide_eq_false_2 (getRank _ ≠ 2)) by (by intros ?).
    rewrite (bool_decide_eq_true_2 (32%N = 32%N)) by done.
    by rewrite (bool_decide_eq_true_2 (Z.of_nat 1 ≠ depth)) by lia.
Qed.

Lemma scatter_shape_contract_witness :
  ScatterOp_verify (scatter_example 1 [5; 4] f32 (combiner f32)) = Some success.
Proof. apply (proj1 scatter_shape_contract f32). reflexivity. Defined.

(** C5, as stated, fails: with indices [tensor<5x2xi32>] the index depth is 2,
    and the scatter of updates of shape [5, 4] into [tensor<8x4xf32>] with the
    dimension map [0] is rejected; the one of updates of shape [5, 6] is
    rejected for the same reason, before the extents of its updates are
    compared. *)
Lemma scatter_rejects_index_depth_2 :
  getIndexDepth (scatter_example 2 [5; 4] f32 (combiner f32)) = Some 2
  /\ ScatterOp_verify (scatter_example 2 [5; 4] f32 (combiner f32))
     = Some (failure [DStr "invalid number of dimension map entries "])
  /\ ScatterOp_verify (scatter_example 2 [5; 6] f32 (combiner f32))
     = Some (failure [DStr "invalid number of dimension map entries "]).
Proof. by vm_compute. Qed.

(** ** The operands of fft *)

(** With a static length, an accepted fft has a scalar first input and two
    outputs. *)
Lemma fft_static_length_operands (op : FftOp) :
  isDynamic (getFftLength op) = false ->
  FftOp_verify op = Some success ->
  (exists stage rest,
     fft_getDpsInputs op = stage :: rest /\ isScalar stage = true)
  /\ length (fft_getDpsInits op) = 2%nat.
Proof.
  intros Hstatic. unfold FftOp_verify. rewrite Hstatic. intros Hv.
  do 4 verify_inv Hv. split.
  - destruct (fft_getDpsInputs op) as [| stage rest]; [done |].
    exists stage, rest. split; [done |]. by apply negb_false_iff.
  - apply bool_decide_eq_false in Hcheck2. by apply dec_stable in Hcheck2.
Qed.

(** With a dynamic length, every fft is accepted. *)
Lemma fft_dynamic_length_accepted (op : FftOp) :
  isDynamic (getFftLength op) = true -> FftOp_verify op = Some success.
Proof. intros Hdyn. unfold FftOp_verify. by rewrite Hdyn. Qed.

(** C7 fails on the code: an fft with a dynamic length is accepted before its
    operands are looked at; this one has no input at all and a single
    output. *)
Theorem fft_dynamic_length_skips_operand_checks :
  FftOp_verify fft_dynamic_without_stage = Some success
  /\ fft_getDpsInputs fft_dynamic_without_stage = []
  /\ length (fft_getDpsInits fft_dynamic_without_stage) = 1%nat.
Proof. by vm_compute. Qed.

(** ** The shapes of the outputs of sort *)

Lemma verifyEach_success {A} (body : A -> option LogicalResult) (l : list A) :
  verifyEach body l = Some success ->
  forall x, x ∈ l -> body x = Some success.
Proof.
  induction l as [| y l IH]; intros Hv x Hx.
  - by apply elem_of_nil in Hx.
  - cbn [verifyEach] in Hv. apply bind_Some in Hv as (r & Hr & Hv).
    destruct r as [| d]; [| done].
    apply elem_of_cons in Hx as [-> | Hx]; [done | by apply IH].
Qed.

Lemma verifyEach_defined {A} (body : A -> option LogicalResult) (l : list A) :
  (forall x, x ∈ l -> exists r, body x = Some r) ->
  exists r, verifyEach body l = Some r.
Proof.
  induction l as [| x l IH]; intros Hbody; [by eexists |].
  cbn [verifyEach].
  destruct (Hbody x) as [r Hr]; [by left |]. rewrite Hr.
  cbn [mbind option_bind].
  destruct r as [| diag]; [| by eexists].
  apply IH. intros y Hy. apply Hbody. by right.
Qed.

Lemma enumerate_elem_of {A} (l : list A) (i : nat) (x : A) :
  (i, x) ∈ enumerate l <-> l !! i = Some x.
Proof.
  unfold enumerate. rewrite list_elem_of_lookup. split.
  - intros [j Hj]. rewrite list_lookup_imap in Hj.
    destruct (l !! j) eqn:Hlj; [| done]. by injection Hj as <- <-.
  - intros Hi. exists i. by rewrite list_lookup_imap, Hi.
Qed.

Lemma to_unsigned_id z : 0 <= z < 2 ^ 32 -> to_unsigned z = z.
Proof. intros Hz. unfold to_unsigned. by apply Z.mod_small. Qed.

Lemma to_unsigned_to_int z : to_unsigned (to_int z) = to_unsigned z.
Proof.
  unfold to_unsigned, to_int.
  rewrite Zminus_mod_idemp_l. f_equal. lia.
Qed.

Lemma argument_index (k : nat) :
  Z.of_nat k < 2 ^ 32 -> Z.to_nat (to_unsigned (to_int (Z.of_nat k))) = k.
Proof.
  intros Hk. rewrite to_unsigned_to_int, to_unsigned_id by lia.
  apply Nat2Z.id.
Qed.

Lemma argument_index_le (k : nat) :
  (Z.to_nat (to_unsigned (to_int (Z.of_nat k))) <= k)%nat.
Proof.
  rewrite to_unsigned_to_int. unfold to_unsigned.
  pose proof (Z.mod_le (Z.of_nat k) (2 ^ 32)) as Hle.
  pose proof (Z.mod_pos_bound (Z.of_nat k) (2 ^ 32)) as Hpos. lia.
Qed.

(** C8, as the code has it: the shapes of the outputs of a sort are compared
    for equality, extent by extent, the dynamic marker being equal only to
    itself.  In an accepted sort every output has the very shape of the
    first; a sort two of whose outputs differ in shape is rejected; so one
    with two outputs that differ at an axis where one extent is dynamic and
    the other static is rejected. *)
Theorem sort_outputs_same_shape :
  (forall op : SortOp,
     SortOp_verify op = Some success ->
     exists shape,
       sort_getOperandShape op = Some shape
       /\ forall index operandType,
            sort_getOutputs op !! index = Some operandType ->
            getShape operandType = shape)
  /\ (forall (op : SortOp) i j ti tj,
        sort_getOutputs op !! i = Some ti ->
        sort_getOutputs op !! j = Some tj ->
        getShape ti ≠ getShape tj ->
        exists diag, SortOp_verify op = Some (failure diag))
  /\ (forall (op : SortOp) i j ti tj (axis : nat) di dj,
        sort_getOutputs op !! i = Some ti ->
        sort_getOutputs op !! j = Some tj ->
        getShape ti !! axis = Some di ->
        getShape tj !! axis = Some dj ->
        isDynamic di = true ->
        isDynamic dj = false ->
        exists diag, SortOp_verify op = Some (failure diag)).
Proof.
  assert (forall (op : SortOp) i j ti tj,
            sort_getOutputs op !! i = Some ti ->
            sort_getOutputs op !! j = Some tj ->
            getShape ti ≠ getShape tj ->
            exists diag, SortOp_verify op = Some (failure diag)) as Hreject.
  { intros op i j ti tj Hi Hj Hne. unfold SortOp_verify, emitOpError.
    destruct (bool_decide (sort_getNumDpsInputs op ≠ 0%nat)); [by eexists |].
    destruct (bool_decide (length (sort_getOutputs op) = 0%nat));
      [by eexists |].
    destruct (bool_decide (length (getArguments _) ≠ _)) eqn:Hargs;
      [by eexists |].
    apply bool_decide_eq_false, dec_stable in Hargs.
    unfold sort_getOperandRank, sort_getOperandShape, sort_getOperandType.
    destruct (sort_getOutputs op !! 0%nat) as [first |] eqn:Hfirst.
    2:{ apply lookup_ge_None in Hfirst. apply lookup_lt_Some in Hi. lia. }
    cbn [fmap option_fmap option_map mbind option_bind].
    destruct (bool_decide (_ ∨ _)); [by eexists |].
    match goal with
    | |- context [verifyEach ?body ?l] =>
        destruct (verifyEach_defined body l) as [r Hr]
    end.
    { intros [index operandType] Hin%enumerate_elem_of.
      rewrite Hin. cbn [mbind option_bind].
      destruct (bool_decide (getRank operandType ≠ _)); [by eexists |].
      destruct (bool_decide (getShape operandType ≠ _)); [by eexists |].
      apply verifyEach_defined. intros k Hk.
      destruct (lookup_lt_is_Some_2 (getArguments (sort_block op))
                  (Z.to_nat (to_unsigned (to_int (Z.of_nat k)))))
        as [argType ->].
      { pose proof (argument_index_le k) as Hle.
        apply lookup_lt_Some in Hin.
        rewrite !elem_of_cons, elem_of_nil in Hk. lia. }
      cbn [mbind option_bind]. destruct (bool_decide _); by eexists. }
    rewrite Hr. cbn [mbind option_bind].
    destruct r as [| diag]; [| by eexists].
    exfalso. apply Hne.
    pose proof (verifyEach_success _ _ Hr (i, ti)) as Hbi.
    pose proof (verifyEach_success _ _ Hr (j, tj)) as Hbj.
    cbn beta iota in Hbi, Hbj. rewrite Hi in Hbi. rewrite Hj in Hbj.
    cbn [mbind option_bind] in Hbi, Hbj.
    specialize (Hbi ltac:(by apply enumerate_elem_of)).
    specialize (Hbj ltac:(by apply enumerate_elem_of)).
    destruct (bool_decide (getRank ti ≠ _)) in Hbi; [done |].
    destruct (bool_decide (getRank tj ≠ _)) in Hbj; [done |].
    destruct (bool_decide (getShape ti ≠ _)) eqn:Hsi in Hbi; [done |].
    destruct (bool_decide (getShape tj ≠ _)) eqn:Hsj in Hbj; [done |].
    apply bool_decide_eq_false, dec_stable in Hsi, Hsj.
    congruence. }
  split; [| split; [exact Hreject |]].
  - intros op.
    unfold SortOp_verify. intros Hv. do 4 verify_inv Hv. verify_inv Hv.
    do 2 verify_inv Hv. exists x0. split; [done |].
    destruct x1 as [| d]; [| done].
    intros index operandType Hindex.
    pose proof (verifyEach_success _ _ Hdef1 (index, operandType)) as Hbody.
    cbn beta iota in Hbody.
    unfold sort_getOperandType in Hbody. rewrite Hindex in Hbody.
    cbn [mbind option_bind] in Hbody.
    specialize (Hbody ltac:(by apply enumerate_elem_of)).
    do 2 verify_inv Hbody.
    match goal with
    | Hshape : bool_decide (getShape operandType ≠ _) = false |- _ =>
        apply bool_decide_eq_false in Hshape; by apply dec_stable in Hshape
    end.
  - intros op i j ti tj axis di dj Hi Hj Hdi Hdj Hdyn Hstatic.
    apply (Hreject op i j ti tj Hi Hj).
    intros Heq. rewrite Heq in Hdi. congruence.
Qed.

Lemma sort_outputs_same_shape_witness :
  exists shape,
    sort_getOperandShape sort_same_shapes = Some shape
    /\ forall index operandType,
         sort_getOutputs sort_same_shapes !! index = Some operandType ->
         getShape operandType = shape.
Proof.
  apply (proj1 sort_outputs_same_shape sort_same_shapes). by vm_compute.
Defined.

(** C8, as stated, fails: [tensor<?x4xf32>] and [tensor<3x4xf32>] have the
    same rank and differ only where one extent is dynamic, and the sort of the
    two is rejected. *)
Lemma sort_rejects_dynamic_against_static :
  verifyCompatibleShape [kDynamic; 4] [3; 4] = true
  /\ SortOp_verify sort_dynamic_and_static
     = Some (failure [DStr "expected operand "; DInt 1;
                      DStr " to have same shape as other operands"]).
Proof. by vm_compute. Qed.

(** ** Attention without tiling *)

Lemma checkShapeRank_success operandName shapedType rank :
  checkShapeRank operandName shapedType rank = success ->
  getRank shapedType = rank.
Proof.
  unfold checkShapeRank. intros Hc.
  destruct (decide (getRank shapedType ≠ rank)) as [Hne | Heq].
  - by rewrite bool_decide_eq_true_2 in Hc.
  - by apply dec_stable in Heq.
Qed.

(** C9: an accepted attention with a single output has equal key and query
    extents at axis 2, and the element type of its output is the one that
    query, key, value and scale share.  With query, key, value and output of
    shape [2, 8, 16], all [f32], it is accepted; with a query (and output) of
    head dimension 32 against the key's 16 it is rejected. *)
Theorem attention_vanilla_contract :
  (forall op : AttentionOp,
     length (attention_getDpsInits op) = 1%nat ->
     AttentionOp_verify op = Some success ->
     (exists head,
        getShape (getKeyType op) !! 2%nat = Some head
        /\ getShape (getQueryType op) !! 2%nat = Some head)
     /\ getElementType (attention_getOutputType op)
        = getElementType (getQueryType op)
     /\ getElementType (getKeyType op) = getElementType (getQueryType op)
     /\ getElementType (getValueType op) = getElementType (getQueryType op)
     /\ getScaleType op = Scalar (getElementType (getQueryType op)))
  /\ AttentionOp_verify
       (attention_example [2; 8; 16] [2; 8; 16] [2; 8; 16] [2; 8; 16])
     = Some success
  /\ AttentionOp_verify
       (attention_example [2; 8; 32] [2; 8; 16] [2; 8; 16] [2; 8; 32])
     = Some (failure [DStr "query and key head dimension mismatch"]).
Proof.
  split; [| split; by vm_compute].
  intros op Hone. unfold AttentionOp_verify. rewrite Hone.
  rewrite (bool_decide_eq_false_2 (1%nat = 3%nat)) by done.
  cbn [negb]. intros Hv. do 4 verify_inv Hv.
  destruct (checkShapeRank "query" _ _); [| done].
  destruct (checkShapeRank "key" _ _); [| done].
  destruct (checkShapeRank "value" _ _); [| done].
  destruct (checkShapeRank "output" _ _); [| done].
  do 5 verify_inv Hv. destruct x0 as [| d]; [clear Hv | done].
  do 4 verify_inv Hdef0.
  apply orb_false_iff in Hcheck5 as [Hqkv Hscale].
  apply orb_false_iff in Hqkv as [Hqk Hqv].
  apply bool_decide_eq_false in Hqk, Hqv, Hscale, Hcheck6, Hcheck7.
  apply dec_stable in Hqk, Hqv, Hscale, Hcheck6, Hcheck7.
  subst. split; [by eexists |]. done.
Qed.

Lemma attention_vanilla_contract_witness :
  exists head,
    [2; 8; 16] !! 2%nat = Some head /\ [2; 8; 16] !! 2%nat = Some head.
Proof.
  apply (proj1 attention_vanilla_contract
           (attention_example [2; 8; 16] [2; 8; 16] [2; 8; 16] [2; 8; 16])
           eq_refl).
  by vm_compute.
Defined.

(** ** The winograd input transform of a single tile *)

Lemma verifyCompatibleShape_length shape1 shape2 :
  verifyCompatibleShape shape1 shape2 = true -> length shape1 = length shape2.
Proof.
  unfold verifyCompatibleShape. intros [Hlen _]%andb_true_iff.
  by apply bool_decide_eq_true in Hlen.
Qed.

Lemma kDynamic_le_inputTileSize (op : WinogradInputTransformOp) :
  kDynamic <= getInputTileSize op.
Proof. unfold getInputTileSize. apply wrap64_range. Qed.

(** The rank-2 branch of the verifier, on an input of shape [d0, d1] and an
    output of rank 2. *)
Lemma winograd_single_tile_verify (op : WinogradInputTransformOp) d0 d1 :
  length (winograd_getDpsInputs op) = 1%nat ->
  length (winograd_getDpsInits op) = 1%nat ->
  getElementType (winograd_getOutputType op)
  = getElementType (winograd_getInputType op) ->
  getShape (winograd_getInputType op) = [d0; d1] ->
  length (getShape (winograd_getOutputType op)) = 2%nat ->
  WinogradInputTransformOp_verify op
  = (reject_if ((negb (isDynamic d0)
                 && bool_decide (d0 > getInputTileSize op))
                || (isDynamic d1
                    && bool_decide (d1 > getInputTileSize op)))
       with [DStr "expected input dims not greater than input tile size if input is of rank 2"];;
     reject_if (negb (verifyCompatibleShape
                        [getInputTileSize op; getInputTileSize op]
                        (getShape (winograd_getOutputType op))))
       with [DStr "expected output dims equal to inputTileSize if input is of rank 2"];;
     Some success).
Proof.
  intros Hin Hout Helem Hshape Hrank.
  unfold WinogradInputTransformOp_verify, getRank, isDynamicDim, getDimSize.
  rewrite Hin, Hout, Helem, Hshape, Hrank.
  rewrite (bool_decide_eq_false_2
             (getElementType (winograd_getInputType op)
              ≠ getElementType (winograd_getInputType op)))
    by (by intros ?).
  reflexivity.
Qed.

(** A rank-2 input is never taken past the checks that come before the bound
    on its extents without an output of rank 2. *)
Lemma winograd_single_tile_early (op : WinogradInputTransformOp) d0 d1 :
  getShape (winograd_getInputType op) = [d0; d1] ->
  (exists diag, WinogradInputTransformOp_verify op = Some (failure diag))
  \/ (length (winograd_getDpsInputs op) = 1%nat
      /\ length (winograd_getDpsInits op) = 1%nat
      /\ getElementType (winograd_getOutputType op)
         = getElementType (winograd_getInputType op)
      /\ length (getShape (winograd_getOutputType op)) = 2%nat).
Proof.
  intros Hshape.
  unfold WinogradInputTransformOp_verify, getRank, emitOpError.
  rewrite Hshape.
  destruct (decide (length (winograd_getDpsInputs op) = 1%nat)) as [Hin | Hin];
    [| rewrite bool_decide_eq_true_2 by done; left; by eexists].
  rewrite bool_decide_eq_false_2 by (by intros ?).
  destruct (decide (length (winograd_getDpsInits op) = 1%nat)) as [Hout | Hout];
    [| rewrite bool_decide_eq_true_2 by done; left; by eexists].
  rewrite bool_decide_eq_false_2 by (by intros ?).
  destruct (decide (getElementType (winograd_getOutputType op)
                    = getElementType (winograd_getInputType op)))
    as [Helem | Helem];
    [| rewrite bool_decide_eq_true_2 by done; left; by eexists].
  rewrite bool_decide_eq_false_2 by (by intros ?).
  cbn [length].
  rewrite (bool_decide_eq_false_2 (Z.of_nat 2 ≠ 2)) by (by intros ?).
  cbn [andb]. rewrite (bool_decide_eq_true_2 (Z.of_nat 2 = 2)) by done.
  destruct (decide (length (getShape (winograd_getOutputType op)) = 2%nat))
    as [Hrank | Hrank]; [by right |].
  rewrite bool_decide_eq_true_2 by lia. left. by eexists.
Qed.

(** C10: on an input of rank 2 the extents are bounded by the input tile size
    at dimension 0 only.  A static extent at dimension 0 above the input tile
    size is rejected; otherwise a well-formed operation is accepted as soon as
    its output is compatible with the square of the input tile size, whatever
    the extent at dimension 1: static and above the input tile size, or
    dynamic, whose sentinel is never above it. *)
Theorem winograd_single_tile_bound (op : WinogradInputTransformOp) d0 d1 :
  getShape (winograd_getInputType op) = [d0; d1] ->
  (isDynamic d0 = false -> d0 > getInputTileSize op ->
   exists diag, WinogradInputTransformOp_verify op = Some (failure diag))
  /\ (length (winograd_getDpsInputs op) = 1%nat ->
      length (winograd_getDpsInits op) = 1%nat ->
      getElementType (winograd_getOutputType op)
      = getElementType (winograd_getInputType op) ->
      isDynamic d0 = true \/ d0 <= getInputTileSize op ->
      verifyCompatibleShape [getInputTileSize op; getInputTileSize op]
                            (getShape (winograd_getOutputType op)) = true ->
      WinogradInputTransformOp_verify op = Some success).
Proof.
  intros Hshape. split.
  - intros Hstatic Hgt.
    destruct (winograd_single_tile_early op d0 d1 Hshape)
      as [Hearly | (Hin & Hout & Helem & Hrank)]; [done |].
    rewrite (winograd_single_tile_verify op d0 d1) by done.
    rewrite Hstatic, (bool_decide_eq_true_2 (d0 > getInputTileSize op))
      by done.
    by eexists.
  - intros Hin Hout Helem Hd0 Hcompat.
    rewrite (winograd_single_tile_verify op d0 d1); try done.
    2:{ by apply verifyCompatibleShape_length in Hcompat. }
    rewrite Hcompat.
    assert (negb (isDynamic d0) && bool_decide (d0 > getInputTileSize op)
            = false) as ->.
    { destruct Hd0 as [-> | Hle]; [done |].
      rewrite (bool_decide_eq_false_2 (d0 > getInputTileSize op)) by lia.
      apply andb_false_r. }
    assert (isDynamic d1 && bool_decide (d1 > getInputTileSize op) = false)
      as ->; [| done].
    destruct (isDynamic d1) eqn:Hd1; [| done].
    apply isDynamic_true in Hd1. subst d1.
    pose proof (kDynamic_le_inputTileSize op).
    by rewrite bool_decide_eq_false_2 by lia.
Qed.

Lemma winograd_single_tile_bound_witness :
  (exists diag,
     WinogradInputTransformOp_verify (winograd_nhwc [7; 3] [6; 6])
     = Some (failure diag))
  /\ WinogradInputTransformOp_verify (winograd_nhwc [3; 7] [6; 6])
     = Some success.
Proof.
  split.
  - apply (proj1 (winograd_single_tile_bound (winograd_nhwc [7; 3] [6; 6])
                    7 3 eq_refl));
      [reflexivity | by vm_compute].
  - apply (proj2 (winograd_single_tile_bound (winograd_nhwc [3; 7] [6; 6])
                    3 7 eq_refl));
      [reflexivity | reflexivity | reflexivity | right; by vm_compute
      | reflexivity].
Defined.

(** ** Single precision division of small integers *)

Lemma digits2_pos_bounds p :
  2 ^ (Z.pos (digits2_pos p) - 1) <= Z.pos p < 2 ^ Z.pos (digits2_pos p).
Proof.
  induction p as [p IH | p IH |]; cbn [digits2_pos].
  - rewrite Pos2Z.inj_succ.
    replace (Z.succ (Z.pos (digits2_pos p)) - 1) with (Z.pos (digits2_pos p))
      by lia.
    rewrite Z.pow_succ_r by lia.
    replace (Z.pos (digits2_pos p)) with (Z.succ (Z.pos (digits2_pos p) - 1))
      at 1 by lia.
    rewrite Z.pow_succ_r by lia. lia.
  - rewrite Pos2Z.inj_succ.
    replace (Z.succ (Z.pos (digits2_pos p)) - 1) with (Z.pos (digits2_pos p))
      by lia.
    rewrite Z.pow_succ_r by lia.
    replace (Z.pos (digits2_pos p)) with (Z.succ (Z.pos (digits2_pos p) - 1))
      at 1 by lia.
    rewrite Z.pow_succ_r by lia. lia.
  - cbn. lia.
Qed.

Lemma digits2_pos_unique p d :
  2 ^ (d - 1) <= Z.pos p < 2 ^ d -> Z.pos (digits2_pos p) = d.
Proof.
  intros Hd. pose proof (digits2_pos_bounds p) as Hp.
  destruct (Z.lt_trichotomy (Z.pos (digits2_pos p)) d) as [Hlt | [Heq | Hgt]];
    [| done |].
  - assert (2 ^ Z.pos (digits2_pos p) <= 2 ^ (d - 1))
      by (apply Z.pow_le_mono_r; lia). lia.
  - assert (0 <= d - 1 \/ d - 1 < 0) as [Hd0 | Hd0] by lia.
    + assert (2 ^ d <= 2 ^ (Z.pos (digits2_pos p) - 1))
        by (apply Z.pow_le_mono_r; lia). lia.
    + destruct (Z.lt_trichotomy d 0) as [Hneg | [-> | Hpos]]; [| | lia].
      * rewrite (Z.pow_neg_r 2 d) in Hd by done. lia.
      * cbn in Hd. lia.
Qed.

Lemma iter_xO_pow p k : Z.pos (Pos.iter xO p k) = Z.pos p * 2 ^ Z.pos k.
Proof.
  induction k as [| k IH] using Pos.peano_ind.
  - cbn. lia.
  - rewrite Pos.iter_succ, Pos2Z.inj_succ, Z.pow_succ_r by lia.
    rewrite Pos2Z.inj_xO, IH. lia.
Qed.

Abbreviation fexp32 := (fexp Float32.prec Float32.emax).

Lemma fexp32_eq e : -125 <= e -> fexp32 e = e - 24.
Proof. intros He. unfold fexp, emin, Float32.prec, Float32.emax. lia. Qed.

(** Rounding leaves a mantissa of exactly 24 bits as it is. *)
Lemma binary_round_aux_exact s m e :
  Z.pos (digits2_pos m) = 24 -> -149 <= e <= 104 ->
  binary_round_aux Float32.prec Float32.emax s (Z.pos m) e loc_Exact
  = S754_finite s m e.
Proof.
  intros Hd He. unfold binary_round_aux, shr_fexp.
  cbn [Zdigits2 shr_record_of_loc]. rewrite Hd.
  rewrite fexp32_eq by lia.
  replace (24 + e - 24 - e) with 0 by lia.
  cbn [shr shr_m loc_of_shr_record round_nearest_even Zdigits2].
  rewrite Hd, fexp32_eq by lia.
  replace (24 + e - 24 - e) with 0 by lia.
  cbn [shr shr_m].
  unfold Float32.emax, Float32.prec.
  destruct (Z.leb_spec e (128 - 24)); [done | lia].
Qed.

Lemma of_int_normal s p :
  Z.pos p <= 2 ^ 24 ->
  exists m e,
    binary_round Float32.prec Float32.emax s p 0 = S754_finite s m e
    /\ normal_of (Z.pos p) m e.
Proof.
  intros Hp. unfold binary_round.
  pose proof (digits2_pos_bounds p) as Hd.
  set (d := Z.pos (digits2_pos p)) in *.
  assert (1 <= d) as Hd1 by (unfold d; lia).
  assert (d <= 25) as Hd25.
  { destruct (Z.le_gt_cases d 25); [done |].
    assert (2 ^ 25 <= 2 ^ (d - 1)) by (apply Z.pow_le_mono_r; lia). lia. }
  rewrite Z.add_0_r. rewrite fexp32_eq by lia. unfold shl_align.
  destruct (Z.eq_dec d 25) as [Hd25' | Hne25].
  - (* p = 2^24 *)
    assert (Z.pos p = 2 ^ 24) as Hp24.
    { rewrite Hd25' in Hd. change (25 - 1) with 24 in Hd. lia. }
    assert (p = 16777216%positive) as -> by lia.
    exists 8388608%positive, 1. split; [by destruct s |].
    unfold normal_of. split; [done |]. split; [lia | done].
  - destruct (Z.eq_dec d 24) as [Hd24 | Hne24].
    + rewrite Hd24. cbn [Z.sub Z.add Z.opp Z.pos_sub].
      change (24 - 24 - 0) with 0. cbn iota.
      exists p, 0. split.
      * apply binary_round_aux_exact; [done | lia].
      * unfold normal_of. split; [done |]. split; [lia |]. cbn. lia.
    + assert (d - 24 - 0 = Z.neg (Z.to_pos (24 - d))) as ->.
      { rewrite <- Pos2Z.opp_pos, Z2Pos.id by lia. lia. }
      cbn iota.
      assert (Z.pos (Pos.iter xO p (Z.to_pos (24 - d)))
              = Z.pos p * 2 ^ (24 - d)) as Hm.
      { rewrite iter_xO_pow, Z2Pos.id by lia. done. }
      exists (Pos.iter xO p (Z.to_pos (24 - d))), (d - 24). split.
      * apply binary_round_aux_exact; [| lia].
        apply digits2_pos_unique. rewrite Hm.
        replace (2 ^ (24 - 1)) with (2 ^ (d - 1) * 2 ^ (24 - d))
          by (rewrite <- Z.pow_add_r by lia; f_equal; lia).
        replace (2 ^ 24) with (2 ^ d * 2 ^ (24 - d))
          by (rewrite <- Z.pow_add_r by lia; f_equal; lia).
        assert (0 < 2 ^ (24 - d)) by (apply Z.pow_pos_nonneg; lia). nia.
      * unfold normal_of. split.
        { apply digits2_pos_unique. rewrite Hm.
          replace (2 ^ (24 - 1)) with (2 ^ (d - 1) * 2 ^ (24 - d))
            by (rewrite <- Z.pow_add_r by lia; f_equal; lia).
          replace (2 ^ 24) with (2 ^ d * 2 ^ (24 - d))
            by (rewrite <- Z.pow_add_r by lia; f_equal; lia).
          assert (0 < 2 ^ (24 - d)) by (apply Z.pow_pos_nonneg; lia). nia. }
        split; [lia |]. rewrite Hm.
        replace (2 ^ 23) with (2 ^ (24 - d) * 2 ^ (d - 24 + 23)); [lia |].
        rewrite <- Z.pow_add_r by lia. f_equal. lia.
Qed.

Lemma loc_of_shr_record_of_loc m l :
  loc_of_shr_record (shr_record_of_loc m l) = l.
Proof. by destruct l as [| []]. Qed.

Lemma shr_m_record_of_loc m l : shr_m (shr_record_of_loc m l) = m.
Proof. by destruct l as [| []]. Qed.

Lemma shr_1_record_of_loc p l :
  shr_1 (shr_record_of_loc (Z.pos p) l)
  = {| shr_m := Z.pos p / 2; shr_r := Z.odd (Z.pos p); shr_s := inexact l |}.
Proof.
  assert (forall r s,
    shr_1 {| shr_m := Z.pos p; shr_r := r; shr_s := s |}
    = {| shr_m := Z.pos p / 2; shr_r := Z.odd (Z.pos p); shr_s := r || s |})
    as Hshr.
  { intros r s. destruct p as [p | p |]; cbn [shr_1].
    - f_equal. rewrite Pos2Z.inj_xI.
      rewrite (Z.mul_comm 2), Z.div_add_l by lia. by rewrite Z.add_0_r.
    - f_equal. rewrite Pos2Z.inj_xO.
      by rewrite (Z.mul_comm 2), Z.div_mul by lia.
    - done. }
  destruct l as [| []]; cbn [shr_record_of_loc]; by rewrite Hshr.
Qed.

Lemma round_nearest_even_range q l :
  q <= round_nearest_even q l <= q + 1.
Proof. destruct l as [| []]; cbn; try lia. destruct (Z.even q); lia. Qed.

(** Rounding the last step of a mantissa [m] between [2^23] and [2^24]
    included, at exponent [e]. *)
Lemma round_carry s m e :
  2 ^ 23 <= m <= 2 ^ 24 -> -149 <= e <= 102 ->
  exists m' e',
    (let '(mrs, e'') :=
       shr_fexp Float32.prec Float32.emax m e loc_Exact in
     match shr_m mrs with
     | Z0 => S754_zero s
     | Zpos m0 =>
         if Z.leb e'' (Float32.emax - Float32.prec)
         then S754_finite s m0 e'' else S754_infinity s
     | Zneg _ => S754_nan
     end) = S754_finite s m' e'
    /\ Z.pos (digits2_pos m') = 24
    /\ e <= e' <= e + 1
    /\ Z.pos m' * 2 ^ (e' - e) = m.
Proof.
  intros Hm He. destruct m as [| mp |]; [lia | | lia].
  unfold shr_fexp. cbn [Zdigits2 shr_record_of_loc].
  destruct (Z.eq_dec (Z.pos mp) (2 ^ 24)) as [H24 | Hlt].
  - assert (mp = 16777216%positive) as -> by lia.
    change (Z.pos (digits2_pos 16777216)) with 25.
    rewrite fexp32_eq by lia. replace (25 + e - 24 - e) with 1 by lia.
    cbn [shr iter_pos shr_1 shr_m].
    exists 8388608%positive, (e + 1).
    unfold Float32.emax, Float32.prec.
    destruct (Z.leb_spec (e + 1) (128 - 24)); [| lia].
    split; [done |]. split; [done |]. split; [lia |].
    replace (e + 1 - e) with 1 by lia. done.
  - assert (Z.pos (digits2_pos mp) = 24) as Hd
      by (apply digits2_pos_unique; lia).
    rewrite Hd, fexp32_eq by lia. replace (24 + e - 24 - e) with 0 by lia.
    cbn [shr shr_m]. exists mp, e.
    unfold Float32.emax, Float32.prec.
    destruct (Z.leb_spec e (128 - 24)); [| lia].
    split; [done |]. split; [done |]. split; [lia |].
    rewrite Z.sub_diag. lia.
Qed.

(** Rounding a mantissa of 24 or 25 bits: the result is a float with a
    mantissa of 24 bits whose value is [roundedUnits q l * 2^e]. *)
Lemma binary_round_aux_units s q e l :
  2 ^ 23 <= q < 2 ^ 25 -> -149 <= e <= 100 ->
  exists m' e',
    binary_round_aux Float32.prec Float32.emax s q e l = S754_finite s m' e'
    /\ Z.pos (digits2_pos m') = 24
    /\ e <= e' <= e + 2
    /\ Z.pos m' * 2 ^ (e' - e) = roundedUnits q l.
Proof.
  intros Hq He. destruct q as [| qp |]; [lia | | lia].
  unfold binary_round_aux, roundedUnits.
  destruct (decide (Z.pos qp < 2 ^ 24)) as [Hlt | Hge].
  - rewrite bool_decide_eq_true_2 by done.
    assert (Z.pos (digits2_pos qp) = 24) as Hd
      by (apply digits2_pos_unique; lia).
    unfold shr_fexp at 1. cbn [Zdigits2]. rewrite Hd, fexp32_eq by lia.
    replace (24 + e - 24 - e) with 0 by lia. cbn [shr].
    rewrite loc_of_shr_record_of_loc, shr_m_record_of_loc.
    pose proof (round_nearest_even_range (Z.pos qp) l) as Hr.
    destruct (round_carry s (round_nearest_even (Z.pos qp) l) e)
      as (m' & e' & Hres & Hd' & He' & Hval); [lia | lia |].
    exists m', e'. split; [exact Hres |]. split; [done |].
    split; [lia | done].
  - rewrite bool_decide_eq_false_2 by done.
    assert (Z.pos (digits2_pos qp) = 25) as Hd
      by (apply digits2_pos_unique; lia).
    unfold shr_fexp at 1. cbn [Zdigits2]. rewrite Hd, fexp32_eq by lia.
    replace (25 + e - 24 - e) with 1 by lia. cbn [shr iter_pos].
    rewrite shr_1_record_of_loc. cbn [shr_m].
    set (l1 := loc_of_shr_record _).
    pose proof (round_nearest_even_range (Z.pos qp / 2) l1) as Hr.
    assert (2 ^ 23 <= Z.pos qp / 2 < 2 ^ 24) as Hh.
    { split.
      - apply Z.div_le_lower_bound; lia.
      - apply Z.div_lt_upper_bound; lia. }
    destruct (round_carry s (round_nearest_even (Z.pos qp / 2) l1) (e + 1))
      as (m' & e' & Hres & Hd' & He' & Hval); [lia | lia |].
    exists m', e'. split; [exact Hres |]. split; [done |].
    split; [lia |]. rewrite <- Hval.
    replace (e' - e) with (Z.succ (e' - (e + 1))) by lia.
    rewrite Z.pow_succ_r by lia. lia.
Qed.

Lemma new_location_spec my r :
  0 < my -> 0 <= r < my ->
  new_location my r
  = if bool_decide (r = 0) then loc_Exact else loc_Inexact (2 * r ?= my).
Proof.
  intros Hmy Hr. unfold new_location, new_location_even, new_location_odd.
  change (IntDef.Z.even my) with (Z.even my).
  destruct (Z.even my) eqn:Heven; cbn beta;
    destruct (Z.eqb_spec r 0) as [Hr0 | Hr0].
  - by rewrite bool_decide_eq_true_2.
  - by rewrite bool_decide_eq_false_2.
  - by rewrite bool_decide_eq_true_2.
  - rewrite bool_decide_eq_false_2 by done. f_equal.
    assert (Z.odd my = true) as Hodd by (by rewrite <- Z.negb_even, Heven).
    apply Z.odd_spec in Hodd as [j Hj].
    destruct (Z.compare_spec (2 * r + 1) my) as [Heq | Hlt | Hgt];
      destruct (Z.compare_spec (2 * r) my) as [Heq' | Hlt' | Hgt'];
      try done; lia.
Qed.

Lemma euclid_position my q r K :
  0 <= r < my ->
  (my * q + r = K * my -> r = 0 /\ q = K)
  /\ (my * q + r < K * my -> q < K)
  /\ (K * my < my * q + r -> K <= q).
Proof.
  intros Hr.
  destruct (Z.lt_trichotomy K q) as [Hlt | [-> | Hgt]].
  - assert (K + 1 <= q) as H1 by lia.
    assert (my * (K + 1) <= my * q) as H2 by (apply Z.mul_le_mono_nonneg_l; lia).
    repeat split; intros; lia.
  - repeat split; intros; lia.
  - assert (q + 1 <= K) as H1 by lia.
    assert (my * (q + 1) <= my * K) as H2 by (apply Z.mul_le_mono_nonneg_l; lia).
    repeat split; intros; lia.
Qed.

(** The rounded quotient of two 24-bit mantissas lies on the same side of
    every integer as the exact quotient [p / t] of the two small integers
    that the mantissas stand for; [G] is the number of units in 1. *)
Lemma roundedUnits_compare mx my G p t k :
  2 ^ 23 <= mx < 2 ^ 24 -> 2 ^ 23 <= my < 2 ^ 24 ->
  0 < G -> 0 < t ->
  p * G * my = t * (mx * 2 ^ 24) ->
  t < 2 * G ->
  t < G \/ mx = 2 ^ 23 ->
  Z.even G = true \/ (mx = 2 ^ 23 /\ my = 2 ^ 23) ->
  (roundedUnits (mx * 2 ^ 24 / my) (new_location my (mx * 2 ^ 24 mod my))
     ?= G * k)
  = (p ?= t * k).
Proof.
  intros Hmx Hmy HG Ht Hval HtG HtG' Heven.
  set (N := mx * 2 ^ 24) in *.
  pose proof (Z.div_mod N my ltac:(lia)) as Hdm.
  pose proof (Z.mod_pos_bound N my ltac:(lia)) as Hr.
  set (q := N / my) in *. set (r := N mod my) in *.
  set (K := G * k).
  (* The comparison of [p] with [t * k] is that of [N] with [K * my]. *)
  assert ((p ?= t * k) = (N ?= K * my)) as ->.
  { rewrite (Zmult_compare_compat_r p (t * k) (G * my)) by nia.
    rewrite (Zmult_compare_compat_l N (K * my) t) by lia.
    f_equal; unfold K; lia. }
  assert (forall x y, (x < y <-> t * x < t * y)) as Hmono
    by (intros x y; apply Z.mul_lt_mono_pos_l; lia).
  (* The gap between [N] and a multiple of [G * my]. *)
  assert (K * my < N -> G * my <= t * (N - K * my)) as Hgap1.
  { intros Hlt. apply Hmono in Hlt.
    assert (t * k < p).
    { apply (Z.mul_lt_mono_pos_r (G * my)); [nia |].
      replace (t * k * (G * my)) with (t * (K * my)) by (unfold K; ring).
      replace (p * (G * my)) with (t * N) by lia. exact Hlt. }
    assert (1 <= p - t * k) as H1 by lia.
    replace (t * (N - K * my)) with ((p - t * k) * (G * my))
      by (unfold K; nia).
    nia. }
  assert (N < K * my -> G * my <= t * (K * my - N)) as Hgap2.
  { intros Hlt. apply Hmono in Hlt.
    assert (p < t * k).
    { apply (Z.mul_lt_mono_pos_r (G * my)); [nia |].
      replace (t * k * (G * my)) with (t * (K * my)) by (unfold K; ring).
      replace (p * (G * my)) with (t * N) by lia. exact Hlt. }
    assert (1 <= t * k - p) as H1 by lia.
    replace (t * (K * my - N)) with ((t * k - p) * (G * my))
      by (unfold K; nia).
    nia. }
  destruct (euclid_position my q r K Hr) as (Hpos0 & Hpos1 & Hpos2).
  rewrite <- Hdm in Hpos0, Hpos1, Hpos2.
  rewrite new_location_spec by lia.
  unfold roundedUnits.
  destruct (decide (q < 2 ^ 24)) as [Hq | Hq].
  - (* a quotient of 24 bits *)
    rewrite bool_decide_eq_true_2 by done.
    destruct (Z.compare_spec N (K * my)) as [Heq | Hlt | Hgt].
    + destruct (Hpos0 Heq) as [Hr0 HqK].
      rewrite bool_decide_eq_true_2 by done. cbn. by apply Z.compare_eq_iff.
    + pose proof (Hpos1 Hlt) as HqK.
      destruct (decide (K = q + 1)) as [HK | HK].
      * specialize (Hgap2 Hlt).
        assert (2 * r < my) as Hlow by nia.
        apply Z.compare_lt_iff.
        destruct (decide (r = 0)).
        -- rewrite bool_decide_eq_true_2 by done. cbn. lia.
        -- rewrite bool_decide_eq_false_2 by done.
           apply Z.compare_lt_iff in Hlow. rewrite Hlow. cbn. lia.
      * apply Z.compare_lt_iff.
        pose proof (round_nearest_even_range q
                      (if bool_decide (r = 0) then loc_Exact
                       else loc_Inexact (2 * r ?= my))). lia.
    + pose proof (Hpos2 Hgt) as HqK.
      destruct (decide (K = q)) as [HK | HK].
      * specialize (Hgap1 Hgt).
        assert (my < 2 * r) as Hhigh by nia.
        apply Z.compare_gt_iff.
        rewrite bool_decide_eq_false_2 by lia.
        apply Z.compare_gt_iff in Hhigh. rewrite Hhigh. cbn. lia.
      * apply Z.compare_gt_iff.
        pose proof (round_nearest_even_range q
                      (if bool_decide (r = 0) then loc_Exact
                       else loc_Inexact (2 * r ?= my))). lia.
  - (* a quotient of 25 bits *)
    rewrite bool_decide_eq_false_2 by done.
    pose proof (Z.div_mod q 2 ltac:(lia)) as Hq2.
    pose proof (Z.mod_pos_bound q 2 ltac:(lia)) as Hb.
    set (h := q / 2) in *.
    assert (Z.odd q = bool_decide (q mod 2 = 1)) as Hodd.
    { rewrite Zodd_mod. destruct (Z.eqb_spec (q mod 2) 1).
      - by rewrite bool_decide_eq_true_2.
      - by rewrite bool_decide_eq_false_2. }
    rewrite Hodd.
    assert (inexact (if bool_decide (r = 0) then loc_Exact
                     else loc_Inexact (2 * r ?= my))
            = negb (bool_decide (r = 0))) as ->
      by (by destruct (bool_decide (r = 0))).
    pose proof (round_nearest_even_range h
                  (loc_of_shr_record
                     {| shr_m := h; shr_r := bool_decide (q mod 2 = 1);
                        shr_s := negb (bool_decide (r = 0)) |})) as Hround.
    destruct (decide (t < G)) as [HtltG | Hnot].
    2:{ (* the dividend is [2^24]: the quotient is exact *)
        destruct HtG' as [? | Hmx23]; [lia |].
        assert (my = 2 ^ 23) as Hmy23 by (unfold N in *; nia).
        assert (q = 2 ^ 24 /\ r = 0) as [Hq24 Hr0].
        { unfold q, r, N. rewrite Hmx23, Hmy23.
          split; [by vm_compute | by vm_compute]. }
        assert (h = 2 ^ 23 /\ q mod 2 = 0) as [Hh Hb0].
        { unfold h. rewrite Hq24. split; by vm_compute. }
        rewrite Hb0, Hh, Hr0.
        rewrite (bool_decide_eq_false_2 (0 = 1)) by done.
        rewrite (bool_decide_eq_true_2 (0 = 0)) by done.
        cbn [negb loc_of_shr_record round_nearest_even].
        change (2 * 2 ^ 23) with (2 ^ 24).
        assert (N = 2 ^ 24 * my) as HN by (rewrite <- Hq24; lia).
        rewrite HN. apply Zmult_compare_compat_r. lia. }
    destruct (Z.compare_spec N (K * my)) as [Heq | Hlt | Hgt].
    + destruct (Hpos0 Heq) as [Hr0 HqK].
      assert (q mod 2 = 0) as Hb0.
      { destruct Heven as [HevenG | [Hmx23 Hmy23]].
        - apply Z.even_spec in HevenG as [g Hg].
          rewrite HqK. unfold K. rewrite Hg.
          replace (2 * g * k) with (g * k * 2) by lia.
          apply Z.mod_mul. lia.
        - unfold q, N. rewrite Hmx23, Hmy23. by vm_compute. }
      rewrite Hb0, Hr0.
      rewrite (bool_decide_eq_false_2 (0 = 1)) by done.
      rewrite (bool_decide_eq_true_2 (0 = 0)) by done.
      cbn [negb loc_of_shr_record round_nearest_even].
      apply Z.compare_eq_iff. lia.
    + specialize (Hgap2 Hlt).
      assert (q + 2 <= K) as HqK by nia.
      apply Z.compare_lt_iff.
      destruct (decide (K = 2 * h + 2)) as [HK | HK]; [| lia].
      assert (q mod 2 = 0) as Hb0 by lia.
      rewrite Hb0. rewrite (bool_decide_eq_false_2 (0 = 1)) by done.
      destruct (bool_decide (r = 0));
        cbn [negb loc_of_shr_record round_nearest_even]; lia.
    + specialize (Hgap1 Hgt).
      assert (K <= q - 1) as HqK by nia.
      apply Z.compare_gt_iff.
      destruct (decide (K = 2 * h)) as [HK | HK]; [| lia].
      assert (q mod 2 = 1) as Hb1 by lia.
      assert (r ≠ 0) as Hrne by nia.
      rewrite Hb1. rewrite (bool_decide_eq_false_2 (r = 0)) by done.
      rewrite (bool_decide_eq_true_2 (1 = 1)) by done.
      cbn [negb loc_of_shr_record round_nearest_even]. lia.
Qed.

Lemma ceiling_of_compare V G p t :
  0 < G -> 0 < t ->
  (forall k, (V ?= G * k) = (p ?= t * k)) ->
  ceiling V G = ceiling p t /\ ceiling (- V) G = ceiling (- p) t.
Proof.
  intros HG Ht Hcmp.
  assert (forall k, (V < G * k <-> p < t * k) /\ (G * k < V <-> t * k < p))
    as Hside.
  { intros k. specialize (Hcmp k).
    destruct (Z.compare_spec V (G * k)); destruct (Z.compare_spec p (t * k));
      try done; lia. }
  split.
  - symmetry. apply ceiling_unique_pos; [done |].
    pose proof (ceiling_pos p t Ht) as [Hlo Hhi].
    destruct (Hside (ceiling p t - 1)) as [_ Hc1].
    destruct (Hside (ceiling p t)) as [_ Hc2]. lia.
  - symmetry. apply ceiling_unique_pos; [done |].
    pose proof (ceiling_pos (- p) t Ht) as [Hlo Hhi].
    destruct (Hside (1 - ceiling (- p) t)) as [Hc1 _].
    destruct (Hside (- ceiling (- p) t)) as [Hc2 _]. lia.
Qed.

Lemma ceiling_mul_cancel a b c : 0 < b -> 0 < c ->
  ceiling (a * c) (b * c) = ceiling a b.
Proof.
  intros Hb Hc. unfold ceiling. f_equal.
  replace (- (a * c)) with (- a * c) by lia.
  apply Z.div_mul_cancel_r; lia.
Qed.

Lemma ceiling_one a : ceiling a 1 = a.
Proof. unfold ceiling. rewrite Z.div_1_r. lia. Qed.

(** [ceil_finite] in units of [2^e], for an exponent [e <= 0] below the
    exponent [e'] of the float. *)
Lemma ceil_finite_units (s : bool) m e' e :
  e <= e' -> e <= 0 ->
  Float32.ceil_finite s m e'
  = ceiling ((if s then -1 else 1) * (Z.pos m * 2 ^ (e' - e))) (2 ^ (- e)).
Proof.
  intros Hle He. unfold Float32.ceil_finite.
  set (v := if s then Z.neg m else Z.pos m).
  assert ((if s then -1 else 1) * (Z.pos m * 2 ^ (e' - e))
          = v * 2 ^ (e' - e)) as ->.
  { unfold v. destruct s; lia. }
  destruct (decide (0 <= e')) as [Hpos | Hneg].
  - rewrite bool_decide_eq_true_2 by done.
    replace (e' - e) with (e' + - e) by lia.
    rewrite Z.pow_add_r by lia.
    replace (v * (2 ^ e' * 2 ^ (- e))) with (v * 2 ^ e' * 2 ^ (- e)) by lia.
    rewrite <- (Z.mul_1_l (2 ^ (- e))) at 2.
    rewrite ceiling_mul_cancel by (try apply Z.pow_pos_nonneg; lia).
    by rewrite ceiling_one.
  - rewrite bool_decide_eq_false_2 by done.
    replace (2 ^ (- e)) with (2 ^ (- e') * 2 ^ (e' - e))
      by (rewrite <- Z.pow_add_r by lia; f_equal; lia).
    rewrite ceiling_mul_cancel by (apply Z.pow_pos_nonneg; lia).
    reflexivity.
Qed.

Lemma to_int64_normal (s : bool) p m e :
  Z.pos p <= 2 ^ 24 -> normal_of (Z.pos p) m e ->
  Float32.to_int64 (S754_finite s m e)
  = Some (if s then Z.neg p else Z.pos p).
Proof.
  intros Hp (Hd & He & Hval). unfold Float32.to_int64.
  set (v := if s then Z.neg m else Z.pos m).
  assert ((if bool_decide (0 <= e) then v * 2 ^ e else v ÷ 2 ^ (- e))
          = (if s then Z.neg p else Z.pos p)) as ->.
  { destruct (decide (0 <= e)) as [Hpos | Hneg].
    - rewrite bool_decide_eq_true_2 by done.
      rewrite Z.pow_add_r in Hval by lia.
      assert (Z.pos p = Z.pos m * 2 ^ e) as Hpm by lia.
      unfold v. destruct s; lia.
    - rewrite bool_decide_eq_false_2 by done.
      assert (Z.pos m = Z.pos p * 2 ^ (- e)) as Hmp.
      { replace (2 ^ 23) with (2 ^ (- e) * 2 ^ (e + 23)) in Hval
          by (rewrite <- Z.pow_add_r by lia; f_equal; lia).
        assert (0 < 2 ^ (e + 23)) by (apply Z.pow_pos_nonneg; lia). nia. }
      assert (0 < 2 ^ (- e)) as Hpow by (apply Z.pow_pos_nonneg; lia).
      unfold v. destruct s.
      + rewrite <- Pos2Z.opp_pos, Z.quot_opp_l by lia.
        rewrite Hmp, Z.quot_mul by lia. lia.
      + rewrite Hmp, Z.quot_mul by lia. done. }
  rewrite bool_decide_eq_true_2; [done |].
  unfold int64_min, int64_max. destruct s; lia.
Qed.

(** The conversion of a small integer to single precision and back. *)
Lemma to_int64_normalize z s :
  - 2 ^ 24 <= z <= 2 ^ 24 ->
  Float32.to_int64
    (binary_normalize Float32.prec Float32.emax z 0 s) = Some z.
Proof.
  intros Hz. destruct z as [| p | p]; cbn [binary_normalize].
  - done.
  - destruct (of_int_normal false p ltac:(lia)) as (m & e & -> & Hn).
    apply (to_int64_normal false p); [lia | done].
  - destruct (of_int_normal true p ltac:(lia)) as (m & e & -> & Hn).
    apply (to_int64_normal true p); [lia | done].
Qed.

Lemma ceiling_small n t :
  - 2 ^ 24 <= n <= 2 ^ 24 -> 1 <= t ->
  - 2 ^ 24 <= ceiling n t <= 2 ^ 24.
Proof.
  intros Hn Ht. pose proof (ceiling_pos n t ltac:(lia)) as [Hlo Hhi]. nia.
Qed.

(** The quotient of the floats of two small integers, rounded up to an
    integer, is the ceiling of the quotient of the integers. *)
Lemma float32_ceil_div (s : bool) p t mx ex my ey :
  Z.pos p <= 2 ^ 24 -> Z.pos t <= 2 ^ 24 ->
  normal_of (Z.pos p) mx ex -> normal_of (Z.pos t) my ey ->
  Float32.to_int64
    (Float32.ceil
       (Float32.div (S754_finite s mx ex) (S754_finite false my ey)))
  = Some (ceiling (if s then Z.neg p else Z.pos p) (Z.pos t)).
Proof.
  intros Hp Ht (Hdx & Hex & Hvx) (Hdy & Hey & Hvy).
  pose proof (digits2_pos_bounds mx) as Hmx. rewrite Hdx in Hmx.
  pose proof (digits2_pos_bounds my) as Hmy. rewrite Hdy in Hmy.
  change (24 - 1) with 23 in Hmx, Hmy.
  unfold Float32.div, SFdiv, SFdiv_core_binary.
  cbn [Zdigits2]. rewrite Hdx, Hdy.
  replace (24 + ex - (24 + ey)) with (ex - ey) by lia.
  rewrite fexp32_eq by lia.
  rewrite (Z.min_l (ex - ey - 24) (ex - ey)) by lia.
  replace (ex - ey - (ex - ey - 24)) with 24 by lia.
  cbn iota. rewrite Z.shiftl_mul_pow2 by lia.
  set (N := Z.pos mx * 2 ^ 24).
  assert (Z.div_eucl N (Z.pos my) = (N / Z.pos my, N mod Z.pos my)) as ->.
  { unfold Z.div, Z.modulo. by destruct (Z.div_eucl N (Z.pos my)). }
  set (e' := ex - ey - 24).
  assert (2 ^ 23 <= N / Z.pos my < 2 ^ 25) as Hq.
  { unfold N. split.
    - apply Z.div_le_lower_bound; lia.
    - apply Z.div_lt_upper_bound; lia. }
  rewrite xorb_false_r.
  destruct (binary_round_aux_units s (N / Z.pos my) e'
              (new_location (Z.pos my) (N mod Z.pos my)))
    as (m' & e'' & -> & Hd' & He'' & Hunits); [done | unfold e'; lia |].
  unfold Float32.ceil.
  rewrite (ceil_finite_units s m' e'' e') by (unfold e'; lia).
  rewrite Hunits.
  set (G := 2 ^ (- e')).
  assert (0 < G) as HG by (apply Z.pow_pos_nonneg; unfold e'; lia).
  (* the relations between the integers and the mantissas *)
  assert (Z.pos p * G * Z.pos my = Z.pos t * N) as Hval.
  { apply (Z.mul_cancel_r _ _ (2 ^ 23 * 2 ^ (ex + 23))); [lia |].
    assert (G * 2 ^ (ex + 23) = 2 ^ 24 * 2 ^ (ey + 23)) as HGA.
    { unfold G, e'. rewrite <- !Z.pow_add_r by lia. f_equal. lia. }
    unfold N. nia. }
  assert (Z.pos t < 2 * G) as HtG.
  { apply (Z.mul_lt_mono_pos_r (2 ^ 23)); [lia |].
    assert (2 ^ (ey + 23) * 2 ^ 24 <= 2 * G * 2 ^ 23) as HG2.
    { unfold G, e'.
      replace (2 * 2 ^ (- (ex - ey - 24)) * 2 ^ 23)
        with (2 ^ (1 + - (ex - ey - 24) + 23))
        by (rewrite !Z.pow_add_r by lia; lia).
      rewrite <- Z.pow_add_r by lia. apply Z.pow_le_mono_r; lia. }
    assert (0 < 2 ^ (ey + 23)) by (apply Z.pow_pos_nonneg; lia). nia. }
  assert (Z.pos t < G \/ Z.pos mx = 2 ^ 23) as HtG'.
  { destruct (decide (ex <= 0)) as [Hex0 | Hex1].
    - left. apply (Z.mul_lt_mono_pos_r (2 ^ 23)); [lia |].
      assert (2 ^ (ey + 23) * 2 ^ 24 <= G * 2 ^ 23) as HG2.
      { unfold G, e'. rewrite <- !Z.pow_add_r by lia.
        apply Z.pow_le_mono_r; lia. }
      assert (0 < 2 ^ (ey + 23)) by (apply Z.pow_pos_nonneg; lia). nia.
    - right. assert (ex = 1) as -> by lia.
      change (2 ^ (1 + 23)) with (2 ^ 24) in Hvx. lia. }
  assert (Z.even G = true \/ (Z.pos mx = 2 ^ 23 /\ Z.pos my = 2 ^ 23))
    as Heven.
  { destruct (decide (e' = 0)) as [He0 | Hne0].
    - right. assert (ex = 1 /\ ey = -23) as [-> ->] by (unfold e' in *; lia).
      change (2 ^ (1 + 23)) with (2 ^ 24) in Hvx.
      change (2 ^ (-23 + 23)) with 1 in Hvy. lia.
    - left. unfold G.
      replace (- e') with (Z.succ (- e' - 1)) by lia.
      rewrite Z.pow_succ_r by (unfold e' in *; lia).
      apply Z.even_spec. by eexists. }
  destruct (ceiling_of_compare
              (roundedUnits (N / Z.pos my)
                 (new_location (Z.pos my) (N mod Z.pos my)))
              G (Z.pos p) (Z.pos t) HG ltac:(lia)) as [Hceil Hceil'].
  { intros k. by apply roundedUnits_compare. }
  assert (ceiling
            ((if s then -1 else 1)
             * roundedUnits (N / Z.pos my)
                 (new_location (Z.pos my) (N mod Z.pos my))) G
          = ceiling (if s then Z.neg p else Z.pos p) (Z.pos t)) as ->.
  { destruct s.
    - change (Z.neg p) with (- Z.pos p). rewrite <- Hceil'. f_equal.
    - rewrite <- Hceil. f_equal. lia. }
  apply to_int64_normalize, ceiling_small; [destruct s |]; lia.
Qed.

(** For an integer [n] of magnitude at most [2^24] and a divisor [t] between
    1 and [2^24], the single precision computation
    [std::ceil((float)n / t)] is the ceiling of [n / t]. *)
Lemma float32_ceil_div_int n t :
  - 2 ^ 24 <= n <= 2 ^ 24 -> 1 <= t <= 2 ^ 24 ->
  Float32.to_int64
    (Float32.ceil (Float32.div (Float32.of_int n) (Float32.of_int t)))
  = Some (ceiling n t).
Proof.
  intros Hn Ht. destruct t as [| tp |]; [lia | | lia].
  unfold Float32.of_int. cbn [binary_normalize].
  destruct (of_int_normal false tp ltac:(lia)) as (my & ey & -> & Hy).
  destruct n as [| np | np]; cbn [binary_normalize].
  - done.
  - destruct (of_int_normal false np ltac:(lia)) as (mx & ex & -> & Hx).
    apply (float32_ceil_div false np tp); [lia | lia | done | done].
  - destruct (of_int_normal true np ltac:(lia)) as (mx & ex & -> & Hx).
    apply (float32_ceil_div true np tp); [lia | lia | done | done].
Qed.

(** ** The winograd input transform of rank 4 *)



(** On the input [tensor<1x10x10x3xf32>] the verifier compares the declared
    output with [6, 6, 1, 2, 2, 3]. *)
Lemma winograd_nhwc_example_verify output :
  length output = 6%nat ->
  WinogradInputTransformOp_verify (winograd_nhwc [1; 10; 10; 3] output)
  = (reject_if (negb (verifyCompatibleShape [6; 6; 1; 2; 2; 3] output))
       with [DStr "incompatible output shape"];;
     Some success).
Proof.
  intros Hlen. unfold WinogradInputTransformOp_verify, getRank.
  cbn [winograd_nhwc winograd_getDpsInputs winograd_getDpsInits
       winograd_getInputType winograd_getOutputType tensor getShape
       getElementType].
  rewrite Hlen. by lazy -[verifyCompatibleShape].
Qed.

(** The example of the spec: with kernel size 3 and output tile size 4, on
    the channel-last input [tensor<1x10x10x3xf32>] the declared outputs that
    are accepted are those compatible with [6, 6, 1, 2, 2, 3]. *)
Lemma winograd_nhwc_example output :
  WinogradInputTransformOp_verify (winograd_nhwc [1; 10; 10; 3] output)
  = Some success
  <-> verifyCompatibleShape [6; 6; 1; 2; 2; 3] output = true.
Proof.
  destruct (decide (length output = 6%nat)) as [Hlen | Hlen].
  - rewrite winograd_nhwc_example_verify by done.
    destruct (verifyCompatibleShape _ output); by split.
  - split.
    + unfold WinogradInputTransformOp_verify, getRank.
      cbn [winograd_nhwc winograd_getDpsInputs winograd_getDpsInits
           winograd_getInputType winograd_getOutputType tensor getShape
           getElementType].
      intros Hv. do 4 verify_inv Hv.
      rewrite (bool_decide_eq_false_2 (Z.of_nat 4 = 2)) in Hv by done.
      verify_inv Hv.
      match goal with
      | Hrank : bool_decide (Z.of_nat (length output) ≠ _) = false |- _ =>
          apply bool_decide_eq_false in Hrank; apply dec_stable in Hrank
      end.
      cbn in *. lia.
    + intros Hcompat%verifyCompatibleShape_length. by rewrite <- Hcompat in Hlen.
Qed.

(** C6 fails on the code for large extents: the tile count of an image axis
    is computed in single precision, which rounds [16777217 = 2^24 + 1] to
    [2^24].  For the image extent 16777219 (kernel size 3, output tile size
    4) the ceiling of [(16777219 - 3 + 1) / 4] is 4194305, but the verifier
    computes 4194304: it rejects the output [6, 6, 1, 4194305, 2, 3] and
    accepts [6, 6, 1, 4194304, 2, 3]. *)
Theorem winograd_tile_count_rounds_in_single_precision :
  ceiling (16777219 - 3 + 1) 4 = 4194305
  /\ winogradTileCount 16777219 3 4 = Some 4194304
  /\ WinogradInputTransformOp_verify
       (winograd_nhwc [1; 16777219; 10; 3] [6; 6; 1; 4194305; 2; 3])
     = Some (failure [DStr "incompatible output shape"])
  /\ WinogradInputTransformOp_verify
       (winograd_nhwc [1; 16777219; 10; 3] [6; 6; 1; 4194304; 2; 3])
     = Some success.
Proof. by vm_compute. Qed.

(** The expected output shape of the channel-last transform of rank 4: two
    leading axes of the input tile size, the batch and channel extents as
    they are, and the image extents replaced by their tile counts. *)
Lemma winograd_nhwc_expected_shape (op : WinogradInputTransformOp)
    n h w c tilesH tilesW :
  length (winograd_getDpsInputs op) = 1%nat ->
  length (winograd_getDpsInits op) = 1%nat ->
  getElementType (winograd_getOutputType op)
  = getElementType (winograd_getInputType op) ->
  imageDimensions op = [1; 2] ->
  getShape (winograd_getInputType op) = [n; h; w; c] ->
  length (getShape (winograd_getOutputType op)) = 6%nat ->
  imageAxisTiles op h = Some tilesH ->
  imageAxisTiles op w = Some tilesW ->
  WinogradInputTransformOp_verify op
  = (reject_if (negb (verifyCompatibleShape
                        [getInputTileSize op; getInputTileSize op;
                         n; tilesH; tilesW; c]
                        (getShape (winograd_getOutputType op))))
       with [DStr "incompatible output shape"];;
     Some success).
Proof.
  intros Hin Hout Helem Himage Hshape Hrank HtilesH HtilesW.
  unfold WinogradInputTransformOp_verify, getRank, isNchw, isNhwc.
  rewrite Hin, Hout, Helem, Himage, Hshape, Hrank.
  rewrite (bool_decide_eq_false_2
             (getElementType (winograd_getInputType op)
              ≠ getElementType (winograd_getInputType op)))
    by (by intros ?).
  unfold imageAxisTiles in *.
  lazy -[verifyCompatibleShape winogradTileCount isDynamic getInputTileSize
         getKernelSize getOutputTileSize winograd_getOutputType getShape].
  destruct (isDynamic n), (isDynamic c);
    destruct (isDynamic h), (isDynamic w);
    rewrite ?HtilesH, ?HtilesW;
    try injection HtilesH as <-; try injection HtilesW as <-;
    reflexivity.
Qed.

(** The tile count of an image extent is the ceiling of the formula as long
    as the dividend is exact in single precision. *)
Lemma winogradTileCount_ceiling extent kernelSize outputTileSize :
  - 2 ^ 24 <= extent - kernelSize + 1 <= 2 ^ 24 ->
  1 <= outputTileSize <= 2 ^ 24 ->
  winogradTileCount extent kernelSize outputTileSize
  = Some (ceiling (extent - kernelSize + 1) outputTileSize).
Proof.
  intros Hn Ht. unfold winogradTileCount.
  rewrite (wrap64_id (extent - kernelSize))
    by (unfold in_int64, int64_min, int64_max; lia).
  rewrite wrap64_id by (unfold in_int64, int64_min, int64_max; lia).
  by apply float32_ceil_div_int.
Qed.

(** Under the same bounds the verifier expects, at an image axis, the extent
    that the formula of the transform gives. *)
Lemma imageAxisTiles_expected (op : WinogradInputTransformOp) extent :
  1 <= getOutputTileSize op <= 2 ^ 24 ->
  exactInSinglePrecision op extent ->
  imageAxisTiles op extent = Some (expectedImageAxis op extent).
Proof.
  intros Ht Hexact. unfold imageAxisTiles, expectedImageAxis.
  destruct (isDynamic extent) eqn:Hdyn; [done |].
  destruct Hexact as [? | Hsmall]; [congruence |].
  by apply winogradTileCount_ceiling.
Qed.

(** An accepted transform of an input of rank 4 has an output of rank 6. *)
Lemma winograd_rank_4_output (op : WinogradInputTransformOp) :
  length (getShape (winograd_getInputType op)) = 4%nat ->
  WinogradInputTransformOp_verify op = Some success ->
  length (getShape (winograd_getOutputType op)) = 6%nat.
Proof.
  intros Hrank. unfold WinogradInputTransformOp_verify, getRank.
  rewrite Hrank. intros Hv. do 4 verify_inv Hv.
  rewrite (bool_decide_eq_false_2 (Z.of_nat 4 = 2)) in Hv by done.
  verify_inv Hv.
  match goal with
  | Hout : bool_decide (Z.of_nat _ ≠ _) = false |- _ =>
      apply bool_decide_eq_false in Hout; apply dec_stable in Hout
  end.
  lia.
Qed.

(** X23: The shape contract of the channel-last transform of rank 4, for an
    output tile size between 1 and [2^24] and image extents that are dynamic
    or exact in single precision: the accepted outputs are those compatible
    with two leading axes of the input tile size, the batch and channel
    extents, and the image extents replaced by the ceiling of [(extent -
    kernelSize + 1) / outputTileSize]. *)
Lemma winograd_nhwc_contract (op : WinogradInputTransformOp) n h w c :
  length (winograd_getDpsInputs op) = 1%nat ->
  length (winograd_getDpsInits op) = 1%nat ->
  getElementType (winograd_getOutputType op)
  = getElementType (winograd_getInputType op) ->
  imageDimensions op = [1; 2] ->
  getShape (winograd_getInputType op) = [n; h; w; c] ->
  1 <= getOutputTileSize op <= 2 ^ 24 ->
  exactInSinglePrecision op h -> exactInSinglePrecision op w ->
  WinogradInputTransformOp_verify op = Some success
  <-> verifyCompatibleShape
        [getInputTileSize op; getInputTileSize op; n;
         expectedImageAxis op h; expectedImageAxis op w; c]
        (getShape (winograd_getOutputType op)) = true.
Proof.
  intros Hin Hout Helem Himage Hshape Ht Hh Hw.
  destruct (decide (length (getShape (winograd_getOutputType op)) = 6%nat))
    as [Hrank | Hrank].
  - rewrite (winograd_nhwc_expected_shape op n h w c
               (expectedImageAxis op h) (expectedImageAxis op w));
      try done; try by apply imageAxisTiles_expected.
    destruct (verifyCompatibleShape _ _); by split.
  - split.
    + intros Hv. exfalso. apply Hrank.
      apply winograd_rank_4_output; [by rewrite Hshape | done].
    + intros Hcompat%verifyCompatibleShape_length. by rewrite <- Hcompat in Hrank.
Qed.

(** ** Dimension index sets *)

Lemma NoDup_size_list_to_set (l : list Z) :
  NoDup l -> size (list_to_set l : gset Z) = length l.
Proof.
  induction 1 as [| x l Hx Hl IH]; [done |].
  cbn [list_to_set length].
  rewrite size_union by (apply disjoint_singleton_l; by rewrite elem_of_list_to_set).
  rewrite size_singleton, IH. done.
Qed.

(** Pigeonhole: distinct entries of [[0, rank)] are at most [rank]. *)
Lemma NoDup_range_length (l : list Z) (rank : Z) :
  0 <= rank ->
  NoDup l -> Forall (fun d => 0 <= d < rank) l -> Z.of_nat (length l) <= rank.
Proof.
  intros Hrank Hnodup Hrange.
  assert (Hsub : l ⊆+ seqZ 0 rank).
  { apply NoDup_submseteq; [done |].
    intros d Hd. apply elem_of_seqZ.
    rewrite List.Forall_forall in Hrange.
    apply list_elem_of_In in Hd. specialize (Hrange d Hd). lia. }
  apply submseteq_length in Hsub. rewrite length_seqZ in Hsub. lia.
Qed.

(** Pairwise distinct entries of [[0, rank)] are never invalid: they are at
    most [rank]. *)
Lemma isInvalid_NoDup_range (dimsPos : list Z) (rank : Z) :
  0 <= rank ->
  NoDup dimsPos -> Forall (fun dimPos => 0 <= dimPos < rank) dimsPos ->
  isInvalid dimsPos rank = false.
Proof.
  intros Hrank Hnodup Hrange. unfold isInvalid.
  pose proof (NoDup_range_length dimsPos rank Hrank Hnodup Hrange) as Hlen.
  rewrite bool_decide_eq_false_2 by lia.
  rewrite uniqued_list_to_set, (right_id_L ∅ (∪)).
  rewrite NoDup_size_list_to_set by done.
  rewrite bool_decide_eq_false_2 by (by intros ?).
  apply not_true_iff_false. intros (d & Hd & Hout)%existsb_exists.
  apply bool_decide_eq_true in Hout.
  rewrite List.Forall_forall in Hrange. specialize (Hrange d Hd). lia.
Qed.

(** X1: [isInvalid] rejects exactly the lists with a duplicate or an entry
    outside [[0, rank)]: the early exit on the number of entries rejects
    nothing that the two other tests would accept. *)
Theorem isInvalid_iff (dimsPos : list Z) (rank : Z) :
  0 <= rank ->
  isInvalid dimsPos rank = false
  <-> NoDup dimsPos /\ Forall (fun dimPos => 0 <= dimPos < rank) dimsPos.
Proof.
  intros Hrank. split.
  - intros Hvalid. apply isInvalid_false in Hvalid as (_ & Hnodup & Hrange).
    done.
  - intros [Hnodup Hrange]. by apply isInvalid_NoDup_range.
Qed.

Lemma isInvalid_iff_witness :
  isInvalid [2; 0; 1] 3 = false
  <-> NoDup [2; 0; 1] /\ Forall (fun dimPos => 0 <= dimPos < 3) [2; 0; 1].
Proof. apply (isInvalid_iff [2; 0; 1] 3). lia. Defined.

(** ** Memory effects *)

Lemma getEffectsImpl_app effects inputOperands outputOperands :
  getEffectsImpl effects inputOperands outputOperands
  = effects
    ++ ((fun value => {| effect_kind := MemoryEffects.Read;
                         effect_value := value;
                         effect_resource := DefaultResource |})
        <$> memrefOperands inputOperands)
    ++ (memrefOperands outputOperands
        ≫= fun value => [{| effect_kind := MemoryEffects.Read;
                             effect_value := value;
                             effect_resource := DefaultResource |};
                          {| effect_kind := MemoryEffects.Write;
                             effect_value := value;
                             effect_resource := DefaultResource |}]).
Proof.
  unfold getEffectsImpl, memrefOperands.
  revert effects. induction inputOperands as [| v ins IH]; intros effects.
  - cbn [foldl filter fmap list_fmap app].
    induction outputOperands as [| w outs IHo] in effects |- *.
    + cbn. by rewrite app_nil_r.
    + cbn [foldl]. rewrite IHo. rewrite filter_cons.
      destruct (isMemRefType (value_getType w)) eqn:Hw; cbn [negb].
      * rewrite decide_True by done. cbn [mbind list_bind app].
        by rewrite <- !app_assoc.
      * by rewrite decide_False by done.
  - cbn [foldl]. rewrite IH. rewrite filter_cons.
    destruct (isMemRefType (value_getType v)) eqn:Hv; cbn [negb].
    + rewrite decide_True by done. cbn [fmap list_fmap].
      by rewrite <- !app_assoc.
    + by rewrite decide_False by done.
Qed.

(** X2: The effects that [getEffectsImpl] adds: a read of every memref
    operand, and a write of every memref output operand and of nothing else;
    the effects passed in stay. *)
Theorem getEffectsImpl_reads_and_writes effects inputOperands outputOperands
    (e : EffectInstance) :
  e ∈ getEffectsImpl effects inputOperands outputOperands
  <-> e ∈ effects
      \/ (isMemRefType (value_getType (effect_value e)) = true
          /\ (effect_value e ∈ outputOperands
              \/ (effect_kind e = MemoryEffects.Read
                  /\ effect_value e ∈ inputOperands))).
Proof.
  rewrite getEffectsImpl_app, !elem_of_app, list_elem_of_fmap, list_elem_of_bind.
  unfold memrefOperands. split.
  - intros [He | [(v & -> & Hv) | (v & He & Hv)]]; [by left | |].
    + apply list_elem_of_filter in Hv as [Hmem Hv]. right. cbn. eauto.
    + apply list_elem_of_filter in Hv as [Hmem Hv]. right.
      apply elem_of_cons in He as [-> | He]; [cbn; eauto |].
      apply list_elem_of_singleton in He as ->. cbn. eauto.
  - intros [He | [Hmem [Hout | [Hread Hin]]]]; [by left | |].
    + right. right. exists (effect_value e). split.
      * destruct e as [[] v []]; cbn; [left | right; left].
      * by apply list_elem_of_filter.
    + right. left. exists (effect_value e). split.
      * destruct e as [k v []]. cbn in Hread. by subst k.
      * by apply list_elem_of_filter.
Qed.

(** X3: Only memref operands carry effects: the number of effects added is the
    number of memref inputs plus twice the number of memref outputs, so tensor
    and scalar operands add nothing. *)
Theorem getEffectsImpl_length effects inputOperands outputOperands :
  length (getEffectsImpl effects inputOperands outputOperands)
  = (length effects + length (memrefOperands inputOperands)
     + 2 * length (memrefOperands outputOperands))%nat
  /\ (Forall (fun value => isMemRefType (value_getType value) = false)
        (inputOperands ++ outputOperands) ->
      getEffectsImpl effects inputOperands outputOperands = effects).
Proof.
  rewrite getEffectsImpl_app. split.
  - rewrite !length_app, length_fmap.
    assert (Hbind : forall l : list TypedValue,
              length (l ≫= fun value =>
                        [{| effect_kind := MemoryEffects.Read;
                            effect_value := value;
                            effect_resource := DefaultResource |};
                         {| effect_kind := MemoryEffects.Write;
                            effect_value := value;
                            effect_resource := DefaultResource |}])
              = (2 * length l)%nat).
    { induction l as [| x l IH]; [done |]. cbn in *. lia. }
    rewrite Hbind. lia.
  - intros [Hin Hout]%Forall_app.
    assert (Hnone : forall l,
              Forall (fun value => isMemRefType (value_getType value) = false) l ->
              memrefOperands l = []).
    { intros l Hl. unfold memrefOperands.
      induction Hl as [| x l Hx Hl IH]; [done |].
      rewrite filter_cons, decide_False by congruence. done. }
    rewrite (Hnone _ Hin), (Hnone _ Hout). cbn. by rewrite app_nil_r.
Qed.

Lemma getEffectsImpl_length_witness :
  getEffectsImpl []
    [{| value_id := 0; value_getType := Shaped (tensor [4] f32) |}]
    [{| value_id := 1; value_getType := Shaped (tensor [4] f32) |}] = [].
Proof.
  apply (getEffectsImpl_length [] [_] [_]).
  repeat constructor.
Defined.

(** ** Shapes compared with dynamic wildcards *)

Lemma staticMismatch_compatibleDim d1 d2 :
  staticMismatch (d1, d2) = negb (compatibleDim d1 d2).
Proof.
  unfold staticMismatch, compatibleDim. cbn [fst snd].
  destruct (isDynamic d1), (isDynamic d2); cbn; try done.
  destruct (decide (d1 = d2)) as [Heq | Hne].
  - rewrite bool_decide_eq_false_2 by (by intros ?).
    by rewrite bool_decide_eq_true_2.
  - rewrite bool_decide_eq_true_2 by done.
    by rewrite bool_decide_eq_false_2.
Qed.

(** No pair of extents is a static mismatch exactly when the shapes are
    compatible. *)
Lemma staticMismatch_verifyCompatibleShape shape1 shape2 pairs :
  zip_equal shape1 shape2 = Some pairs ->
  existsb staticMismatch pairs = negb (verifyCompatibleShape shape1 shape2).
Proof.
  unfold zip_equal, verifyCompatibleShape.
  destruct (decide (length shape1 = length shape2)) as [Hlen | Hlen];
    [| by rewrite bool_decide_eq_false_2].
  rewrite !bool_decide_eq_true_2 by done. intros [= <-]. cbn [andb].
  revert shape2 Hlen.
  induction shape1 as [| d1 s1 IH]; intros [| d2 s2] Hlen; try done.
  cbn [zip zip_with existsb compatibleDims].
  rewrite staticMismatch_compatibleDim, IH by (cbn in Hlen; lia).
  by rewrite negb_andb.
Qed.

Lemma zip_equal_Some {A B} (l : list A) (k : list B) pairs :
  zip_equal l k = Some pairs -> length l = length k.
Proof.
  unfold zip_equal.
  destruct (decide (length l = length k)); [done |].
  by rewrite bool_decide_eq_false_2.
Qed.

Lemma zip_equal_defined {A B} (l : list A) (k : list B) :
  length l = length k -> zip_equal l k = Some (zip l k).
Proof. intros Hlen. unfold zip_equal. by rewrite bool_decide_eq_true_2. Qed.

(** ** ScanOp *)

(** The loop that collects the extents of the input except the one at the
    scan dimension. *)
Lemma scan_expected_accumulator (dim : Z) (inputShapes : list Z) :
  foldl (fun expected '(i, extent) =>
           if bool_decide (Z.of_nat i ≠ dim)
           then expected ++ [extent] else expected)
        [] (enumerate inputShapes)
  = if bool_decide (0 <= dim < Z.of_nat (length inputShapes))
    then delete (Z.to_nat dim) inputShapes else inputShapes.
Proof.
  unfold enumerate.
  assert (Hgen : forall (l acc : list Z) (n : nat),
            foldl (fun expected '(i, extent) =>
                     if bool_decide (Z.of_nat i ≠ dim)
                     then expected ++ [extent] else expected)
                  acc (imap (fun i => pair (n + i)%nat) l)
            = acc ++ (if bool_decide (Z.of_nat n <= dim
                                      < Z.of_nat (n + length l))
                      then delete (Z.to_nat dim - n)%nat l else l)).
  { induction l as [| x l IH]; intros acc n.
    - cbn. destruct (bool_decide _); by rewrite app_nil_r.
    - cbn [imap foldl length].
      rewrite (imap_ext _ (fun i => pair (S n + i)%nat))
        by (intros; cbn; f_equal; lia).
      rewrite IH. rewrite Nat.add_0_r.
      destruct (decide (Z.of_nat n = dim)) as [Heq | Hne].
      + rewrite (bool_decide_eq_false_2 (Z.of_nat n ≠ dim)) by (by intros ?).
        rewrite (bool_decide_eq_false_2 (Z.of_nat (S n) <= dim < _)) by lia.
        rewrite (bool_decide_eq_true_2 (Z.of_nat n <= dim < _)) by lia.
        replace (Z.to_nat dim - n)%nat with 0%nat by lia. done.
      + rewrite (bool_decide_eq_true_2 (Z.of_nat n ≠ dim)) by done.
        rewrite <- app_assoc. cbn [app]. f_equal.
        destruct (decide (Z.of_nat (S n) <= dim
                          < Z.of_nat (S n + length l))) as [Hin | Hout].
        * rewrite !bool_decide_eq_true_2 by lia.
          replace (Z.to_nat dim - n)%nat with (S (Z.to_nat dim - S n)) by lia.
          done.
        * by rewrite !bool_decide_eq_false_2 by lia. }
  specialize (Hgen inputShapes [] 0%nat). cbn [app] in Hgen.
  rewrite (imap_ext _ pair) in Hgen by done. rewrite Hgen.
  rewrite Nat.sub_0_r. cbn [Nat.add Z.of_nat]. done.
Qed.

(** X4: What [ScanOp::verify] accepts: one input and two outputs, all three
    shaped with one element type; the scan dimension is an axis of the input;
    the accumulator is compatible with the input shape without that axis, and
    the output with the input shape. *)
Theorem ScanOp_verify_success (op : ScanOp) :
  ScanOp_verify op = Some success
  <-> length (scan_getDpsInputs op) = 1%nat
      /\ length (scan_getDpsInits op) = 2%nat
      /\ exists inputType accumulatorType outputType,
           scan_input op = Shaped inputType
           /\ scan_accumulator op = Shaped accumulatorType
           /\ scan_output op = Shaped outputType
           /\ getElementType accumulatorType = getElementType inputType
           /\ getElementType outputType = getElementType inputType
           /\ 0 <= scan_getDimension op < getRank inputType
           /\ verifyCompatibleShape
                (delete (Z.to_nat (scan_getDimension op)) (getShape inputType))
                (getShape accumulatorType) = true
           /\ verifyCompatibleShape (getShape inputType)
                                    (getShape outputType) = true.
Proof.
  unfold ScanOp_verify. split.
  - intros Hv. do 3 verify_inv Hv.
    apply bool_decide_eq_false in Hcheck, Hcheck0.
    apply dec_stable in Hcheck, Hcheck0.
    do 3 verify_inv Hv.
    destruct (scan_accumulator op) as [? | accumulatorType] eqn:Hacc; [done |].
    destruct (scan_input op) as [? | inputType] eqn:Hin; [done |].
    destruct (scan_output op) as [? | outputType] eqn:Hout; [done |].
    cbn in Hdef, Hdef0, Hdef1.
    injection Hdef as <-. injection Hdef0 as <-. injection Hdef1 as <-.
    do 2 verify_inv Hv.
    apply bool_decide_eq_false in Hcheck2, Hcheck3.
    apply dec_stable in Hcheck2, Hcheck3.
    verify_inv Hv.
    rewrite scan_expected_accumulator in Hdef.
    pose proof (zip_equal_Some _ _ _ Hdef) as Hlen.
    verify_inv Hv.
    rewrite (staticMismatch_verifyCompatibleShape _ _ _ Hdef) in Hcheck4.
    apply negb_false_iff in Hcheck4.
    do 2 verify_inv Hv.
    apply bool_decide_eq_false in Hcheck5. apply dec_stable in Hcheck5.
    verify_inv Hv. verify_inv Hv.
    rewrite (staticMismatch_verifyCompatibleShape _ _ _ Hdef0) in Hcheck7.
    apply negb_false_iff in Hcheck7.
    unfold getRank in *.
    destruct (decide (0 <= scan_getDimension op
                      < Z.of_nat (length (getShape inputType)))) as [Hd | Hd].
    2:{ rewrite bool_decide_eq_false_2 in Hlen by done. lia. }
    rewrite bool_decide_eq_true_2 in Hcheck4 by done.
    split; [done |]. split; [done |].
    exists inputType, accumulatorType, outputType.
    split_and!; try first [done | by symmetry | lia].
  - intros (Hins & Hinits & inputType & accumulatorType & outputType
            & Hin & Hacc & Hout & Helacc & Helout & Hd & Hcacc & Hcout).
    rewrite Hins, Hinits, Hin, Hacc, Hout. cbn [castShapedType isShaped negb].
    rewrite !(bool_decide_eq_false_2 (_ ≠ _)) by (by intros ?).
    cbn [mbind option_bind]. unfold emitOpError.
    rewrite (bool_decide_eq_false_2 (getElementType accumulatorType ≠ _))
      by (by intros ?).
    pose proof (verifyCompatibleShape_length _ _ Hcacc) as Hlacc.
    pose proof (verifyCompatibleShape_length _ _ Hcout) as Hlout.
    unfold getRank in *.
    rewrite length_delete in Hlacc
      by (apply lookup_lt_is_Some; lia).
    rewrite (bool_decide_eq_false_2 (Z.of_nat _ ≠ _)) by lia.
    rewrite scan_expected_accumulator.
    rewrite (bool_decide_eq_true_2 (0 <= _ < _)) by done.
    assert (Hldel : length (delete (Z.to_nat (scan_getDimension op))
                              (getShape inputType))
                    = length (getShape accumulatorType)).
    { rewrite length_delete by (apply lookup_lt_is_Some; lia). done. }
    rewrite (zip_equal_defined (delete _ _) (getShape accumulatorType)) by done.
    cbn [mbind option_bind].
    rewrite (staticMismatch_verifyCompatibleShape _ _ _
               (zip_equal_defined _ _ Hldel)).
    rewrite Hcacc. cbn [negb].
    rewrite (bool_decide_eq_false_2 (getElementType inputType ≠ _))
      by (by intros ?).
    rewrite (bool_decide_eq_false_2 (length _ ≠ _)) by (by intros ?).
    rewrite (zip_equal_defined _ _ Hlout). cbn [mbind option_bind].
    rewrite (staticMismatch_verifyCompatibleShape _ _ _
               (zip_equal_defined _ _ Hlout)).
    by rewrite Hcout.
Qed.

(** X5: An out-of-range scan dimension has no diagnostic of its own: when the
    checks before the accumulator shape pass, the verifier runs into the
    assertion of [zip_equal], the expected accumulator shape being as long as
    the input shape. *)
Theorem ScanOp_verify_dimension_out_of_range (op : ScanOp)
    (inputType accumulatorType : ShapedType) :
  length (scan_getDpsInputs op) = 1%nat ->
  length (scan_getDpsInits op) = 2%nat ->
  scan_input op = Shaped inputType ->
  scan_accumulator op = Shaped accumulatorType ->
  getElementType accumulatorType = getElementType inputType ->
  getRank accumulatorType = getRank inputType - 1 ->
  ~ (0 <= scan_getDimension op < getRank inputType) ->
  ScanOp_verify op = None.
Proof.
  intros Hins Hinits Hin Hacc Helem Hrank Hd. unfold ScanOp_verify.
  rewrite Hins, Hinits, Hin, Hacc. cbn [castShapedType isShaped negb].
  rewrite !(bool_decide_eq_false_2 (_ ≠ _)) by (by intros ?).
  cbn [mbind option_bind].
  destruct (castShapedType (scan_output op)) as [outputType |]; [| done].
  cbn [mbind option_bind].
  rewrite (bool_decide_eq_false_2 (getElementType accumulatorType ≠ _))
    by (by intros ?).
  rewrite (bool_decide_eq_false_2 (getRank accumulatorType ≠ _))
    by (by intros ?).
  rewrite scan_expected_accumulator.
  unfold getRank in *.
  rewrite (bool_decide_eq_false_2 (0 <= _ < _)) by done.
  unfold zip_equal. rewrite (bool_decide_eq_false_2
             (length (getShape inputType)
              = length (getShape accumulatorType))) by lia.
  done.
Qed.

Lemma ScanOp_verify_dimension_out_of_range_witness :
  ScanOp_verify
    {| scan_getDpsInputs := [Shaped (tensor [4; 8] f32)];
       scan_getDpsInits := [Shaped (tensor [4; 8] f32);
                            Shaped (tensor [4] f32)];
       scan_input := Shaped (tensor [4; 8] f32);
       scan_accumulator := Shaped (tensor [4] f32);
       scan_output := Shaped (tensor [4; 8] f32);
       scan_getDimension := 2 |} = None.
Proof.
  apply (ScanOp_verify_dimension_out_of_range _
           (tensor [4; 8] f32) (tensor [4] f32));
    [reflexivity | reflexivity | reflexivity | reflexivity | reflexivity
    | reflexivity | unfold getRank; simpl; lia].
Defined.
(** ** ReverseOp *)

Lemma reverseDimsLoop_success rank dims : forall s,
  reverseDimsLoop rank s dims = Some success
  <-> Forall (fun dim => 0 <= dim < rank) dims
      /\ NoDup dims
      /\ forall dim, dim ∈ dims -> dim ∉ s.
Proof.
  induction dims as [| dim rest IH]; intros s.
  - cbn. split; [intros _ | done].
    split; [done |]. split.
    { apply NoDup_nil_2. }
    intros dim Hdim. by inversion Hdim.
  - cbn [reverseDimsLoop]. split.
    + intros Hv. do 2 verify_inv Hv.
      apply bool_decide_eq_false in Hcheck, Hcheck0.
      apply IH in Hv as (Hrange & Hnodup & Hfresh). split_and!.
      * constructor; [lia | done].
      * apply list.NoDup_cons. split; [| done].
        intros Hin. apply (Hfresh dim Hin). apply elem_of_app. right.
        by apply list_elem_of_singleton.
      * intros d [-> | Hd]%elem_of_cons; [done |].
        intros Hs. apply (Hfresh d Hd). apply elem_of_app. by left.
    + intros (Hrange & Hnodup & Hfresh).
      apply Forall_cons_1 in Hrange as [Hdim Hrange].
      apply list.NoDup_cons in Hnodup as [Hnotin Hnodup].
      rewrite bool_decide_eq_false_2 by lia.
      rewrite bool_decide_eq_false_2 by (apply Hfresh; by left).
      apply IH. split_and!; [done | done |].
      intros d Hd [Hs | ->%list_elem_of_singleton]%elem_of_app; [| done].
      apply (Hfresh d); [by right | done].
Qed.

(** X6: What [ReverseOp::verify] accepts: one input and one output, shaped, of
    one element type and of compatible shapes, and reversed dimensions that
    [isInvalid] would not reject for the rank of the input: pairwise distinct
    axes of the input. *)
Theorem ReverseOp_verify_success (op : ReverseOp) :
  ReverseOp_verify op = Some success
  <-> length (reverse_getDpsInputs op) = 1%nat
      /\ length (reverse_getDpsInits op) = 1%nat
      /\ exists inputType outputType,
           reverse_input op = Shaped inputType
           /\ reverse_output op = Shaped outputType
           /\ getElementType inputType = getElementType outputType
           /\ verifyCompatibleShape (getShape inputType)
                                    (getShape outputType) = true
           /\ isInvalid (reverse_dims op) (getRank inputType) = false.
Proof.
  unfold ReverseOp_verify, reverse_getOperandRank. split.
  - intros Hv. do 2 verify_inv Hv.
    apply bool_decide_eq_false in Hcheck, Hcheck0.
    apply dec_stable in Hcheck, Hcheck0.
    do 2 verify_inv Hv.
    destruct (reverse_input op) as [? | inputType] eqn:Hin; [done |].
    destruct (reverse_output op) as [? | outputType] eqn:Hout; [done |].
    cbn in Hdef, Hdef0. injection Hdef as <-. injection Hdef0 as <-.
    do 4 verify_inv Hv.
    apply bool_decide_eq_false in Hcheck1. apply dec_stable in Hcheck1.
    rewrite (staticMismatch_verifyCompatibleShape _ _ _ Hdef) in Hcheck3.
    apply negb_false_iff in Hcheck3.
    cbn [castShapedType fmap option_fmap option_map mbind option_bind] in Hv.
    apply reverseDimsLoop_success in Hv as (Hrange & Hnodup & _).
    split; [done |]. split; [done |]. exists inputType, outputType.
    split_and!; try done.
    apply isInvalid_NoDup_range; [unfold getRank; lia | done | done].
  - intros (Hins & Hinits & inputType & outputType & Hin & Hout & Helem
            & Hcompat & Hdims).
    rewrite Hins, Hinits, Hin, Hout. cbn [castShapedType].
    rewrite !(bool_decide_eq_false_2 (_ ≠ _)) by (by intros ?).
    cbn [mbind option_bind].
    rewrite (bool_decide_eq_false_2 (getElementType inputType ≠ _)) by (by intros ?).
    pose proof (verifyCompatibleShape_length _ _ Hcompat) as Hlen.
    rewrite (bool_decide_eq_false_2 (length _ ≠ _)) by (by intros ?).
    rewrite (zip_equal_defined _ _ Hlen). cbn [mbind option_bind].
    rewrite (staticMismatch_verifyCompatibleShape _ _ _
               (zip_equal_defined _ _ Hlen)).
    rewrite Hcompat. cbn [negb fmap option_fmap option_map mbind option_bind].
    apply isInvalid_false in Hdims as (_ & Hnodup & Hrange).
    apply reverseDimsLoop_success. split_and!; [done | done |].
    intros dim _ Hnil. by inversion Hnil.
Qed.
(** ** TopkOp *)

Lemma isInteger_eq t w : isInteger t w = true <-> t = IntegerType w.
Proof.
  destruct t; cbn; try (split; [discriminate | discriminate]).
  rewrite bool_decide_eq_true. split; [by intros -> | by intros [= ->]].
Qed.

Lemma Ty_isInteger_eq t w : Ty_isInteger t w = true <-> t = Scalar (IntegerType w).
Proof.
  destruct t as [e | s]; cbn; [| split; discriminate].
  rewrite isInteger_eq. split; [by intros -> | by intros [= ->]].
Qed.

(** The test of the top-k verifier over the enumerated pairs of extents. *)
Lemma topk_forallb_except (dim : Z) (shape1 shape2 : list Z) :
  length shape1 = length shape2 ->
  forallb (fun '(index, s) =>
             if bool_decide (Z.of_nat index = dim) then true
             else verifyCompatibleShape [s.1] [s.2])
          (enumerate (zip shape1 shape2)) = true
  <-> compatibleExceptAt dim shape1 shape2.
Proof.
  intros Hlen. unfold compatibleExceptAt, enumerate.
  rewrite forallb_forall. split.
  - intros Hall. split; [done |]. intros i d1 d2 Hi H1 H2.
    assert (Hin : In (i, (d1, d2)) (imap pair (zip shape1 shape2))).
    { apply list_elem_of_In, list_elem_of_lookup. exists i.
      rewrite list_lookup_imap, lookup_zip_with, H1. cbn. by rewrite H2. }
    apply Hall in Hin. cbn beta iota in Hin.
    rewrite bool_decide_eq_false_2 in Hin by done.
    unfold verifyCompatibleShape in Hin. cbn in Hin.
    by rewrite andb_true_r in Hin.
  - intros [_ Hall] [i [d1 d2]] Hin.
    apply list_elem_of_In, list_elem_of_lookup in Hin as [j Hj].
    rewrite list_lookup_imap, lookup_zip_with in Hj.
    destruct (shape1 !! j) as [a |] eqn:H1; [| done].
    destruct (shape2 !! j) as [b |] eqn:H2; [| done].
    cbn in Hj. injection Hj as <- <- <-.
    destruct (decide (Z.of_nat j = dim)) as [Hd | Hd].
    + by rewrite bool_decide_eq_true_2.
    + rewrite bool_decide_eq_false_2 by done.
      unfold verifyCompatibleShape. cbn. rewrite andb_true_r.
      by apply (Hall j).
Qed.

Lemma TopkOp_verify_accepts_only (op : TopkOp) :
  TopkOp_verify op = Some success -> topkAccepted op.
Proof.
  unfold TopkOp_verify, topk_getInputRank, topkAccepted.
  intros Hv. do 2 verify_inv Hv.
  apply bool_decide_eq_false, dec_stable in Hcheck0.
  apply andb_false_iff in Hcheck.
  assert (Hins : length (topk_getDpsInputs op) = 1%nat
                 \/ length (topk_getDpsInputs op) = 2%nat).
  { destruct Hcheck as [Hc | Hc]; apply bool_decide_eq_false, dec_stable in Hc;
      [by left | by right]. }
  clear Hcheck.
  destruct (topk_values op) as [? | inputValuesType] eqn:Hvalues; [done |].
  cbn [castShapedType fmap option_fmap option_map mbind option_bind] in Hv.
  verify_inv Hv. apply bool_decide_eq_false in Hcheck.
  destruct (topk_outputValues op) as [? | outputValuesType] eqn:Houtv;
    [done |].
  cbn [castShapedType mbind option_bind] in Hv.
  verify_inv Hv. apply bool_decide_eq_false, dec_stable in Hcheck1.
  destruct (topk_outputIndices op) as [? | outputIndicesType] eqn:Houti;
    [done |].
  cbn [castShapedType mbind option_bind] in Hv.
  assert (Hindices :
            topkIndicesChecked (topk_indices op) inputValuesType
                               outputIndicesType
            /\ (reject_if (bool_decide (getRank inputValuesType
                                        ≠ getRank outputValuesType))
                  with [DStr "expected input/output to have the same rank"];;
                reject_if (negb (verifyCompatibleShape
                                   (getShape outputValuesType)
                                   (getShape outputIndicesType)))
                  with [DStr "output indices/values shape must match"];;
                pairs ← zip_equal (getShape inputValuesType)
                                  (getShape outputValuesType);
                reject_if (negb (forallb
                             (fun '(index, s) =>
                                if bool_decide (Z.of_nat index
                                                = topk_getDimension op)
                                then true
                                else verifyCompatibleShape [s.1] [s.2])
                             (enumerate pairs)))
                  with [DStr "incompatible input/output shapes"];;
                reject_if (bool_decide
                             (length (getArguments (topk_block op)) ≠ 2%nat))
                  with [DStr "region block should have 2 arguments"];;
                arg0Type ← getArguments (topk_block op) !! 0%nat;
                arg1Type ← getArguments (topk_block op) !! 1%nat;
                reject_if (bool_decide
                             (arg0Type
                              ≠ Scalar (getElementType inputValuesType))
                           || bool_decide
                                (arg1Type
                                 ≠ Scalar (getElementType inputValuesType)))
                  with [DStr "region block types must match input"];;
                match getTerminator (topk_block op) with
                | OtherTerminator =>
                    emitOpError
                      [DStr "region block must end with a linalg_ext.yield i1!"]
                | YieldOp operands =>
                    yielded ← operands !! 0%nat;
                    reject_if (negb (Ty_isInteger yielded 1))
                      with [DStr "region block must end with a linalg_ext.yield i1!"];;
                    Some success
                end) = Some success).
  { unfold topkIndicesChecked.
    destruct (topk_indices op) as [[? | inputIndicesType] |]; [done | |].
    - cbn [castShapedType mbind option_bind] in Hv.
      destruct (negb (isInteger (getElementType inputIndicesType) 32) || _)
        eqn:Hint; [done |].
      cbn [mbind option_bind] in Hv.
      verify_inv Hv.
      destruct (bool_decide (getRank inputIndicesType ≠ _)); [done |].
      cbn [mbind option_bind] in Hv.
      destruct (negb (verifyCompatibleShape (getShape inputValuesType) _))
        eqn:Hcompat; [done |].
      cbn [mbind option_bind] in Hv.
      apply orb_false_iff in Hint as [Hint1 Hint2].
      apply negb_false_iff, isInteger_eq in Hint1, Hint2.
      apply negb_false_iff in Hcompat.
      split; [by exists inputIndicesType |].
      exact Hv.
    - cbn [mbind option_bind] in Hv. done. }
  clear Hv. destruct Hindices as [Hindices Hv].
  do 2 verify_inv Hv.
  apply negb_false_iff in Hcheck3.
  verify_inv Hv. pose proof (zip_equal_Some _ _ _ Hdef) as Hlen.
  unfold zip_equal in Hdef. rewrite bool_decide_eq_true_2 in Hdef by done.
  injection Hdef as <-.
  verify_inv Hv. apply negb_false_iff in Hcheck4.
  apply (topk_forallb_except _ _ _ Hlen) in Hcheck4.
  verify_inv Hv. apply bool_decide_eq_false, dec_stable in Hcheck5.
  do 3 verify_inv Hv.
  apply orb_false_iff in Hcheck6 as [Harg0 Harg1].
  apply bool_decide_eq_false, dec_stable in Harg0, Harg1. subst.
  destruct (getArguments (topk_block op)) as [| a0 [| a1 [| ? ?]]] eqn:Hargs;
    try done.
  cbn in Hdef, Hdef0. injection Hdef as ->. injection Hdef0 as ->.
  destruct (getTerminator (topk_block op)) as [operands |] eqn:Hterm;
    [| done].
  verify_inv Hv. verify_inv Hv.
  apply negb_false_iff, Ty_isInteger_eq in Hcheck6. subst.
  destruct operands as [| yielded0 rest]; [done |].
  cbn in Hdef. injection Hdef as ->.
  split; [done |]. split; [done |].
  exists inputValuesType, outputValuesType, outputIndicesType, rest.
  split_and!; try done. lia.
Qed.

Lemma TopkOp_verify_accepts (op : TopkOp) :
  topkAccepted op -> TopkOp_verify op = Some success.
Proof.
  unfold TopkOp_verify, topk_getInputRank, topkAccepted.
  intros (Hins & Hinits & inputValuesType & outputValuesType
          & outputIndicesType & yielded & Hvalues & Houtv & Houti & Hdim
          & Helem & Hindices & Hcompat & [Hlen Hexcept] & Hargs & Hterm).
  rewrite Hinits, Hvalues, Houtv, Houti, Hargs, Hterm.
  cbn [castShapedType fmap option_fmap option_map mbind option_bind].
  replace (bool_decide (length (topk_getDpsInputs op) ≠ 1%nat)
           && bool_decide (length (topk_getDpsInputs op) ≠ 2%nat))
    with false
    by (destruct Hins as [-> | ->]; by cbn).
  rewrite (bool_decide_eq_false_2 (2%nat ≠ 2%nat)) by (by intros ?).
  rewrite (bool_decide_eq_false_2 (_ >= _)) by lia.
  rewrite (bool_decide_eq_false_2 (getElementType _ ≠ _)) by (by intros ?).
  rewrite (bool_decide_eq_false_2 (getRank inputValuesType ≠ _))
    by (unfold getRank; rewrite Hlen; by intros ?).
  pose proof (verifyCompatibleShape_length _ _ Hcompat) as Hlenout.
  assert (Hrest :
    (reject_if (negb (verifyCompatibleShape
                        (getShape outputValuesType)
                        (getShape outputIndicesType)))
       with [DStr "output indices/values shape must match"];;
     pairs ← zip_equal (getShape inputValuesType)
                       (getShape outputValuesType);
     reject_if (negb (forallb
                  (fun '(index, s) =>
                     if bool_decide (Z.of_nat index = topk_getDimension op)
                     then true
                     else verifyCompatibleShape [s.1] [s.2])
                  (enumerate pairs)))
       with [DStr "incompatible input/output shapes"];;
     reject_if (bool_decide
                  (length [Scalar (getElementType inputValuesType);
                           Scalar (getElementType inputValuesType)]
                   ≠ 2%nat))
       with [DStr "region block should have 2 arguments"];;
     arg0Type ← [Scalar (getElementType inputValuesType);
                 Scalar (getElementType inputValuesType)] !! 0%nat;
     arg1Type ← [Scalar (getElementType inputValuesType);
                 Scalar (getElementType inputValuesType)] !! 1%nat;
     reject_if (bool_decide
                  (arg0Type ≠ Scalar (getElementType inputValuesType))
                || bool_decide
                     (arg1Type ≠ Scalar (getElementType inputValuesType)))
       with [DStr "region block types must match input"];;
     yielded ← (Scalar (IntegerType 1) :: yielded) !! 0%nat;
     reject_if (negb (Ty_isInteger yielded 1))
       with [DStr "region block must end with a linalg_ext.yield i1!"];;
     Some success) = Some success).
  { rewrite Hcompat. cbn [negb].
    rewrite (zip_equal_defined _ _ Hlen). cbn [mbind option_bind].
    replace (forallb _ _) with true
      by (symmetry; by apply topk_forallb_except).
    cbn [negb length lookup list_lookup mbind option_bind].
    rewrite !(bool_decide_eq_false_2 (_ ≠ _)) by (by intros ?).
    done. }
  unfold topkIndicesChecked in Hindices.
  destruct (topk_indices op) as [inputIndices |].
  + destruct Hindices as (inputIndicesType & -> & Hint1 & Hint2 & Hcin).
    cbn [castShapedType mbind option_bind].
    rewrite Hint1, Hint2. cbn [isInteger].
    rewrite (bool_decide_eq_true_2 (32%N = 32%N)) by done.
    cbn [negb orb mbind option_bind].
    pose proof (verifyCompatibleShape_length _ _ Hcin) as Hlenin.
    rewrite (bool_decide_eq_false_2 (getRank inputIndicesType ≠ _))
      by (unfold getRank; rewrite <- Hlenin, Hlen, Hlenout; by intros ?).
    cbn [mbind option_bind]. rewrite Hcin.
    cbn [negb mbind option_bind]. exact Hrest.
  + cbn [mbind option_bind]. exact Hrest.
Qed.

(** X7: [TopkOp::verify] accepts exactly the operations described by
    [topkAccepted]. *)
Theorem TopkOp_verify_success (op : TopkOp) :
  TopkOp_verify op = Some success <-> topkAccepted op.
Proof.
  split; [apply TopkOp_verify_accepts_only | apply TopkOp_verify_accepts].
Qed.

Lemma compatibleDims_lookup shape1 shape2 :
  length shape1 = length shape2 ->
  compatibleDims shape1 shape2 = true
  <-> forall (i : nat) d1 d2,
        shape1 !! i = Some d1 -> shape2 !! i = Some d2 ->
        compatibleDim d1 d2 = true.
Proof.
  revert shape2. induction shape1 as [| a s1 IH]; intros [| b s2] Hlen;
    try done.
  cbn [compatibleDims]. rewrite andb_true_iff, IH by (cbn in Hlen; lia).
  split.
  - intros [Hab Hrest] [| i] d1 d2; cbn; [by intros [= <-] [= <-] |].
    apply Hrest.
  - intros Hall. split; [by apply (Hall 0%nat) |].
    intros i. apply (Hall (S i)).
Qed.

Lemma compatibleDim_refl d : compatibleDim d d = true.
Proof.
  unfold compatibleDim. rewrite (bool_decide_eq_true_2 (d = d)) by done.
  by rewrite orb_true_r.
Qed.

(** Replacing the extent of one axis by the same extent on both sides keeps
    two shapes compatible. *)
Lemma verifyCompatibleShape_insert shape1 shape2 (axis : nat) k :
  verifyCompatibleShape shape1 shape2 = true ->
  verifyCompatibleShape (<[axis := k]> shape1) (<[axis := k]> shape2) = true.
Proof.
  intros Hcompat.
  pose proof (verifyCompatibleShape_length _ _ Hcompat) as Hlen.
  unfold verifyCompatibleShape in *.
  rewrite !length_insert, bool_decide_eq_true_2 in * by done.
  cbn [andb] in *.
  apply compatibleDims_lookup; [by rewrite !length_insert |].
  pose proof (proj1 (compatibleDims_lookup _ _ Hlen) Hcompat) as Hall.
  intros i d1 d2 H1 H2.
  destruct (decide (axis = i)) as [-> | Hne].
  - apply list_lookup_insert_Some in H1 as [(_ & <- & _) | [? _]]; [| done].
    apply list_lookup_insert_Some in H2 as [(_ & <- & _) | [? _]]; [| done].
    apply compatibleDim_refl.
  - rewrite list_lookup_insert_ne in H1, H2 by done. by apply (Hall i).
Qed.

(** X8: The extent of the outputs along the selection dimension is free: an
    accepted top-k stays accepted when that extent is replaced, in both
    outputs, by any [k]. *)
Theorem topk_selection_extent_free (op : TopkOp)
    (outputValuesType outputIndicesType : ShapedType) (k : Z) :
  0 <= topk_getDimension op ->
  TopkOp_verify op = Some success ->
  topk_outputValues op = Shaped outputValuesType ->
  topk_outputIndices op = Shaped outputIndicesType ->
  TopkOp_verify
    (topk_withOutputs op
       (Shaped (withExtent outputValuesType
                           (Z.to_nat (topk_getDimension op)) k))
       (Shaped (withExtent outputIndicesType
                           (Z.to_nat (topk_getDimension op)) k)))
  = Some success.
Proof.
  intros Hunsigned Hv Houtv Houti.
  apply TopkOp_verify_accepts_only in Hv
    as (Hins & Hinits & inputValuesType & outV & outI & yielded & Hvalues
        & Houtv' & Houti' & Hdim & Helem & Hindices & Hcompat
        & [Hlen Hexcept] & Hargs & Hterm).
  rewrite Houtv in Houtv'. rewrite Houti in Houti'.
  injection Houtv' as <-. injection Houti' as <-.
  apply TopkOp_verify_accepts. unfold topkAccepted.
  cbn [topk_withOutputs topk_getDpsInputs
    topk_getDpsInits topk_getDimension topk_values topk_indices
    topk_outputValues topk_outputIndices topk_block].
  split; [done |]. split; [done |].
  eexists inputValuesType, _, _, yielded.
  split_and!; try done.
  - cbn [withExtent getShape]. by apply verifyCompatibleShape_insert.
  - cbn [withExtent getShape]. split; [by rewrite length_insert |].
    intros i d1 d2 Hi H1 H2.
    rewrite list_lookup_insert_ne in H2 by lia.
    by apply (Hexcept i).
Qed.

Lemma topk_selection_extent_free_witness :
  TopkOp_verify
    (topk_withOutputs (topk_example (tensor [4; 5] f32) (tensor [4; 5] i32))
       (Shaped (withExtent (tensor [4; 5] f32) (Z.to_nat 1) 7))
       (Shaped (withExtent (tensor [4; 5] i32) (Z.to_nat 1) 7)))
  = Some success.
Proof.
  apply (topk_selection_extent_free
           (topk_example (tensor [4; 5] f32) (tensor [4; 5] i32))
           (tensor [4; 5] f32) (tensor [4; 5] i32) 7);
    [simpl; lia | reflexivity | reflexivity | reflexivity].
Defined.

(** X9: The element type of the output indices is looked at only when there
    are input indices: without them the verdict is the same for every element
    type [t] of the output indices; with them, output indices that are not
    [i32] are never accepted. *)
Theorem topk_output_indices_type :
  (forall (op : TopkOp) (outputIndicesType : ShapedType) (t : ElemTy),
     topk_indices op = None ->
     topk_outputIndices op = Shaped outputIndicesType ->
     TopkOp_verify
       (topk_withOutputs op (topk_outputValues op)
          (Shaped (mkShaped (container outputIndicesType)
                            (getShape outputIndicesType) t)))
     = TopkOp_verify op)
  /\ (forall (op : TopkOp) (inputIndices : Ty)
             (outputIndicesType : ShapedType),
        topk_indices op = Some inputIndices ->
        topk_outputIndices op = Shaped outputIndicesType ->
        getElementType outputIndicesType ≠ IntegerType 32 ->
        TopkOp_verify op ≠ Some success).
Proof.
  split.
  - intros op outputIndicesType t Hindices Houti.
    unfold TopkOp_verify, topk_getInputRank.
    cbn [topk_withOutputs topk_getDpsInputs
      topk_getDpsInits topk_getDimension topk_values topk_indices
      topk_outputValues topk_outputIndices topk_block].
    rewrite Hindices, Houti. reflexivity.
  - intros op inputIndices outputIndicesType Hindices Houti Hnot Hv.
    apply TopkOp_verify_accepts_only in Hv
      as (_ & _ & inV & outV & outI & yielded & _ & _ & Houti' & _ & _
          & Hchecked & _).
    rewrite Houti in Houti'. injection Houti' as <-.
    unfold topkIndicesChecked in Hchecked. rewrite Hindices in Hchecked.
    by destruct Hchecked as (inI & _ & _ & Hint & _).
Qed.

Lemma topk_output_indices_type_witness :
  TopkOp_verify
    (topk_withOutputs (topk_example (tensor [4; 5] f32) (tensor [4; 5] i32))
       (Shaped (tensor [4; 5] f32))
       (Shaped (mkShaped RankedTensor [4; 5] f32)))
  = TopkOp_verify (topk_example (tensor [4; 5] f32) (tensor [4; 5] i32)).
Proof.
  apply (proj1 topk_output_indices_type
           (topk_example (tensor [4; 5] f32) (tensor [4; 5] i32))
           (tensor [4; 5] i32) f32); reflexivity.
Defined.

(** ** Tile sizes of the pack and unpack operations *)





(** Mixing what [dispatchIndexOpFoldResults] separated gives the tile sizes
    back, unless a tile size is the attribute of the sentinel [kDynamic]. *)
Lemma mixTiles_dispatch_inverse (innerTiles : list OpFoldResult) :
  Forall (fun tile => tile ≠ Attr kDynamic) innerTiles ->
  mixTiles (dispatchIndexOpFoldResults innerTiles) (dispatchDynamic innerTiles)
  = Some innerTiles.
Proof.
  unfold dispatchIndexOpFoldResults, dispatchDynamic.
  induction 1 as [| tile rest Htile Hrest IH]; [done |].
  destruct tile as [c | v]; csimpl.
  - rewrite (proj2 (isDynamic_false c)) by congruence. cbn [negb].
    by rewrite IH.
  - by rewrite IH.
Qed.

(** X11: The builders and [getMixedTiles] are inverse to each other: a built
    pack or unpack operation gives back the tile sizes it was built from, as
    long as no tile size is the attribute of the sentinel [kDynamic]. *)
Theorem build_getMixedTiles (source output : ShapedType)
    (innerDimsPos : list Z) (innerTiles : list OpFoldResult)
    (paddingValue : option Ty) (outerDimsPerm : list Z) :
  Forall (fun tile => tile ≠ Attr kDynamic) innerTiles ->
  (forall op resultType,
     PackOp_build source output innerDimsPos innerTiles paddingValue
                  outerDimsPerm = Some (op, resultType) ->
     getMixedTiles op = Some innerTiles)
  /\ getMixedTiles
       (UnPackOp_build source output innerDimsPos innerTiles outerDimsPerm).1
     = Some innerTiles.
Proof.
  intros Htiles. split.
  - intros op resultType. unfold PackOp_build.
    destruct (bool_decide _); [| done]. intros [= <- _].
    unfold getMixedTiles. cbn. by apply mixTiles_dispatch_inverse.
  - unfold getMixedTiles. cbn. by apply mixTiles_dispatch_inverse.
Qed.

Lemma build_getMixedTiles_witness :
  getMixedTiles
    (UnPackOp_build (tensor [2; kDynamic; 4] f32) (tensor [8; kDynamic] f32)
       [1; 0] [Val (OpaqueValue 0); Attr 4] []).1
  = Some [Val (OpaqueValue 0); Attr 4].
Proof.
  apply (build_getMixedTiles (tensor [2; kDynamic; 4] f32)
           (tensor [8; kDynamic] f32) [1; 0]
           [Val (OpaqueValue 0); Attr 4] None []).
  repeat constructor; discriminate.
Defined.

(** A tile size that is the attribute of [kDynamic] does not survive the
    builder: it is read back as the next tile operand, or out of bounds. *)
Remark build_sentinel_attribute :
  getMixedTiles
    (UnPackOp_build (tensor [2; 4] f32) (tensor [8] f32) [0]
                    [Attr kDynamic] []).1 = None.
Proof. reflexivity. Qed.

(** ** The map from blocked dimensions to tiles *)

(** X12: With pairwise distinct inner positions, [getDimAndTileMapping] binds
    each inner position to the tile of the same index and nothing else; it
    asserts one tile per position. *)
Theorem getDimAndTileMapping_lookup {OpTy : Type} `{PackOrUnPack OpTy}
    (op : OpTy) (mixedTiles : list OpFoldResult) :
  getMixedTiles op = Some mixedTiles ->
  (length mixedTiles ≠ length (getInnerDimsPos op) ->
   getDimAndTileMapping op = None)
  /\ (length mixedTiles = length (getInnerDimsPos op) ->
      NoDup (getInnerDimsPos op) ->
      exists dimAndTileMapping,
        getDimAndTileMapping op = Some dimAndTileMapping
        /\ forall d tile,
             dimAndTileMapping !! d = Some tile
             <-> exists i, getInnerDimsPos op !! i = Some d
                           /\ mixedTiles !! i = Some tile).
Proof.
  intros Hmixed. unfold getDimAndTileMapping. rewrite Hmixed.
  cbn [mbind option_bind]. split.
  - intros Hne. by rewrite bool_decide_eq_false_2.
  - intros Hlen Hnodup. rewrite bool_decide_eq_true_2 by done.
    eexists. split; [done |]. intros d tile. split.
    + intros Hd.
      destruct (decide (d ∈ getInnerDimsPos op)) as [Hin | Hnotin].
      * apply list_elem_of_lookup in Hin as [i Hi]. exists i. split; [done |].
        destruct (lookup_lt_is_Some_2 mixedTiles i) as [tile' Htile'].
        { rewrite Hlen. by apply lookup_lt_Some in Hi. }
        rewrite (bindTile_lookup _ _ _ _ _ _ Hnodup Hi Htile') in Hd.
        by injection Hd as ->.
      * by rewrite bindTile_other, lookup_empty in Hd.
    + intros (i & Hi & Htile). by apply (bindTile_lookup _ _ _ i).
Qed.

Lemma getDimAndTileMapping_lookup_witness :
  exists dimAndTileMapping,
    getDimAndTileMapping unpack_dynamic_tile_axis = Some dimAndTileMapping
    /\ forall d tile,
         dimAndTileMapping !! d = Some tile
         <-> exists i, getInnerDimsPos unpack_dynamic_tile_axis !! i = Some d
                       /\ [Attr 4] !! i = Some tile.
Proof.
  apply (getDimAndTileMapping_lookup unpack_dynamic_tile_axis [Attr 4]);
    [reflexivity | reflexivity |].
  apply NoDup_singleton.
Defined.
(** ** The pack and unpack verifiers run into no undefined behaviour *)

Lemma areNotFullTilesFrom_defined (m : gmap Z OpFoldResult) inputShape :
  nonzeroTiles m ->
  forall dim, exists notFull, areNotFullTilesFrom dim inputShape m = Some notFull.
Proof.
  intros Hm. induction inputShape as [| extent rest IH]; intros dim.
  - by eexists.
  - cbn [areNotFullTilesFrom].
    destruct (isDynamic extent); [apply IH |].
    destruct (m !! dim) as [tile |] eqn:Htile; [| apply IH].
    destruct (getConstantIntValue tile) as [c |] eqn:Hc; [| apply IH].
    rewrite bool_decide_eq_false_2 by (by eapply Hm).
    destruct (bool_decide _); [by eexists | apply IH].
Qed.

Lemma foldM_invariant {A S} (P : S -> Prop) (body : S -> A -> option S) l :
  (forall s x s', P s -> body s x = Some s' -> P s') ->
  forall s s', P s -> foldM body s l = Some s' -> P s'.
Proof.
  intros Hbody. induction l as [| x l IH]; intros s s' Hs Hloop.
  - by injection Hloop as <-.
  - cbn [foldM] in Hloop. apply bind_Some in Hloop as (s1 & Hstep & Hloop).
    by eapply IH; [eapply Hbody |].
Qed.

Lemma assignZ_Forall {A} (P : A -> Prop) (l l' : list A) i x :
  Forall P l -> P x -> assignZ l i x = Some l' -> Forall P l'.
Proof.
  intros Hl Hx [_ ->]%assignZ_Some. by apply Forall_insert.
Qed.

Lemma lookupZ_Forall {A} (P : A -> Prop) (l : list A) i x :
  Forall P l -> lookupZ l i = Some x -> P x.
Proof.
  intros Hl [_ Hx]%lookupZ_Some. by eapply Forall_lookup_1.
Qed.

Lemma isValidExtent_static d :
  isValidExtent d = true -> isDynamic d = false -> 0 <= d <= int64_max.
Proof.
  unfold isValidExtent. intros Hvalid Hstatic. rewrite Hstatic in Hvalid.
  by apply bool_decide_eq_true in Hvalid.
Qed.

Lemma ceilDiv_valid extent tile count :
  isValidExtent extent = true -> isDynamic extent = false ->
  isValidExtent tile = true -> isDynamic tile = false ->
  ceilDiv extent tile = Some count -> isValidExtent count = true.
Proof.
  intros He Hes Ht Hts Hcount.
  apply isValidExtent_static in He; [| done].
  apply isValidExtent_static in Ht; [| done].
  assert (tile ≠ 0) as Hnz.
  { intros ->. unfold ceilDiv in Hcount.
    by rewrite bool_decide_eq_true_2 in Hcount. }
  rewrite ceilDiv_ceiling in Hcount;
    [| unfold in_int64, int64_min, int64_max in *; lia..].
  injection Hcount as <-.
  pose proof (ceiling_pos extent tile ltac:(lia)) as Hc.
  unfold isValidExtent. apply orb_true_iff. right.
  apply bool_decide_eq_true. unfold int64_max in *. nia.
Qed.

(** The packed shape of a valid source shape by valid tiles is valid: the
    invariant that the builders of the packed type assert. *)
Lemma getPackOpResultTypeShape_valid
    (sourceShape innerTileSizes innerDimsPos outerDimsPerm resultShape
     : list Z) :
  Forall (fun d => isValidExtent d = true) sourceShape ->
  Forall (fun tile => isValidExtent tile = true) innerTileSizes ->
  getPackOpResultTypeShape sourceShape innerTileSizes innerDimsPos
                           outerDimsPerm = Some resultShape ->
  Forall (fun d => isValidExtent d = true) resultShape.
Proof.
  intros Hsource Htiles. unfold getPackOpResultTypeShape. intros Hshape.
  apply bind_Some in Hshape as (tiled & Htiled & Hshape).
  apply bind_Some in Hshape as (moved & Hmoved & [= <-]).
  assert (Forall (fun d => isValidExtent d = true) tiled) as Hvalid.
  { revert Htiled. apply foldM_invariant; [| done].
    intros shape [idx tiledDim] shape' Hs Hstep.
    apply bind_Some in Hstep as (extent & Hextent & Hstep).
    destruct (isDynamic extent) eqn:Hdyn; [by injection Hstep as <- |].
    apply bind_Some in Hstep as (tile & Htile & Hstep).
    destruct (isDynamic tile) eqn:Htdyn.
    - by apply (assignZ_Forall _ shape shape' tiledDim kDynamic).
    - apply bind_Some in Hstep as (count & Hcount & Hstep).
      apply (assignZ_Forall _ shape shape' tiledDim count); [done | | done].
      eapply (ceilDiv_valid extent tile); try done.
      + exact (lookupZ_Forall (fun d => isValidExtent d = true) shape
                 tiledDim extent Hs Hextent).
      + exact (Forall_lookup_1 (fun t => isValidExtent t = true)
                 innerTileSizes idx tile Htiles Htile). }
  apply Forall_app. split; [| done].
  revert Hmoved. unfold interchange. apply foldM_invariant; [| done].
  intros vec [idx val] vec' Hvec Hstep.
  apply bind_Some in Hstep as (x & Hx & Hstep).
  apply (assignZ_Forall _ vec vec' (Z.of_nat idx + 0) x); [done | | done].
  exact (lookupZ_Forall (fun d => isValidExtent d = true) tiled (val + 0) x
           Hvalid Hx).
Qed.

(** X13: On a pack or unpack of ranked tensors or memrefs whose positions
    hold no key that the set of [isInvalid] reserves, whose unpacked extents
    are valid and whose constant tiles are not negative, the only undefined
    behaviour of the verifier is the read of a tile operand that is not
    there: whenever the tile sizes are readable the verifier returns a
    verdict, the checks that come first guarding every later access and
    division; and the packed type that the common verifier builds on the way
    has valid extents, as [RankedTensorType::get] and [MemRefType::get]
    assert.  (A reserved key among the positions fails the assertion of
    [DenseSet::insert], and a negative constant tile the one of the type
    builders; the definitions leave these two assertions out, hence the
    hypotheses.) *)
Theorem pack_unpack_verify_defined :
  (forall op : PackOp,
     Forall (fun d => isReservedKey d = false)
            (pack_inner_dims_pos op ++ pack_outer_dims_perm op) ->
     Forall (fun d => isValidExtent d = true) (getShape (pack_input op)) ->
     Forall (fun tile => isValidExtent tile = true)
            (pack_static_inner_tiles op) ->
     (PackOp_verify op = None <-> getMixedTiles op = None)
     /\ forall staticTiles expected,
          getStaticTiles op = Some staticTiles ->
          PackOp_getPackedType (pack_input op) staticTiles
            (pack_inner_dims_pos op) (pack_outer_dims_perm op)
          = Some expected ->
          Forall (fun d => isValidExtent d = true) (getShape expected))
  /\ (forall op : UnPackOp,
        Forall (fun d => isReservedKey d = false)
               (unpack_inner_dims_pos op ++ unpack_outer_dims_perm op) ->
        Forall (fun d => isValidExtent d = true)
               (getShape (unpack_output op)) ->
        Forall (fun tile => isValidExtent tile = true)
               (unpack_static_inner_tiles op) ->
        (UnPackOp_verify op = None <-> getMixedTiles op = None)
        /\ forall staticTiles expected,
             getStaticTiles op = Some staticTiles ->
             PackOp_getPackedType (unpack_output op) staticTiles
               (unpack_inner_dims_pos op) (unpack_outer_dims_perm op)
             = Some expected ->
             Forall (fun d => isValidExtent d = true) (getShape expected)).
Proof.
  assert (forall {OpTy} `{PackOrUnPack OpTy} (op : OpTy) sourceType
                 staticTiles expected,
            Forall (fun d => isValidExtent d = true) (getShape sourceType) ->
            Forall (fun tile => isValidExtent tile = true)
                   (getStaticInnerTiles op) ->
            getStaticTiles op = Some staticTiles ->
            PackOp_getPackedType sourceType staticTiles (getInnerDimsPos op)
              (getOuterDimsPerm op) = Some expected ->
            Forall (fun d => isValidExtent d = true) (getShape expected))
    as Hvalid.
  { intros OpTy ? op sourceType staticTiles expected Hsource Htiles Hstatic
           Hexpected.
    unfold getStaticTiles in Hstatic.
    apply bind_Some in Hstatic as (mixedTiles & Hmixed & [= <-]).
    rewrite (mixTiles_dispatch _ _ _ Hmixed) in Hexpected.
    unfold PackOp_getPackedType in Hexpected.
    apply bind_Some in Hexpected as (shape & Hshape & [= <-]).
    cbn [getShape].
    exact (getPackOpResultTypeShape_valid _ _ _ _ _ Hsource Htiles Hshape). }
  split; intros op _ Hsource Htiles;
    (split;
     [| intros staticTiles expected Hstatic Hexpected;
        exact (Hvalid _ _ op _ _ _ Hsource Htiles Hstatic Hexpected)]).
  - destruct (getMixedTiles op) as [mixedTiles |] eqn:Hmixed.
    + split; [| done]. intros Hnone. exfalso.
      unfold PackOp_verify in Hnone.
      destruct (commonVerifier_defined op mixedTiles Hmixed)
        as [common Hcommon].
      rewrite Hcommon in Hnone. cbn [mbind option_bind] in Hnone.
      destruct common as [| diag]; [| done].
      destruct (commonVerifier_success op Hcommon)
        as (tiles & Htiles' & Hz & _ & _ & Hlen & _).
      rewrite Hmixed in Htiles'. injection Htiles' as <-.
      unfold getDimAndTileMapping in Hnone. rewrite Hmixed in Hnone.
      cbn [mbind option_bind] in Hnone.
      rewrite bool_decide_eq_true_2 in Hnone by done.
      cbn [mbind option_bind] in Hnone.
      destruct (getPaddingValue op) as [paddingType |].
      * cbn [mbind option_bind] in Hnone.
        by destruct (bool_decide _) in Hnone.
      * unfold areNotFullTiles in Hnone.
        edestruct (areNotFullTilesFrom_defined) as [notFull HnotFull];
          [| rewrite HnotFull in Hnone].
        { intros d' tile' c' Hm Hc'.
          apply bindTile_from in Hm as [Hm | Hin]; [done |].
          apply list_elem_of_lookup in Hin as [k Hk].
          by eapply hasZeros_constant. }
        cbn [mbind option_bind] in Hnone. by destruct notFull.
    + split; [done |]. intros _. unfold PackOp_verify.
      unfold commonVerifierPackAndUnPackOp. by rewrite Hmixed.
  - destruct (getMixedTiles op) as [mixedTiles |] eqn:Hmixed.
    + split; [| done]. intros Hnone. exfalso.
      unfold UnPackOp_verify in Hnone.
      destruct (commonVerifier_defined op mixedTiles Hmixed)
        as [common Hcommon].
      rewrite Hcommon in Hnone. by destruct common.
    + split; [done |]. intros _. unfold UnPackOp_verify.
      unfold commonVerifierPackAndUnPackOp. by rewrite Hmixed.
Qed.

Lemma pack_unpack_verify_defined_witness :
  PackOp_verify (pack_10_by_3 (tensor [4; 3] f32) None) = None
  <-> getMixedTiles (pack_10_by_3 (tensor [4; 3] f32) None) = None.
Proof.
  refine (proj1 (proj1 pack_unpack_verify_defined
                   (pack_10_by_3 (tensor [4; 3] f32) None) _ _ _));
    simpl; repeat constructor.
Defined.

(** ** The packed shape, axis by axis *)

Lemma lookupZ_assign {A} (l : list A) (i j : Z) (x : A) :
  0 <= i < Z.of_nat (length l) ->
  lookupZ (<[Z.to_nat i := x]> l) j
  = if bool_decide (i = j) then Some x else lookupZ l j.
Proof.
  intros Hi. unfold lookupZ.
  destruct (decide (i = j)) as [<- | Hne].
  - rewrite !bool_decide_eq_true_2 by lia.
    apply list_lookup_insert_eq. lia.
  - rewrite (bool_decide_eq_false_2 (i = j)) by done.
    destruct (bool_decide (0 <= j)) eqn:Hj; [| done].
    apply bool_decide_eq_true in Hj.
    apply list_lookup_insert_ne. lia.
Qed.

Section TilingLoop.
Variable innerTileSizes : list Z.

Local Abbreviation tileStep :=
  (fun (resultShape : list Z) '(idx, tiledDim) =>
     extent ← lookupZ resultShape tiledDim;
     if isDynamic extent then Some resultShape
     else
       tile ← innerTileSizes !! idx;
       if isDynamic tile then assignZ resultShape tiledDim kDynamic
       else
         count ← ceilDiv extent tile;
         assignZ resultShape tiledDim count).

(** One iteration of the tiling loop of [getPackOpResultTypeShape]. *)
Lemma tileStep_lookup (resultShape resultShape' : list Z) (idx : nat)
    (tiledDim : Z) :
  tileStep resultShape (idx, tiledDim) = Some resultShape' ->
  length resultShape' = length resultShape
  /\ (forall d, d ≠ tiledDim -> lookupZ resultShape' d = lookupZ resultShape d)
  /\ exists extent,
       lookupZ resultShape tiledDim = Some extent
       /\ forall tile,
            innerTileSizes !! idx = Some tile ->
            in_int64 extent -> in_int64 tile ->
            lookupZ resultShape' tiledDim = Some (tileCountOf extent tile).
Proof.
  intros Hstep. apply bind_Some in Hstep as (extent & Hextent & Hstep).
  pose proof (lookupZ_lt _ _ _ Hextent) as Hrange.
  unfold tileCountOf.
  destruct (isDynamic extent) eqn:Hdyn.
  - injection Hstep as <-. split; [done |]. split; [done |].
    exists extent. split; [done |]. intros tile _ _ _.
    apply isDynamic_true in Hdyn. by subst.
  - apply bind_Some in Hstep as (tile & Htile & Hstep).
    destruct (isDynamic tile) eqn:Htdyn.
    + apply assignZ_Some in Hstep as [_ ->].
      split; [by rewrite length_insert |]. split.
      * intros d Hd. rewrite lookupZ_assign by done.
        by rewrite bool_decide_eq_false_2.
      * exists extent. split; [done |]. intros tile' Htile' _ _.
        rewrite Htile in Htile'. injection Htile' as <-.
        rewrite Hdyn, Htdyn, lookupZ_assign by done.
        by rewrite bool_decide_eq_true_2.
    + apply bind_Some in Hstep as (count & Hcount & Hstep).
      apply assignZ_Some in Hstep as [_ ->].
      split; [by rewrite length_insert |]. split.
      * intros d Hd. rewrite lookupZ_assign by done.
        by rewrite bool_decide_eq_false_2.
      * exists extent. split; [done |]. intros tile' Htile' Hein Htin.
        rewrite Htile in Htile'. injection Htile' as <-.
        rewrite Hdyn, Htdyn, lookupZ_assign by done.
        rewrite bool_decide_eq_true_2 by done.
        assert (tile ≠ 0) as Hnz.
        { intros ->. unfold ceilDiv in Hcount.
          by rewrite bool_decide_eq_true_2 in Hcount. }
        rewrite ceilDiv_ceiling in Hcount.
        -- by injection Hcount as ->.
        -- done.
        -- done.
        -- by apply isDynamic_false in Hdyn.
        -- done.
Qed.

(** The tiling loop over pairwise distinct positions: an axis that is not
    tiled keeps its extent, a tiled one takes its tile count. *)
Lemma tileLoop_lookup (items : list (nat * Z)) :
  forall resultShape resultShape' : list Z,
  NoDup items.*2 ->
  foldM tileStep resultShape items = Some resultShape' ->
  length resultShape' = length resultShape
  /\ (forall d, d ∉ items.*2 -> lookupZ resultShape' d = lookupZ resultShape d)
  /\ forall idx tiledDim,
       (idx, tiledDim) ∈ items ->
       exists extent,
         lookupZ resultShape tiledDim = Some extent
         /\ forall tile,
              innerTileSizes !! idx = Some tile ->
              in_int64 extent -> in_int64 tile ->
              lookupZ resultShape' tiledDim = Some (tileCountOf extent tile).
Proof.
  induction items as [| [idx0 d0] items IH]; intros resultShape resultShape'.
  - intros _ [= <-]. split; [done |]. split; [done |].
    intros idx d Hin. by inversion Hin.
  - rewrite fmap_cons. cbn [snd foldM].
    intros [Hfresh Hnodup]%list.NoDup_cons Hloop.
    apply bind_Some in Hloop as (mid & Hstep & Hloop).
    apply tileStep_lookup in Hstep as (Hlen0 & Hother0 & e0 & He0 & Hcount0).
    destruct (IH _ _ Hnodup Hloop) as (Hlen & Hother & Htiled).
    split; [congruence |]. split.
    + intros d Hd. apply not_elem_of_cons in Hd as [Hne Hd].
      rewrite Hother by done. by apply Hother0.
    + intros idx d [[= -> ->] | Hin]%elem_of_cons.
      * exists e0. split; [done |]. intros tile Htile Hein Htin.
        rewrite Hother by done. by apply Hcount0.
      * destruct (Htiled idx d Hin) as (extent & Hextent & Hcount).
        assert (d ≠ d0) as Hne.
        { intros ->. apply Hfresh. apply list_elem_of_fmap.
          by exists (idx, d0). }
        exists extent. split; [by rewrite <- Hother0 |]. done.
Qed.

End TilingLoop.

Lemma enumerate_snd {A} (l : list A) : (enumerate l).*2 = l.
Proof.
  unfold enumerate. apply list_eq. intros i.
  rewrite list_lookup_fmap, list_lookup_imap. by destruct (l !! i).
Qed.

(** X14: The shape algebra of the pack without an outer permutation, for
    pairwise distinct inner positions: the packed shape is the source shape,
    with the tile count at each tiled axis, followed by the tile sizes in the
    order of the inner positions. *)
Theorem packed_shape_without_permutation
    (sourceShape innerTileSizes innerDimsPos resultShape : list Z) :
  NoDup innerDimsPos ->
  getPackOpResultTypeShape sourceShape innerTileSizes innerDimsPos []
  = Some resultShape ->
  exists outer,
    resultShape = outer ++ innerTileSizes
    /\ length outer = length sourceShape
    /\ (forall d, d ∉ innerDimsPos -> lookupZ outer d = lookupZ sourceShape d)
    /\ forall (idx : nat) tiledDim,
         innerDimsPos !! idx = Some tiledDim ->
         exists extent,
           lookupZ sourceShape tiledDim = Some extent
           /\ forall tile,
                innerTileSizes !! idx = Some tile ->
                in_int64 extent -> in_int64 tile ->
                lookupZ outer tiledDim = Some (tileCountOf extent tile).
Proof.
  intros Hnodup Hshape. unfold getPackOpResultTypeShape in Hshape.
  apply bind_Some in Hshape as (outer & Hloop & Hshape).
  rewrite interchange_nil in Hshape. cbn [mbind option_bind] in Hshape.
  injection Hshape as <-.
  apply tileLoop_lookup in Hloop as (Hlen & Hother & Htiled);
    [| by rewrite enumerate_snd].
  exists outer. rewrite enumerate_snd in Hother.
  split_and!; try done.
  intros idx tiledDim Hidx. apply Htiled. by apply enumerate_elem_of.
Qed.

Lemma packed_shape_without_permutation_witness :
  exists outer,
    [7; 4; 5; 3] = outer ++ [3]
    /\ length outer = length [7; 10; 5]
    /\ (forall d, d ∉ [1] -> lookupZ outer d = lookupZ [7; 10; 5] d)
    /\ forall (idx : nat) tiledDim,
         [1] !! idx = Some tiledDim ->
         exists extent,
           lookupZ [7; 10; 5] tiledDim = Some extent
           /\ forall tile,
                [3] !! idx = Some tile ->
                in_int64 extent -> in_int64 tile ->
                lookupZ outer tiledDim = Some (tileCountOf extent tile).
Proof.
  apply (packed_shape_without_permutation [7; 10; 5] [3] [1] [7; 4; 5; 3]);
    [apply NoDup_singleton | reflexivity].
Defined.
(** ** The packed type is large enough *)

Lemma commonVerifier_expected {OpTy : Type} `{PackOrUnPack OpTy} (op : OpTy) :
  commonVerifierPackAndUnPackOp op = Some success ->
  exists expected,
    getPackOpResultTypeShape (getShape (unpackedTypeOf op))
      (getStaticInnerTiles op) (getInnerDimsPos op) (getOuterDimsPerm op)
    = Some expected
    /\ length expected = length (getShape (packedTypeOf op))
    /\ allSmaller expected (getShape (packedTypeOf op)) = true.
Proof.
  unfold commonVerifierPackAndUnPackOp.
  fold (unpackedTypeOf op). fold (packedTypeOf op). intros Hv.
  verify_inv Hv. do 6 verify_inv Hv.
  do 3 verify_inv Hv. verify_inv Hv. clear Hv.
  unfold getStaticTiles in Hdef0. rewrite Hdef in Hdef0.
  cbn [mbind option_bind] in Hdef0. injection Hdef0 as <-.
  rewrite (mixTiles_dispatch _ _ _ Hdef) in Hdef1.
  unfold PackOp_getPackedType in Hdef1.
  apply bind_Some in Hdef1 as (expected & Hexpected & [= <-]).
  cbn [getShape] in Hdef2. unfold isSmallerThan in Hdef2.
  exists expected. split; [done |].
  destruct (decide (length expected = length (getShape (packedTypeOf op))))
    as [Hlen | Hlen]; [| by rewrite bool_decide_eq_false_2 in Hdef2].
  rewrite bool_decide_eq_true_2 in Hdef2 by done. injection Hdef2 as <-.
  by apply negb_false_iff in Hcheck5.
Qed.

Lemma allSmaller_lookup sourceShape : forall limitShape (j : nat) a b,
  allSmaller sourceShape limitShape = true ->
  sourceShape !! j = Some a -> limitShape !! j = Some b ->
  isDynamic a = true \/ isDynamic b = true \/ a <= b.
Proof.
  induction sourceShape as [| s0 sourceShape IH];
    intros [| l0 limitShape] j a b Hall Ha Hb; try done.
  cbn [allSmaller] in Hall. apply andb_true_iff in Hall as [Hhead Hall].
  destruct j as [| j]; [| by apply (IH limitShape j)].
  cbn in Ha, Hb. injection Ha as <-. injection Hb as <-.
  apply orb_true_iff in Hhead as [Hhead | Hle];
    [apply orb_true_iff in Hhead as [? | ?]; by eauto |].
  apply bool_decide_eq_true in Hle. by eauto.
Qed.

Lemma enumerate_fst {A} (l : list A) : (enumerate l).*1 = seq 0 (length l).
Proof.
  unfold enumerate. apply list_eq. intros i.
  rewrite list_lookup_fmap, list_lookup_imap.
  destruct (l !! i) eqn:Hi; cbn.
  - apply lookup_lt_Some in Hi. by rewrite lookup_seq_lt.
  - apply lookup_ge_None in Hi. by rewrite lookup_seq_ge.
Qed.

(** The loop of [interchange] on distinct indices. *)
Lemma interchangeLoop_lookup {T} (elements : list T) (items : list (nat * Z)) :
  forall acc vec : list T,
  NoDup items.*1 ->
  foldM (fun vec '(idx, val) =>
           x ← lookupZ elements (val + 0);
           assignZ vec (Z.of_nat idx + 0) x) acc items = Some vec ->
  length vec = length acc
  /\ (forall j : nat, j ∉ items.*1 -> vec !! j = acc !! j)
  /\ forall idx val, (idx, val) ∈ items -> vec !! idx = lookupZ elements val.
Proof.
  induction items as [| [idx0 val0] items IH]; intros acc vec.
  - intros _ [= <-]. split; [done |]. split; [done |].
    intros idx val Hin. by inversion Hin.
  - rewrite fmap_cons. cbn [fst foldM].
    intros [Hfresh Hnodup]%list.NoDup_cons Hloop.
    apply bind_Some in Hloop as (mid & Hstep & Hloop).
    apply bind_Some in Hstep as (x & Hx & Hstep).
    rewrite Z.add_0_r in Hx, Hstep.
    apply assignZ_Some in Hstep as [Hidx0 ->]. rewrite Nat2Z.id in *.
    destruct (IH _ _ Hnodup Hloop) as (Hlen & Hother & Hmoved).
    rewrite length_insert in Hlen. split; [done |]. split.
    + intros j Hj. apply not_elem_of_cons in Hj as [Hne Hj].
      rewrite Hother by done. by apply list_lookup_insert_ne.
    + intros idx val [[= -> ->] | Hin]%elem_of_cons.
      * rewrite Hother by done. rewrite Hx. apply list_lookup_insert_eq. lia.
      * by apply Hmoved.
Qed.

(** [interchange] moves the entry at [interchangeVector[idx]] to [idx] and
    leaves the entries behind the vector where they are. *)
Lemma interchange_lookup {T} (elements vec : list T) (perm : list Z) :
  interchange elements perm 0 = Some vec ->
  length vec = length elements
  /\ (forall j : nat, (length perm <= j)%nat -> vec !! j = elements !! j)
  /\ forall (idx : nat) val,
       perm !! idx = Some val -> vec !! idx = lookupZ elements val.
Proof.
  unfold interchange. intros Hloop.
  apply interchangeLoop_lookup in Hloop as (Hlen & Hother & Hmoved);
    [| rewrite enumerate_fst; apply NoDup_seq].
  split; [done |]. split.
  - intros j Hj. apply Hother. rewrite enumerate_fst.
    intros Hin%elem_of_seq. lia.
  - intros idx val Hidx. apply Hmoved. by apply enumerate_elem_of.
Qed.

Lemma ceiling_static e t :
  in_int64 e -> e ≠ int64_min -> t ≠ 0 -> ceiling e t ≠ int64_min.
Proof.
  unfold in_int64, int64_min, int64_max. intros He Hmin Ht.
  destruct (Z.lt_trichotomy t 0) as [Hneg | [-> | Hpos]]; [| done |].
  - pose proof (ceiling_neg e t Hneg). nia.
  - pose proof (ceiling_pos e t Hpos). nia.
Qed.

(** The axis of the unpacked shape that the outer axis [j] of the packed
    shape comes from. *)
Lemma packed_outer_axis (sourceShape innerTileSizes innerDimsPos outerDimsPerm
    resultShape : list Z) (j : nat) (d e : Z) :
  NoDup innerDimsPos ->
  getPackOpResultTypeShape sourceShape innerTileSizes innerDimsPos
                           outerDimsPerm = Some resultShape ->
  (outerDimsPerm !! j = Some d
   \/ (length outerDimsPerm <= j)%nat /\ d = Z.of_nat j) ->
  lookupZ sourceShape d = Some e ->
  (d ∉ innerDimsPos -> resultShape !! j = Some e)
  /\ forall (idx : nat) tile,
       innerDimsPos !! idx = Some d ->
       innerTileSizes !! idx = Some tile ->
       in_int64 e -> in_int64 tile ->
       resultShape !! j = Some (tileCountOf e tile).
Proof.
  intros Hnodup Hshape Haxis He. unfold getPackOpResultTypeShape in Hshape.
  apply bind_Some in Hshape as (outer & Hloop & Hshape).
  apply bind_Some in Hshape as (permuted & Hperm & [= <-]).
  apply tileLoop_lookup in Hloop as (Hlen & Hother & Htiled);
    [| by rewrite enumerate_snd].
  rewrite enumerate_snd in Hother.
  apply interchange_lookup in Hperm as (Hplen & Hstay & Hmoved).
  pose proof (lookupZ_lt _ _ _ He) as Hd.
  assert (Hj : permuted !! j = lookupZ outer d).
  { destruct Haxis as [Hj | [Hj ->]].
    - by apply Hmoved.
    - rewrite Hstay by done. by rewrite lookupZ_of_nat. }
  assert (Hjlt : (j < length permuted)%nat).
  { apply lookup_lt_is_Some. rewrite Hj. unfold lookupZ.
    rewrite bool_decide_eq_true_2 by lia. apply lookup_lt_is_Some. lia. }
  rewrite lookup_app_l by done. rewrite Hj. split.
  - intros Hnot. rewrite Hother by done. done.
  - intros idx tile Hidx Htile Hein Htin.
    destruct (Htiled idx d) as (e' & He' & Hcount);
      [by apply enumerate_elem_of |].
    rewrite He in He'. injection He' as <-. by apply Hcount.
Qed.

Lemma commonVerifier_extents {OpTy : Type} `{PackOrUnPack OpTy} (op : OpTy)
    (j : nat) (d e p : Z) :
  commonVerifierPackAndUnPackOp op = Some success ->
  (getOuterDimsPerm op !! j = Some d
   \/ (length (getOuterDimsPerm op) <= j)%nat /\ d = Z.of_nat j) ->
  lookupZ (getShape (unpackedTypeOf op)) d = Some e ->
  isDynamic e = false -> in_int64 e ->
  getShape (packedTypeOf op) !! j = Some p -> isDynamic p = false ->
  (d ∉ getInnerDimsPos op -> e <= p)
  /\ forall (idx : nat) tile,
       getInnerDimsPos op !! idx = Some d ->
       getStaticInnerTiles op !! idx = Some tile ->
       isDynamic tile = false -> in_int64 tile ->
       ceiling e tile <= p.
Proof.
  intros Hv Haxis He Hestatic Hein Hp Hpstatic.
  destruct (commonVerifier_expected op Hv) as (expected & Hexpected & _ & Hall).
  destruct (commonVerifier_success op Hv)
    as (mixedTiles & Hmixed & Hz & Hpos & _).
  apply isInvalid_false in Hpos as (_ & Hnodup & _).
  destruct (packed_outer_axis _ _ _ _ _ j d e Hnodup Hexpected Haxis He)
    as [Hplain Htiled].
  split.
  - intros Hnot.
    destruct (allSmaller_lookup _ _ j e p Hall (Hplain Hnot) Hp)
      as [? | [? | ?]]; [congruence | congruence | done].
  - intros idx tile Hidx Htile Htstatic Htin.
    specialize (Htiled idx tile Hidx Htile Hein Htin).
    unfold tileCountOf in Htiled. rewrite Hestatic, Htstatic in Htiled.
    destruct (allSmaller_lookup _ _ j _ p Hall Htiled Hp)
      as [Hdyn | [? | ?]]; [| congruence | done].
    exfalso. apply isDynamic_true in Hdyn. revert Hdyn.
    apply ceiling_static; [done | by apply isDynamic_false in Hestatic |].
    intros ->.
    pose proof (mixTiles_dispatch _ _ _ Hmixed) as Hstatic.
    apply (hasZeros_static mixedTiles) in Hz. rewrite Hstatic in Hz.
    rewrite List.Forall_forall in Hz.
    apply (Hz 0); [| done].
    apply list_elem_of_In, list_elem_of_lookup. by exists idx.
Qed.

(** X15: A verified pack or unpack has a packed type that is large enough: a
    static outer axis of the packed type, taken back through [outer_dims_perm]
    to the axis [d] of the unpacked type, is at least the static extent of [d]
    when [d] is not tiled, and at least the ceiling of that extent by the
    static tile size when it is. *)
Theorem verified_packed_extents :
  (forall (op : PackOp) (j : nat) (d e p : Z),
     PackOp_verify op = Some success ->
     (pack_outer_dims_perm op !! j = Some d
      \/ (length (pack_outer_dims_perm op) <= j)%nat /\ d = Z.of_nat j) ->
     lookupZ (getShape (pack_input op)) d = Some e ->
     isDynamic e = false -> in_int64 e ->
     getShape (pack_output op) !! j = Some p -> isDynamic p = false ->
     (d ∉ pack_inner_dims_pos op -> e <= p)
     /\ forall (idx : nat) tile,
          pack_inner_dims_pos op !! idx = Some d ->
          pack_static_inner_tiles op !! idx = Some tile ->
          isDynamic tile = false -> in_int64 tile ->
          ceiling e tile <= p)
  /\ (forall (op : UnPackOp) (j : nat) (d e p : Z),
        UnPackOp_verify op = Some success ->
        (unpack_outer_dims_perm op !! j = Some d
         \/ (length (unpack_outer_dims_perm op) <= j)%nat /\ d = Z.of_nat j) ->
        lookupZ (getShape (unpack_output op)) d = Some e ->
        isDynamic e = false -> in_int64 e ->
        getShape (unpack_input op) !! j = Some p -> isDynamic p = false ->
        (d ∉ unpack_inner_dims_pos op -> e <= p)
        /\ forall (idx : nat) tile,
             unpack_inner_dims_pos op !! idx = Some d ->
             unpack_static_inner_tiles op !! idx = Some tile ->
             isDynamic tile = false -> in_int64 tile ->
             ceiling e tile <= p).
Proof.
  split.
  - intros op j d e p Hv%PackOp_verify_common.
    apply (commonVerifier_extents op j d e p Hv).
  - intros op j d e p Hv%UnPackOp_verify_common.
    apply (commonVerifier_extents op j d e p Hv).
Qed.

Lemma verified_packed_extents_witness :
  (0 ∉ pack_inner_dims_pos
         (pack_10_by_3 (tensor [4; 3] f32) (Some (Scalar f32))) -> 10 <= 4)
  /\ forall (idx : nat) tile,
       pack_inner_dims_pos
         (pack_10_by_3 (tensor [4; 3] f32) (Some (Scalar f32))) !! idx
       = Some 0 ->
       pack_static_inner_tiles
         (pack_10_by_3 (tensor [4; 3] f32) (Some (Scalar f32))) !! idx
       = Some tile ->
       isDynamic tile = false -> in_int64 tile ->
       ceiling 10 tile <= 4.
Proof.
  apply (proj1 verified_packed_extents
           (pack_10_by_3 (tensor [4; 3] f32) (Some (Scalar f32)))
           0%nat 0 10 4);
    [reflexivity | right; split; [simpl; lia | reflexivity] | reflexivity
    | reflexivity | unfold in_int64, int64_min, int64_max; lia | reflexivity
    | reflexivity].
Defined.

(** ** ScatterOp: the update fits into the original *)

Lemma llvm_seq_Some (Begin End : Z) :
  0 <= Begin <= End -> End < 2 ^ 32 ->
  llvm_seq Begin End = Some (seqZ Begin (End - Begin)).
Proof.
  intros Hb He. unfold llvm_seq. rewrite !to_unsigned_id by lia.
  by rewrite bool_decide_eq_true_2 by lia.
Qed.

Lemma zip_seqZ_elem (a b n m k : Z) :
  0 <= k < n -> k < m -> (a + k, b + k) ∈ zip (seqZ a n) (seqZ b m).
Proof.
  intros Hk Hm. apply list_elem_of_lookup. exists (Z.to_nat k).
  apply lookup_zip_with_Some. exists (a + k), (b + k).
  split; [done |].
  rewrite !lookup_seqZ_lt by lia. rewrite Z2Nat.id by lia. done.
Qed.

Lemma scatterDimExceeds_false originalType updateType originalDim updateDim
    u o :
  scatterDimExceeds originalType updateType originalDim updateDim
  = Some false ->
  getDimSize updateType updateDim = Some u ->
  getDimSize originalType originalDim = Some o ->
  isDynamic o = false -> u <= o.
Proof.
  unfold scatterDimExceeds, isDynamicDim. intros Hex Hu Ho Hstatic.
  rewrite Ho in Hex. cbn in Hex. rewrite Hstatic in Hex. cbn in Hex.
  rewrite Hu in Hex. cbn in Hex. injection Hex as Hex.
  apply bool_decide_eq_false in Hex. lia.
Qed.

(** X16: In an accepted scatter the slices of the update fit into the
    original: with the shapes aligned at their last axes, every extent of the
    update behind the first is at most the extent of the original at the same
    place, wherever the original is static. The two loops of the verifier,
    over the sliced and over the indexed dimensions, check the same alignment. *)
Theorem scatter_update_fits (op : ScatterOp) (updateDim u o : Z) :
  ScatterOp_verify op = Some success ->
  getRank (getOriginalType op) < 2 ^ 32 ->
  getRank (getUpdateType op) < 2 ^ 32 ->
  1 <= updateDim < getRank (getUpdateType op) ->
  getDimSize (getUpdateType op) updateDim = Some u ->
  getDimSize (getOriginalType op)
             (updateDim + getRank (getOriginalType op)
              - getRank (getUpdateType op)) = Some o ->
  isDynamic o = false ->
  u <= o.
Proof.
  intros Hv Horank Hurank Hdim Hu Ho Hstatic.
  unfold ScatterOp_verify in Hv.
  do 3 verify_inv Hv. apply bind_Some in Hv as (indexDepth & _ & Hv).
  do 4 verify_inv Hv. do 4 verify_inv Hv.
  apply bool_decide_eq_false, dec_stable in Hcheck3.
  apply isInvalid_false in Hcheck4 as (Hdepth & _ & _).
  apply bool_decide_eq_false in Hcheck5, Hcheck7, Hcheck8.
  set (originalRank := getRank (getOriginalType op)) in *.
  set (updateRank := getRank (getUpdateType op)) in *.
  assert (0 <= indexDepth) as Hdepth0 by lia.
  rewrite (llvm_seq_Some indexDepth originalRank) in Hv by lia.
  rewrite (llvm_seq_Some (updateRank - (originalRank - indexDepth))
             updateRank) in Hv by lia.
  rewrite (llvm_seq_Some (originalRank - updateRank + 1) indexDepth)
    in Hv by lia.
  rewrite (llvm_seq_Some 1 (updateRank - (originalRank - indexDepth)))
    in Hv by lia.
  cbn [mbind option_bind] in Hv.
  rewrite (zip_equal_defined (seqZ indexDepth _) (seqZ (updateRank - _) _))
    in Hv by (rewrite !length_seqZ; lia).
  rewrite (zip_equal_defined (seqZ (originalRank - updateRank + 1) _)
             (seqZ 1 _)) in Hv by (rewrite !length_seqZ; lia).
  cbn [mbind option_bind] in Hv.
  verify_inv Hv. destruct x0 as [| diag]; [| done].
  verify_inv Hv. destruct x0 as [| diag]; [| done]. clear Hv.
  set (originalDim := updateDim + originalRank - updateRank) in *.
  destruct (decide (indexDepth <= originalDim)) as [Hslice | Hindexed].
  - pose proof (verifyEach_success _ _ Hdef0 (originalDim, updateDim)) as Hbody.
    cbn beta iota in Hbody.
    replace originalDim with (indexDepth + (originalDim - indexDepth))
      in Hbody at 1 by lia.
    replace updateDim
      with (updateRank - (originalRank - indexDepth)
            + (originalDim - indexDepth)) in Hbody at 1
      by (unfold originalDim; lia).
    specialize (Hbody ltac:(apply zip_seqZ_elem; unfold originalDim; lia)).
    verify_inv Hbody. destruct x0; [done |].
    by apply (scatterDimExceeds_false _ _ _ _ _ _ Hdef2).
  - pose proof (verifyEach_success _ _ Hdef1 (originalDim, updateDim)) as Hbody.
    cbn beta iota in Hbody.
    replace originalDim
      with (originalRank - updateRank + 1
            + (originalDim - (originalRank - updateRank + 1)))
      in Hbody at 1 by lia.
    replace updateDim
      with (1 + (originalDim - (originalRank - updateRank + 1)))
      in Hbody at 1 by (unfold originalDim; lia).
    specialize (Hbody ltac:(apply zip_seqZ_elem; unfold originalDim; lia)).
    verify_inv Hbody. destruct x0.
    + do 2 verify_inv Hbody. done.
    + by apply (scatterDimExceeds_false _ _ _ _ _ _ Hdef2).
Qed.
Lemma scatter_update_fits_witness : 4 <= 4.
Proof.
  apply (scatter_update_fits (scatter_example 1 [5; 4] f32 (combiner f32))
           1 4 4);
    [reflexivity | reflexivity | reflexivity | unfold getRank; simpl; lia
    | reflexivity | reflexivity | reflexivity].
Defined.

(** X17: What an accepted scatter is made of: two inputs and one output;
    indices of rank 2 of [i32] whose first extent is the first extent of the
    updates (a dynamic extent being equal to a dynamic one only); a dimension
    map of as many distinct axes of the original as the index depth; ranks
    such that the index depth and the update slices cover the original; and a
    region that combines two scalars of the element type shared by the updates
    and the original into one. *)
Theorem scatter_verified_operands (op : ScatterOp) :
  ScatterOp_verify op = Some success ->
  length (scatter_getInputs op) = 2%nat
  /\ length (scatter_getOutputs op) = 1%nat
  /\ getRank (getIndicesType op) = 2
  /\ getElementType (getIndicesType op) = IntegerType 32
  /\ (exists batch,
        getDimSize (getIndicesType op) 0 = Some batch
        /\ getDimSize (getUpdateType op) 0 = Some batch)
  /\ getIndexDepth op = Some (Z.of_nat (length (getDimensionMap op)))
  /\ NoDup (getDimensionMap op)
  /\ Forall (fun d => 0 <= d < getRank (getOriginalType op))
            (getDimensionMap op)
  /\ getRank (getUpdateType op) - 1 <= getRank (getOriginalType op)
     <= Z.of_nat (length (getDimensionMap op))
        + getRank (getUpdateType op) - 1
  /\ getElementType (getUpdateType op) = getElementType (getOriginalType op)
  /\ Ty_isIntOrFloat
       (getComplexElementTypeOrSelf
          (Scalar (getElementType (getUpdateType op)))) = true
  /\ getArguments (scatter_body op)
     = [Scalar (getElementType (getUpdateType op));
        Scalar (getElementType (getUpdateType op))]
  /\ getTerminator (scatter_body op)
     = YieldOp [Scalar (getElementType (getUpdateType op))].
Proof.
  intros Hv. unfold ScatterOp_verify in Hv.
  do 3 verify_inv Hv.
  apply bind_Some in Hv as (indexDepth & HindexDepth & Hv).
  do 4 verify_inv Hv. do 4 verify_inv Hv.
  apply bool_decide_eq_false, dec_stable in Hcheck, Hcheck0, Hcheck3.
  subst indexDepth.
  apply orb_false_iff in Hcheck1 as [Hrank Hint].
  apply bool_decide_eq_false, dec_stable in Hrank.
  apply negb_false_iff, isInteger_eq in Hint.
  apply isInvalid_false in Hcheck4 as (_ & Hnodup & Hrange).
  apply bool_decide_eq_false in Hcheck5, Hcheck7, Hcheck8.
  apply bind_Some in Hdef as (d1 & Hd1 & Hdef).
  apply bind_Some in Hdef as (d2 & Hd2 & [= <-]).
  apply negb_false_iff, bool_decide_eq_true in Hcheck6. subst d2.
  do 4 verify_inv Hv. destruct x2 as [| diag]; [| done].
  do 4 verify_inv Hv. destruct x5 as [| diag]; [| done].
  repeat verify_inv Hv. clear Hv.
  repeat match goal with
         | Hne : bool_decide (_ ≠ _) = false |- _ =>
             apply bool_decide_eq_false, dec_stable in Hne
         end.
  match goal with
  | Hor : negb (Ty_isIntOrFloat _) || _ = false |- _ =>
      apply orb_false_iff in Hor as [Harg0 _]; apply negb_false_iff in Harg0
  end.
  destruct (getArguments (scatter_body op)) as [| a0 [| a1 [| ? ?]]] eqn:Hargs;
    try done.
  unfold castYieldOp in *.
  destruct (getTerminator (scatter_body op)) as [operands |] eqn:Hterm;
    [| done].
  simplify_eq/=.
  match goal with
  | Hone : length ?l = 1%nat |- _ => destruct l as [| y [| ? ?]]; try done
  end.
  simplify_eq/=.
  split_and!; try done; try lia.
  - by exists d1.
  - match goal with
    | Helem : getElementType _ = getElementType _ |- _ => by rewrite Helem
    end.
Qed.

Lemma scatter_verified_operands_witness :
  getElementType (getUpdateType (scatter_example 1 [5; 4] f32 (combiner f32)))
  = getElementType (getOriginalType
                      (scatter_example 1 [5; 4] f32 (combiner f32))).
Proof.
  apply (scatter_verified_operands
           (scatter_example 1 [5; 4] f32 (combiner f32))).
  reflexivity.
Defined.

(** ** ScatterOp: the verifier stays within bounds *)

Lemma getDimSize_defined (t : ShapedType) (i : Z) :
  0 <= i < getRank t -> exists d, getDimSize t i = Some d.
Proof.
  unfold getDimSize, getRank, lookupZ. intros Hi.
  rewrite bool_decide_eq_true_2 by lia.
  apply lookup_lt_is_Some. lia.
Qed.

Lemma scatterDimExceeds_defined originalType updateType originalDim updateDim :
  0 <= originalDim < getRank originalType ->
  0 <= updateDim < getRank updateType ->
  exists exceeds,
    scatterDimExceeds originalType updateType originalDim updateDim
    = Some exceeds
    /\ exists u o, getDimSize updateType updateDim = Some u
                   /\ getDimSize originalType originalDim = Some o.
Proof.
  intros Ho Hu. unfold scatterDimExceeds, isDynamicDim.
  destruct (getDimSize_defined _ _ Ho) as [o Hosize].
  destruct (getDimSize_defined _ _ Hu) as [u Husize].
  rewrite Hosize, Husize. cbn.
  destruct (isDynamic o); cbn; eexists; (split; [done |]); by exists u, o.
Qed.

Lemma elem_of_zip_seqZ (a b n m x y : Z) :
  (x, y) ∈ zip (seqZ a n) (seqZ b m) -> a <= x < a + n /\ b <= y < b + m.
Proof.
  intros Hin. split.
  - apply elem_of_zip_l in Hin. by apply elem_of_seqZ in Hin.
  - apply elem_of_zip_r in Hin. by apply elem_of_seqZ in Hin.
Qed.

(** X18: [ScatterOp::verify] returns a verdict on every scatter whose region
    ends in a yield and whose dimension map holds no key that the set of
    [isInvalid] reserves: the rank checks that come first keep the read of
    the index depth, the two loops over the dimensions and every access to a
    shape within bounds.  (A reserved key in the dimension map fails the
    assertion of [DenseSet::insert], which [isInvalid] leaves out; hence the
    hypothesis.) *)
Theorem ScatterOp_verify_defined (op : ScatterOp) :
  getRank (getOriginalType op) < 2 ^ 32 ->
  getRank (getUpdateType op) < 2 ^ 32 ->
  Forall (fun dim => isReservedKey dim = false) (getDimensionMap op) ->
  getTerminator (scatter_body op) ≠ OtherTerminator ->
  exists result, ScatterOp_verify op = Some result.
Proof.
  intros Horank Hurank _ Hterm. unfold ScatterOp_verify, emitOpError.
  destruct (bool_decide (length (scatter_getInputs op) ≠ 2%nat));
    [by eexists |].
  destruct (bool_decide (length (scatter_getOutputs op) ≠ 1%nat));
    [by eexists |].
  destruct (bool_decide (getRank (getIndicesType op) ≠ 2) || _) eqn:Hidx;
    [by eexists |].
  apply orb_false_iff in Hidx as [Hidx _].
  apply bool_decide_eq_false, dec_stable in Hidx.
  assert (exists indexDepth, getIndexDepth op = Some indexDepth)
    as [indexDepth ->].
  { unfold getIndexDepth, getRank in *.
    destruct (getShape (getIndicesType op)) as [| batch [| depth [| ? ?]]];
      cbn in Hidx; try lia.
    by exists depth. }
  cbn [mbind option_bind].
  destruct (isDynamic indexDepth); [by eexists |].
  destruct (bool_decide (Z.of_nat (length (getDimensionMap op)) ≠ _))
    eqn:Hdepth; [by eexists |].
  apply bool_decide_eq_false, dec_stable in Hdepth.
  destruct (isInvalid _ _) eqn:Hmap; [by eexists |].
  apply isInvalid_false in Hmap as (Hmaplen & _ & _).
  destruct (bool_decide (getRank (getUpdateType op) < 1)) eqn:Hupdate;
    [by eexists |].
  apply bool_decide_eq_false in Hupdate.
  destruct (getDimSize_defined (getIndicesType op) 0) as [d1 Hd1]; [lia |].
  destruct (getDimSize_defined (getUpdateType op) 0) as [d2 Hd2]; [lia |].
  rewrite Hd1, Hd2. cbn [mbind option_bind].
  destruct (negb _); [by eexists |].
  destruct (bool_decide (_ - 1 > _)) eqn:Hexceeds; [by eexists |].
  apply bool_decide_eq_false in Hexceeds.
  destruct (bool_decide (_ > _ + _ - 1)) eqn:Hcover; [by eexists |].
  apply bool_decide_eq_false in Hcover.
  set (originalRank := getRank (getOriginalType op)) in *.
  set (updateRank := getRank (getUpdateType op)) in *.
  rewrite (llvm_seq_Some indexDepth originalRank) by lia.
  rewrite (llvm_seq_Some (updateRank - (originalRank - indexDepth))
             updateRank) by lia.
  rewrite (llvm_seq_Some (originalRank - updateRank + 1) indexDepth) by lia.
  rewrite (llvm_seq_Some 1 (updateRank - (originalRank - indexDepth)))
    by lia.
  cbn [mbind option_bind].
  rewrite (zip_equal_defined (seqZ indexDepth _) (seqZ (updateRank - _) _))
    by (rewrite !length_seqZ; lia).
  rewrite (zip_equal_defined (seqZ (originalRank - updateRank + 1) _)
             (seqZ 1 _)) by (rewrite !length_seqZ; lia).
  cbn [mbind option_bind].
  match goal with
  | |- exists result, verifyEach ?body ?l ≫= _ = _ =>
      destruct (verifyEach_defined body l) as [sliceOk ->]
  end.
  { intros [originalDim updateDim] [Ho Hu]%elem_of_zip_seqZ.
    destruct (scatterDimExceeds_defined (getOriginalType op)
                (getUpdateType op) originalDim updateDim)
      as (exceeds & -> & _); [fold originalRank; lia | fold updateRank; lia |].
    cbn [mbind option_bind]. destruct exceeds; by eexists. }
  cbn [mbind option_bind]. destruct sliceOk as [| diag]; [| by eexists].
  match goal with
  | |- exists result, verifyEach ?body ?l ≫= _ = _ =>
      destruct (verifyEach_defined body l) as [indexedOk ->]
  end.
  { intros [originalDim updateDim] [Ho Hu]%elem_of_zip_seqZ.
    destruct (scatterDimExceeds_defined (getOriginalType op)
                (getUpdateType op) originalDim updateDim)
      as (exceeds & -> & u & o & -> & ->);
      [fold originalRank; lia | fold updateRank; lia |].
    cbn [mbind option_bind]. destruct exceeds; by eexists. }
  cbn [mbind option_bind]. destruct indexedOk as [| diag]; [| by eexists].
  destruct (getArguments (scatter_body op)) as [| a0 [| a1 [| ? ?]]];
    try (by eexists).
  cbn [length lookup list_lookup mbind option_bind].
  rewrite (bool_decide_eq_false_2 (2%nat ≠ 2%nat)) by (by intros ?).
  destruct (negb _ || _); [by eexists |].
  destruct (bool_decide (a0 ≠ _)); [by eexists |].
  destruct (bool_decide (a1 ≠ _)); [by eexists |].
  destruct (bool_decide (a0 ≠ a1)); [by eexists |].
  unfold castYieldOp.
  destruct (getTerminator (scatter_body op)) as [operands |]; [| done].
  cbn [mbind option_bind].
  destruct operands as [| y [| ? ?]]; try (by eexists).
  cbn [length lookup list_lookup mbind option_bind].
  rewrite (bool_decide_eq_false_2 (1%nat ≠ 1%nat)) by (by intros ?).
  destruct (bool_decide _); by eexists.
Qed.

Lemma ScatterOp_verify_defined_witness :
  exists result,
    ScatterOp_verify (scatter_example 1 [5; 6] f32 (combiner f32))
    = Some result.
Proof.
  apply (ScatterOp_verify_defined
           (scatter_example 1 [5; 6] f32 (combiner f32)));
    [reflexivity | reflexivity | by repeat constructor | discriminate].
Defined.

(** ** SortOp: the comparator region *)

(** X19: What an accepted sort is made of, besides the shapes: no input and at
    least one output, a sort dimension whose low 32 bits, read as an [int],
    are an axis of the outputs, two region arguments of the element type of
    each output, at the indices [2 * index] and [2 * index + 1] (which pass
    through [int] unchanged when there are at most 2^31 outputs), and a yield
    of one [i1]. *)
Theorem sort_verified_region (op : SortOp) :
  SortOp_verify op = Some success ->
  Z.of_nat (length (sort_getOutputs op)) <= 2 ^ 31 ->
  sort_getNumDpsInputs op = 0%nat
  /\ sort_getOutputs op ≠ []
  /\ length (getArguments (sort_block op))
     = (2 * length (sort_getOutputs op))%nat
  /\ (exists rank,
        sort_getOperandRank op = Some rank
        /\ 0 <= to_int (sort_getDimension op) < rank
        /\ forall index operandType,
             sort_getOutputs op !! index = Some operandType ->
             getRank operandType = rank)
  /\ (forall index operandType,
        sort_getOutputs op !! index = Some operandType ->
        getArguments (sort_block op) !! (2 * index)%nat
        = Some (Scalar (getElementType operandType))
        /\ getArguments (sort_block op) !! (2 * index + 1)%nat
           = Some (Scalar (getElementType operandType)))
  /\ getTerminator (sort_block op) = YieldOp [Scalar (IntegerType 1)].
Proof.
  unfold SortOp_verify. intros Hv Hcount. do 4 verify_inv Hv. verify_inv Hv.
  do 2 verify_inv Hv. destruct x1 as [| d]; [| done].
  apply bool_decide_eq_false, dec_stable in Hcheck.
  apply bool_decide_eq_false in Hcheck0.
  apply bool_decide_eq_false, dec_stable in Hcheck1.
  apply bool_decide_eq_false in Hcheck2.
  assert (Houtputs : forall index operandType,
            sort_getOutputs op !! index = Some operandType ->
            getRank operandType = x
            /\ getArguments (sort_block op) !! (2 * index)%nat
               = Some (Scalar (getElementType operandType))
            /\ getArguments (sort_block op) !! (2 * index + 1)%nat
               = Some (Scalar (getElementType operandType))).
  { intros index operandType Hindex.
    pose proof (verifyEach_success _ _ Hdef1 (index, operandType)) as Hbody.
    cbn beta iota in Hbody.
    unfold sort_getOperandType in Hbody. rewrite Hindex in Hbody.
    cbn [mbind option_bind] in Hbody.
    specialize (Hbody ltac:(by apply enumerate_elem_of)).
    do 2 verify_inv Hbody.
    cbn [verifyEach] in Hbody.
    apply bind_Some in Hbody as (r0 & Hfirst & Hbody).
    destruct r0 as [| ?]; [| done].
    apply bind_Some in Hbody as (r1 & Hsecond & Hbody).
    destruct r1 as [| ?]; [| done]. clear Hbody.
    apply lookup_lt_Some in Hindex.
    rewrite argument_index in Hfirst, Hsecond by lia.
    do 2 verify_inv Hfirst. do 2 verify_inv Hsecond.
    repeat match goal with
           | Hne : bool_decide (_ ≠ _) = false |- _ =>
               apply bool_decide_eq_false, dec_stable in Hne
           end.
    by subst. }
  unfold castYieldOp in Hv.
  destruct (getTerminator (sort_block op)) as [operands |]; [| done].
  cbn [mbind option_bind] in Hv. do 3 verify_inv Hv.
  match goal with
  | Hone : bool_decide (length operands ≠ 1%nat) = false |- _ =>
      apply bool_decide_eq_false, dec_stable in Hone;
      destruct operands as [| y [| ? ?]]; try done
  end.
  match goal with
  | Hint : negb (Ty_isInteger _ 1) = false |- _ =>
      apply negb_false_iff, Ty_isInteger_eq in Hint
  end.
  simplify_eq/=.
  split_and!; try done.
  - intros Hnil. apply Hcheck0. by rewrite Hnil.
  - exists x. split; [done |]. split; [lia |].
    intros index operandType Hindex. by apply (Houtputs index).
  - intros index operandType Hindex. by apply (Houtputs index).
Qed.

Lemma sort_verified_region_witness :
  getTerminator (sort_block sort_same_shapes)
  = YieldOp [Scalar (IntegerType 1)].
Proof.
  apply (sort_verified_region sort_same_shapes); [reflexivity |].
  simpl. lia.
Defined.

(** The sort dimension is read through an [int]: dimension 2^32 is
    dimension 0. *)
Remark sort_dimension_low_bits :
  SortOp_verify {| sort_getNumDpsInputs := 0;
                   sort_getOutputs := [tensor [kDynamic; 4] f32];
                   sort_getDimension := 2 ^ 32;
                   sort_block := comparator 1 f32 |} = Some success.
Proof. by vm_compute. Qed.

(** ** FftOp: the length *)

(** [n & (n - 1)] vanishes on 0 and on the powers of two only. *)
Lemma land_pred_zero (n : Z) :
  in_int64 n -> n ≠ int64_min ->
  Z.land n (wrap64 (n - 1)) = 0 <-> n = 0 \/ exists k, 0 <= k /\ n = 2 ^ k.
Proof.
  intros Hn Hmin. rewrite wrap64_id
    by (unfold in_int64, int64_min, int64_max in *; lia).
  destruct (Z.lt_trichotomy n 0) as [Hneg | [-> | Hpos]].
  - split.
    + intros Hland. exfalso.
      assert (Z.land n (n - 1) < 0) by (apply Z.land_neg; lia). lia.
    + intros [-> | (k & Hk & ->)]; [done |].
      pose proof (Z.pow_pos_nonneg 2 k ltac:(lia) Hk). lia.
  - split; [by left | done].
  - split.
    + intros Hland. right. exists (Z.log2 n).
      pose proof (Z.log2_nonneg n) as Hlog.
      pose proof (Z.log2_spec n Hpos) as [Hlo Hhi].
      split; [done |].
      destruct (decide (n = 2 ^ Z.log2 n)) as [Heq | Hne]; [done |].
      exfalso.
      assert (Z.log2 (n - 1) = Z.log2 n) as Hpred.
      { apply Z.log2_unique; [done |].
        rewrite <- Z.add_1_r in Hhi |- *. lia. }
      assert (Z.testbit (Z.land n (n - 1)) (Z.log2 n) = true) as Hbit.
      { rewrite Z.land_spec, Z.bit_log2 by done.
        rewrite <- Hpred, Z.bit_log2 by lia. done. }
      rewrite Hland, Z.bits_0 in Hbit. done.
    + intros [-> | (k & Hk & ->)]; [done |].
      rewrite Z.sub_1_r, <- Z.ones_equiv, Z.land_ones by done.
      apply Z.mod_same. by apply Z.pow_nonzero.
Qed.

(** X20: On a static length and the expected operands, [FftOp::verify] accepts
    exactly the powers of two and the length zero. *)
Theorem fft_length_check (op : FftOp) :
  isDynamic (getFftLength op) = false ->
  in_int64 (getFftLength op) ->
  fftOperands op ->
  FftOp_verify op = Some success
  <-> getFftLength op = 0 \/ exists k, 0 <= k /\ getFftLength op = 2 ^ k.
Proof.
  intros Hstatic Hrange [Hinputs Hinits].
  rewrite <- land_pred_zero by (done || by apply isDynamic_false).
  unfold FftOp_verify, emitOpError. rewrite Hstatic, Hinits.
  rewrite (bool_decide_eq_false_2 (2%nat ≠ 2%nat)) by (by intros ?).
  assert ((if match fft_getDpsInputs op with
              | [] => true
              | stage :: _ => negb (isScalar stage)
              end
           then Some (failure [DStr "expected to carry `stage` input"])
           else if bool_decide (length (fft_getDpsInputs op) ≠ 1%nat)
                   && match fft_getDpsInputs op with
                      | [_; re; im] => isScalar re || isScalar im
                      | _ => true
                      end
                then Some (failure
                             [DStr "expected to carry real and imag coeff inputs"])
                else Some success) = Some success) as ->.
  { destruct Hinputs as [(stage & -> & Hstage)
                        | (stage & re & im & -> & Hstage & Hre & Him)].
    - rewrite Hstage. cbn [negb length].
      by rewrite (bool_decide_eq_false_2 (1%nat ≠ 1%nat)) by (by intros ?).
    - rewrite Hstage, Hre, Him. cbn [negb orb length].
      by rewrite andb_false_r. }
  destruct (decide (Z.land (getFftLength op)
                           (wrap64 (getFftLength op - 1)) = 0))
    as [Hpow | Hpow].
  - by rewrite bool_decide_eq_false_2 by (by intros ?).
  - by rewrite bool_decide_eq_true_2.
Qed.

Lemma fft_length_check_witness :
  FftOp_verify (fft_of_length 0) = Some success
  <-> getFftLength (fft_of_length 0) = 0
      \/ exists k, 0 <= k /\ getFftLength (fft_of_length 0) = 2 ^ k.
Proof.
  apply (fft_length_check (fft_of_length 0));
    [reflexivity | unfold in_int64, int64_min, int64_max; simpl; lia |].
  split; [| reflexivity]. left. by exists (Scalar (IntegerType 64)).
Defined.
(** ** AttentionOp: the tiled form and the transposed value *)

Lemma checkShapeRank_inv operandName shapedType rank (k : option LogicalResult) :
  (return_if_failed (checkShapeRank operandName shapedType rank);; k)
  = Some success ->
  getRank shapedType = rank /\ k = Some success.
Proof.
  destruct (checkShapeRank operandName shapedType rank) eqn:Hrank; [| done].
  intros Hk. split; [by eapply checkShapeRank_success | done].
Qed.

(** X21: What an accepted tiled attention (three outputs) is made of: query,
    key, value and output of rank 2; query, key, value and scale of one
    floating point element type; a running maximum and sum of rank 1, of the
    element type of the output and of compatible shapes; and the first extent
    of the maximum equal to the first extent of the query. *)
Theorem attention_tiled_contract (op : AttentionOp) :
  length (attention_getDpsInits op) = 3%nat ->
  AttentionOp_verify op = Some success ->
  getRank (getQueryType op) = 2
  /\ getRank (getKeyType op) = 2
  /\ getRank (getValueType op) = 2
  /\ getRank (attention_getOutputType op) = 2
  /\ isFloatType (getScaleType op) = true
  /\ getElementType (getKeyType op) = getElementType (getQueryType op)
  /\ getElementType (getValueType op) = getElementType (getQueryType op)
  /\ getScaleType op = Scalar (getElementType (getQueryType op))
  /\ verifyCompatibleShape (getShape (getQueryType op))
       (getShape (attention_getOutputType op)) = true
  /\ exists maxType sumType,
       getMaxType op = Some maxType
       /\ getSumType op = Some sumType
       /\ getRank maxType = 1
       /\ getRank sumType = 1
       /\ getElementType maxType
          = getElementType (attention_getOutputType op)
       /\ getElementType sumType
          = getElementType (attention_getOutputType op)
       /\ verifyCompatibleShape (getShape maxType) (getShape sumType) = true
       /\ exists rows,
            getShape maxType !! 0%nat = Some rows
            /\ getShape (getQueryType op) !! 0%nat = Some rows.
Proof.
  intros Hthree. unfold AttentionOp_verify. rewrite Hthree.
  rewrite (bool_decide_eq_true_2 (3%nat = 3%nat)) by done.
  cbn [negb]. intros Hv. do 4 verify_inv Hv.
  apply checkShapeRank_inv in Hv as [Hq Hv].
  apply checkShapeRank_inv in Hv as [Hk Hv].
  apply checkShapeRank_inv in Hv as [Hval Hv].
  apply checkShapeRank_inv in Hv as [Hout Hv].
  do 4 verify_inv Hv.
  cbn [mbind option_bind] in Hv.
  do 2 verify_inv Hv.
  apply checkShapeRank_inv in Hv as [Hmax Hv].
  apply checkShapeRank_inv in Hv as [Hsum Hv].
  do 5 verify_inv Hv.
  repeat match goal with
         | Hor : _ || _ = false |- _ => apply orb_false_iff in Hor as [? ?]
         | Hne : bool_decide (_ ≠ _) = false |- _ =>
             apply bool_decide_eq_false, dec_stable in Hne
         | Hneg : negb _ = false |- _ => apply negb_false_iff in Hneg
         end.
  subst. split_and!; try done.
  eexists _, _. split_and!; try done; try congruence.
  by eexists.
Qed.

Lemma attention_tiled_contract_witness :
  getRank (getQueryType
             (attention_tiled_example [8; 16] [32; 16] [32; 16] [8; 16]
                                      [8] [8] false)) = 2.
Proof.
  apply (attention_tiled_contract
           (attention_tiled_example [8; 16] [32; 16] [32; 16] [8; 16]
                                    [8] [8] false));
    reflexivity.
Defined.

Lemma swapLastTwo_app {A} (front : list A) (m n : A) :
  swapLastTwo (front ++ [m; n]) = Some (front ++ [n; m]).
Proof.
  unfold swapLastTwo. rewrite !length_app. cbn [length].
  replace (length front + 2 - 1 - 1)%nat with (length front + 0)%nat by lia.
  replace (length front + 2 - 1)%nat with (length front + 1)%nat by lia.
  rewrite !lookup_app_r by lia.
  replace (length front + 0 - length front)%nat with 0%nat by lia.
  replace (length front + 1 - length front)%nat with 1%nat by lia.
  cbn [lookup list_lookup mbind option_bind].
  rewrite bool_decide_eq_true_2 by lia.
  by rewrite !insert_app_r.
Qed.

Lemma swapLastTwo_Some {A} (l l' : list A) :
  swapLastTwo l = Some l' ->
  exists front m n, l = front ++ [m; n] /\ l' = front ++ [n; m].
Proof.
  intros Hswap. pose proof Hswap as Hparts. unfold swapLastTwo in Hparts.
  apply bind_Some in Hparts as (a & Ha & Hparts).
  apply bind_Some in Hparts as (b & Hb & Hparts).
  destruct (decide (2 <= length l)%nat) as [Hlen | Hlen];
    [| by rewrite bool_decide_eq_false_2 in Hparts].
  clear Hparts.
  exists (take (length l - 2) l), a, b.
  assert (Hl : l = take (length l - 2) l ++ [a; b]).
  { rewrite <- (take_drop (length l - 2) l) at 1. f_equal.
    apply list_eq. intros [| [| i]]; rewrite lookup_drop; cbn.
    - rewrite <- Ha. f_equal. lia.
    - rewrite <- Hb. f_equal. lia.
    - apply lookup_ge_None. lia. }
  split; [done |].
  set (front := take (length l - 2) l) in *. clearbody front. subst l.
  rewrite swapLastTwo_app in Hswap. by injection Hswap as <-.
Qed.

(** X22: An accepted attention with a transposed value: the key is compatible
    with the shape of the value whose last two extents are exchanged. *)
Theorem attention_transposed_value (op : AttentionOp) :
  getTransposeV op = true ->
  AttentionOp_verify op = Some success ->
  exists front m n,
    getShape (getValueType op) = front ++ [m; n]
    /\ verifyCompatibleShape (getShape (getKeyType op)) (front ++ [n; m])
       = true.
Proof.
  intros Htranspose. unfold AttentionOp_verify. rewrite Htranspose.
  intros Hv. do 4 verify_inv Hv.
  apply checkShapeRank_inv in Hv as [_ Hv].
  apply checkShapeRank_inv in Hv as [_ Hv].
  apply checkShapeRank_inv in Hv as [_ Hv].
  apply checkShapeRank_inv in Hv as [_ Hv].
  do 2 verify_inv Hv.
  match goal with
  | Hswap : swapLastTwo _ = Some _ |- _ =>
      apply swapLastTwo_Some in Hswap as (front & m & n & Hvalue & ->)
  end.
  exists front, m, n. split; [done |].
  match goal with
  | Hneg : negb _ = false |- _ => by apply negb_false_iff in Hneg
  end.
Qed.

Lemma attention_transposed_value_witness :
  exists front m n,
    [32; 16] = front ++ [m; n]
    /\ verifyCompatibleShape [16; 32] (front ++ [n; m]) = true.
Proof.
  apply (attention_transposed_value
           (attention_tiled_example [8; 16] [16; 32] [32; 16] [8; 16]
                                    [8] [8] true));
    reflexivity.
Defined.

(** ** WinogradFilterTransformOp *)

Lemma verifyCompatibleShape_rank shape1 shape2 (n : nat) :
  length shape1 = n -> length shape2 ≠ n ->
  verifyCompatibleShape shape1 shape2 = false.
Proof.
  intros H1 H2. unfold verifyCompatibleShape.
  by rewrite bool_decide_eq_false_2 by congruence.
Qed.

Lemma winograd_filter_rank_4 (op : WinogradFilterTransformOp) (x0 x1 x2 x3 : Z)
    (d0 d1 : Z) (expected : list Z) :
  length (filter_getDpsInputs op) = 1%nat ->
  length (filter_getDpsInits op) = 1%nat ->
  getElementType (filter_getOutputType op)
  = getElementType (filter_getInputType op) ->
  getShape (filter_getInputType op) = [x0; x1; x2; x3] ->
  getKernelDimensions op = [d0; d1] ->
  ([d0; d1] = [0; 1]
   /\ expected = [filter_getInputTileSize op;
                  filter_getInputTileSize op; x2; x3]
   \/ [d0; d1] = [2; 3]
      /\ expected = [filter_getInputTileSize op;
                     filter_getInputTileSize op; x1; x0]) ->
  WinogradFilterTransformOp_verify op = Some success
  <-> lookupZ [x0; x1; x2; x3] d0 = Some (filter_getKernelSize op)
      /\ lookupZ [x0; x1; x2; x3] d1 = Some (filter_getKernelSize op)
      /\ verifyCompatibleShape expected (getShape (filter_getOutputType op))
         = true.
Proof.
  intros Hin Hout Helem Hshape Hdims Hlayout.
  unfold WinogradFilterTransformOp_verify, getRank, isHwcf, isFchw,
    getDimSize, emitOpError.
  rewrite Hin, Hout, Helem, Hshape, Hdims.
  rewrite !(bool_decide_eq_false_2 (1%nat ≠ 1%nat)) by (by intros ?).
  rewrite (bool_decide_eq_false_2 (getElementType _ ≠ _)) by (by intros ?).
  cbn [length].
  rewrite (bool_decide_eq_false_2 (Z.of_nat 4 ≠ 4)) by (by intros ?).
  rewrite andb_false_r.
  rewrite (bool_decide_eq_false_2 (Z.of_nat 4 = 2)) by done.
  rewrite (bool_decide_eq_false_2 (2%nat ≠ 2%nat)) by (by intros ?).
  destruct (decide (length (getShape (filter_getOutputType op)) = 4%nat))
    as [Hrank | Hrank].
  2:{ rewrite bool_decide_eq_true_2 by (intros ?; apply Hrank; lia).
      split; [done |]. intros (_ & _ & Hcompat). exfalso.
      rewrite (verifyCompatibleShape_rank _ _ 4) in Hcompat; [done | | done].
      by destruct Hlayout as [(_ & ->) | (_ & ->)]. }
  rewrite bool_decide_eq_false_2 by (rewrite Hrank; by intros ?).
  assert (Hkernel : forall a b (k : option LogicalResult),
            (verifyEach
               (fun kernelDim : Z =>
                  lookupZ [x0; x1; x2; x3] kernelDim
                  ≫= fun size : Z =>
                       if bool_decide (size ≠ filter_getKernelSize op)
                       then Some (failure
                                    [DStr "expect all kernel dimensions to have the kernel size"])
                       else Some success)
               [d0; d1]
             ≫= fun kernelOk : LogicalResult => return_if_failed kernelOk;; k)
            = Some success ->
            lookupZ [x0; x1; x2; x3] d0 = Some a ->
            lookupZ [x0; x1; x2; x3] d1 = Some b ->
            a = filter_getKernelSize op /\ b = filter_getKernelSize op
            /\ k = Some success).
  { intros a b k Hv Ha Hb. cbn [verifyEach] in Hv. rewrite Ha, Hb in Hv.
    cbn [mbind option_bind] in Hv.
    destruct (decide (a = filter_getKernelSize op)) as [-> | Hane];
      [| rewrite (bool_decide_eq_true_2 (a ≠ _)) in Hv by done;
         by cbn in Hv].
    rewrite (bool_decide_eq_false_2 (filter_getKernelSize op ≠ _)) in Hv
      by (by intros ?).
    cbn [mbind option_bind] in Hv.
    destruct (decide (b = filter_getKernelSize op)) as [-> | Hbne];
      [| rewrite (bool_decide_eq_true_2 (b ≠ _)) in Hv by done;
         by cbn in Hv].
    rewrite (bool_decide_eq_false_2 (filter_getKernelSize op ≠ _)) in Hv
      by (by intros ?).
    done. }
  assert (Hkernel' : forall (k : option LogicalResult),
            lookupZ [x0; x1; x2; x3] d0 = Some (filter_getKernelSize op) ->
            lookupZ [x0; x1; x2; x3] d1 = Some (filter_getKernelSize op) ->
            (verifyEach
               (fun kernelDim : Z =>
                  lookupZ [x0; x1; x2; x3] kernelDim
                  ≫= fun size : Z =>
                       if bool_decide (size ≠ filter_getKernelSize op)
                       then Some (failure
                                    [DStr "expect all kernel dimensions to have the kernel size"])
                       else Some success)
               [d0; d1]
             ≫= fun kernelOk : LogicalResult => return_if_failed kernelOk;; k)
            = k).
  { intros k Ha Hb. cbn [verifyEach]. rewrite Ha, Hb.
    cbn [mbind option_bind].
    by rewrite !(bool_decide_eq_false_2 (filter_getKernelSize op ≠ _))
      by (by intros ?). }
  destruct Hlayout as [([= -> ->] & ->) | ([= -> ->] & ->)].
  - rewrite (bool_decide_eq_true_2 ([0; 1] = [0; 1])) by done.
    rewrite (bool_decide_eq_false_2 ([0; 1] = [2; 3])) by done.
    cbn [negb andb].
    match goal with
    | |- context [foldM ?f ?a ?l] =>
        let v := eval lazy -[filter_getInputTileSize] in (foldM f a l) in
        change (foldM f a l) with v
    end.
    cbn [mbind option_bind]. split.
    + intros Hv. apply (Hkernel x0 x1) in Hv as (<- & <- & Hv); [| done..].
      split; [done |]. split; [done |].
      destruct (verifyCompatibleShape _ _); [done | discriminate Hv].
    + intros (Ha & Hb & Hcompat). rewrite Hkernel' by done.
      by rewrite Hcompat.
  - rewrite (bool_decide_eq_true_2 ([2; 3] = [2; 3])) by done.
    rewrite (bool_decide_eq_false_2 ([2; 3] = [0; 1])) by done.
    cbn [negb andb].
    match goal with
    | |- context [foldM ?f ?a ?l] =>
        let v := eval lazy -[filter_getInputTileSize] in (foldM f a l) in
        change (foldM f a l) with v
    end.
    cbn [mbind option_bind].
    change (permute_TTFC_TO_TTCF
              [filter_getInputTileSize op; filter_getInputTileSize op; x0; x1])
      with [filter_getInputTileSize op; filter_getInputTileSize op; x1; x0].
    split.
    + intros Hv. apply (Hkernel x2 x3) in Hv as (<- & <- & Hv); [| done..].
      split; [done |]. split; [done |].
      destruct (verifyCompatibleShape _ _); [done | discriminate Hv].
    + intros (Ha & Hb & Hcompat). rewrite Hkernel' by done.
      by rewrite Hcompat.
Qed.

(** X25: What the filter transform accepts, given one input and one output of
    one element type. In the layout HWCF, on a filter [h x w x c x f]: both
    kernel extents are the kernel size, a dynamic extent not being one, and
    the output is compatible with [T x T x c x f] for the input tile size [T].
    In the layout FCHW, on a filter [f x c x h x w]: the same. On a single
    tile, of rank 2: the filter is compatible with the square of the kernel
    size and the output with the square of the input tile size. *)
Theorem winograd_filter_contract (op : WinogradFilterTransformOp) :
  length (filter_getDpsInputs op) = 1%nat ->
  length (filter_getDpsInits op) = 1%nat ->
  getElementType (filter_getOutputType op)
  = getElementType (filter_getInputType op) ->
  (forall h w c f,
     getKernelDimensions op = [0; 1] ->
     getShape (filter_getInputType op) = [h; w; c; f] ->
     WinogradFilterTransformOp_verify op = Some success
     <-> h = filter_getKernelSize op /\ w = filter_getKernelSize op
         /\ verifyCompatibleShape
              [filter_getInputTileSize op; filter_getInputTileSize op; c; f]
              (getShape (filter_getOutputType op)) = true)
  /\ (forall f c h w,
        getKernelDimensions op = [2; 3] ->
        getShape (filter_getInputType op) = [f; c; h; w] ->
        WinogradFilterTransformOp_verify op = Some success
        <-> h = filter_getKernelSize op /\ w = filter_getKernelSize op
            /\ verifyCompatibleShape
                 [filter_getInputTileSize op; filter_getInputTileSize op; c; f]
                 (getShape (filter_getOutputType op)) = true)
  /\ (forall a b,
        getShape (filter_getInputType op) = [a; b] ->
        WinogradFilterTransformOp_verify op = Some success
        <-> verifyCompatibleShape
              [filter_getKernelSize op; filter_getKernelSize op] [a; b] = true
            /\ verifyCompatibleShape
                 [filter_getInputTileSize op; filter_getInputTileSize op]
                 (getShape (filter_getOutputType op)) = true).
Proof.
  intros Hin Hout Helem. split_and!.
  - intros h w c f Hdims Hshape.
    rewrite (winograd_filter_rank_4 op h w c f 0 1
               [filter_getInputTileSize op; filter_getInputTileSize op; c; f])
      by (done || by left).
    cbn. split; [intros ([= ->] & [= ->] & ?) | intros (-> & -> & ?)]; done.
  - intros f c h w Hdims Hshape.
    rewrite (winograd_filter_rank_4 op f c h w 2 3
               [filter_getInputTileSize op; filter_getInputTileSize op; c; f])
      by (done || by right).
    cbn. split; [intros ([= ->] & [= ->] & ?) | intros (-> & -> & ?)]; done.
  - intros a b Hshape.
    unfold WinogradFilterTransformOp_verify, getRank, emitOpError.
    rewrite Hin, Hout, Helem, Hshape.
    rewrite !(bool_decide_eq_false_2 (1%nat ≠ 1%nat)) by (by intros ?).
    rewrite (bool_decide_eq_false_2 (getElementType _ ≠ _)) by (by intros ?).
    cbn [length replicate].
    rewrite (bool_decide_eq_false_2 (Z.of_nat 2 ≠ 2)) by (by intros ?).
    rewrite (bool_decide_eq_true_2 (Z.of_nat 2 = 2)) by done.
    cbn [andb].
    destruct (decide (length (getShape (filter_getOutputType op)) = 2%nat))
      as [Hrank | Hrank].
    + rewrite bool_decide_eq_false_2 by (rewrite Hrank; by intros ?).
      destruct (verifyCompatibleShape [_; _] [a; b]); cbn [negb];
        [| by split; [| intros [? _]]].
      destruct (verifyCompatibleShape _ _); cbn [negb];
        [done | by split; [| intros [_ ?]]].
    + rewrite bool_decide_eq_true_2 by (intros ?; apply Hrank; lia).
      split; [done |]. intros [_ Hcompat].
      by rewrite (verifyCompatibleShape_rank _ _ 2) in Hcompat.
Qed.

Lemma winograd_filter_contract_witness :
  WinogradFilterTransformOp_verify
    (winograd_filter_hwcf [3; 3; 16; 32] [6; 6; 16; 32]) = Some success
  <-> 3 = filter_getKernelSize
            (winograd_filter_hwcf [3; 3; 16; 32] [6; 6; 16; 32])
      /\ 3 = filter_getKernelSize
               (winograd_filter_hwcf [3; 3; 16; 32] [6; 6; 16; 32])
      /\ verifyCompatibleShape
           [filter_getInputTileSize
              (winograd_filter_hwcf [3; 3; 16; 32] [6; 6; 16; 32]);
            filter_getInputTileSize
              (winograd_filter_hwcf [3; 3; 16; 32] [6; 6; 16; 32]); 16; 32]
           (getShape (filter_getOutputType
                        (winograd_filter_hwcf [3; 3; 16; 32] [6; 6; 16; 32])))
         = true.
Proof.
  apply (proj1 (winograd_filter_contract
                  (winograd_filter_hwcf [3; 3; 16; 32] [6; 6; 16; 32])
                  ltac:(reflexivity) ltac:(reflexivity) ltac:(reflexivity))
           3 3 16 32);
    reflexivity.
Defined.

(** ** WinogradOutputTransformOp *)




(** ** The winograd input transform of rank 4, channels first *)

Lemma winograd_nhwc_contract_witness :
  WinogradInputTransformOp_verify
    (winograd_nhwc [1; 10; kDynamic; 3] [6; 6; 1; 2; kDynamic; 3])
  = Some success
  <-> verifyCompatibleShape
        [getInputTileSize
           (winograd_nhwc [1; 10; kDynamic; 3] [6; 6; 1; 2; kDynamic; 3]);
         getInputTileSize
           (winograd_nhwc [1; 10; kDynamic; 3] [6; 6; 1; 2; kDynamic; 3]);
         1;
         expectedImageAxis
           (winograd_nhwc [1; 10; kDynamic; 3] [6; 6; 1; 2; kDynamic; 3]) 10;
         expectedImageAxis
           (winograd_nhwc [1; 10; kDynamic; 3] [6; 6; 1; 2; kDynamic; 3])
           kDynamic;
         3]
        (getShape (winograd_getOutputType
                     (winograd_nhwc [1; 10; kDynamic; 3]
                                    [6; 6; 1; 2; kDynamic; 3]))) = true.
Proof.
  apply (winograd_nhwc_contract
           (winograd_nhwc [1; 10; kDynamic; 3] [6; 6; 1; 2; kDynamic; 3])
           1 10 kDynamic 3);
    [reflexivity | reflexivity | reflexivity | reflexivity | reflexivity
    | simpl; lia | right; simpl; lia | left; reflexivity].
Defined.

Lemma winograd_nchw_expected_shape (op : WinogradInputTransformOp)
    n c h w tilesH tilesW :
  length (winograd_getDpsInputs op) = 1%nat ->
  length (winograd_getDpsInits op) = 1%nat ->
  getElementType (winograd_getOutputType op)
  = getElementType (winograd_getInputType op) ->
  imageDimensions op = [2; 3] ->
  getShape (winograd_getInputType op) = [n; c; h; w] ->
  length (getShape (winograd_getOutputType op)) = 6%nat ->
  imageAxisTiles op h = Some tilesH ->
  imageAxisTiles op w = Some tilesW ->
  WinogradInputTransformOp_verify op
  = (reject_if (negb (verifyCompatibleShape
                        [getInputTileSize op; getInputTileSize op;
                         n; tilesH; tilesW; c]
                        (getShape (winograd_getOutputType op))))
       with [DStr "incompatible output shape"];;
     Some success).
Proof.
  intros Hin Hout Helem Himage Hshape Hrank HtilesH HtilesW.
  unfold WinogradInputTransformOp_verify, getRank, isNchw, isNhwc.
  rewrite Hin, Hout, Helem, Himage, Hshape, Hrank.
  rewrite (bool_decide_eq_false_2
             (getElementType (winograd_getInputType op)
              ≠ getElementType (winograd_getInputType op)))
    by (by intros ?).
  unfold imageAxisTiles in *.
  lazy -[verifyCompatibleShape winogradTileCount isDynamic getInputTileSize
         getKernelSize getOutputTileSize winograd_getOutputType getShape].
  destruct (isDynamic n), (isDynamic c);
    destruct (isDynamic h), (isDynamic w);
    rewrite ?HtilesH, ?HtilesW;
    try injection HtilesH as <-; try injection HtilesW as <-;
    reflexivity.
Qed.

(** X24: The shape contract of the channel-first transform of rank 4, under
    the bounds of the channel-last one: on an input [n x c x h x w] the
    accepted outputs are those compatible with the tile axes, the batch
    extent, the two image extents replaced by the ceiling of [(extent -
    kernelSize + 1) / outputTileSize], and the channels last. *)
Theorem winograd_nchw_contract (op : WinogradInputTransformOp) n c h w :
  length (winograd_getDpsInputs op) = 1%nat ->
  length (winograd_getDpsInits op) = 1%nat ->
  getElementType (winograd_getOutputType op)
  = getElementType (winograd_getInputType op) ->
  imageDimensions op = [2; 3] ->
  getShape (winograd_getInputType op) = [n; c; h; w] ->
  1 <= getOutputTileSize op <= 2 ^ 24 ->
  exactInSinglePrecision op h -> exactInSinglePrecision op w ->
  WinogradInputTransformOp_verify op = Some success
  <-> verifyCompatibleShape
        [getInputTileSize op; getInputTileSize op; n;
         expectedImageAxis op h; expectedImageAxis op w; c]
        (getShape (winograd_getOutputType op)) = true.
Proof.
  intros Hin Hout Helem Himage Hshape Ht Hh Hw.
  destruct (decide (length (getShape (winograd_getOutputType op)) = 6%nat))
    as [Hrank | Hrank].
  - rewrite (winograd_nchw_expected_shape op n c h w
               (expectedImageAxis op h) (expectedImageAxis op w));
      try done; try by apply imageAxisTiles_expected.
    destruct (verifyCompatibleShape _ _); by split.
  - split.
    + intros Hv. exfalso. apply Hrank.
      apply winograd_rank_4_output; [by rewrite Hshape | done].
    + intros Hcompat%verifyCompatibleShape_length. by rewrite <- Hcompat in Hrank.
Qed.

Lemma winograd_nchw_contract_witness :
  WinogradInputTransformOp_verify
    {| winograd_getDpsInputs := [Shaped (tensor [1; 3; 10; 10] f32)];
       winograd_getDpsInits := [Shaped (tensor [6; 6; 1; 2; 2; 3] f32)];
       winograd_getInputType := tensor [1; 3; 10; 10] f32;
       winograd_getOutputType := tensor [6; 6; 1; 2; 2; 3] f32;
       getOutputTileSize := 4;
       getKernelSize := 3;
       imageDimensions := [2; 3] |} = Some success
  <-> verifyCompatibleShape [6; 6; 1; 2; 2; 3] [6; 6; 1; 2; 2; 3] = true.
Proof.
  apply (winograd_nchw_contract
           {| winograd_getDpsInputs := [Shaped (tensor [1; 3; 10; 10] f32)];
              winograd_getDpsInits := [Shaped (tensor [6; 6; 1; 2; 2; 3] f32)];
              winograd_getInputType := tensor [1; 3; 10; 10] f32;
              winograd_getOutputType := tensor [6; 6; 1; 2; 2; 3] f32;
              getOutputTileSize := 4;
              getKernelSize := 3;
              imageDimensions := [2; 3] |} 1 3 10 10);
    [reflexivity | reflexivity | reflexivity | reflexivity | reflexivity
    | simpl; lia | right; simpl; lia | right; simpl; lia].
Defined.
